(** * Strava activities API: a shallow embedding of [server.js] and [dynamodb.js]

    The development follows the source files of the service:
    - [JS]: the few JavaScript number operations the code relies on
      (32-bit bitwise operators, [NaN] from [charCodeAt], the division of
      doubles);
    - [Polyline]: [decodePolyline];
    - [Strava], [Item]: the upstream and the stored shape of an activity;
    - [Runtime]: what lies outside the process (store, clock, upstream and
      geocoder replies) and the monad in which asynchronous code runs;
    - [Geo]: the country resolver ([getCountryFromCoordinates] and its tiers)
      and the rate limiter ([rateLimitedCall]);
    - [Limiter]: calls of the rate limiter that interleave;
    - [Dynamo]: the store gateway ([storeActivities], [activityExists], ...);
    - [Server]: the sync pipeline and the detail handler;
    - [Observe]: what a run did, read off its trace.
    The properties follow the definitions.

    Numbers: JavaScript integers that stay below 2^53 are modelled by [Z],
    coordinates (doubles) by rationals [Q]; the quotient behind the distance
    string is rounded to a double.  Loops that are not structural
    take fuel; that the fuel the code is given suffices is proved. *)

From Stdlib Require Import ZArith QArith Qabs Qround String Ascii List Lia Bool.
From stdpp Require Import base option list gmap strings pretty.

Local Open Scope Z_scope.

(* ===================================================================== *)
(** ** JavaScript numbers *)
(* ===================================================================== *)

Module JS.

(** A number that is either an integer or [NaN] (what [charCodeAt] gives and
    what the arithmetic of [decodePolyline] keeps). *)
Inductive num : Type :=
| Num (z : Z)
| NaN.

(** [ToInt32]: wrap-around to the signed 32-bit range; [NaN] becomes 0. *)
Definition wrap32 (z : Z) : Z := (z + 2 ^ 31) mod 2 ^ 32 - 2 ^ 31.

Definition toInt32 (x : num) : Z :=
  match x with
  | Num z => wrap32 z
  | NaN => 0
  end.

(** [x - k] *)
Definition sub (x : num) (k : Z) : num :=
  match x with
  | Num z => Num (z - k)
  | NaN => NaN
  end.

(** [x & m], the operands taken through [ToInt32]. *)
Definition band (x : num) (m : Z) : Z := Z.land (toInt32 x) (wrap32 m).

(** [x << s]: the shift count is taken modulo 32, the result wraps. *)
Definition shl (x : Z) (s : Z) : Z := wrap32 (Z.shiftl x (s mod 32)).

(** [x >> 1] on a 32-bit value: arithmetic shift. *)
Definition sar1 (x : Z) : Z := Z.shiftr x 1.

(** [~x] *)
Definition bnot (x : Z) : Z := Z.lnot x.

(** [x >= k]; any comparison with [NaN] is false. *)
Definition ge (x : num) (k : Z) : bool :=
  match x with
  | Num z => k <=? z
  | NaN => false
  end.

(** A floating-point number, as far as the comparisons of the code see
    it: a finite value (taken as the rational it stands for), an infinity
    or [NaN]. *)
Inductive real : Type :=
| Finite (q : Q)
| PlusInfinity
| MinusInfinity
| NotANumber.

(** [x >= c] and [x <= c] for a finite constant [c]. *)
Definition geq (x : real) (c : Q) : bool :=
  match x with
  | Finite q => Qle_bool c q
  | PlusInfinity => true
  | MinusInfinity | NotANumber => false
  end.

Definition leq (x : real) (c : Q) : bool :=
  match x with
  | Finite q => Qle_bool q c
  | MinusInfinity => true
  | PlusInfinity | NotANumber => false
  end.

(** *** Division of doubles

    A finite double is taken as the rational it stands for.  An arithmetic
    operation returns the double nearest to the exact result, ties going to
    the even significand; [roundDouble] does this for every rational of
    magnitude below 2^1024, subnormal results included. *)

(** [2^e] *)
Definition pow2 (e : Z) : Q :=
  if 0 <=? e then inject_Z (2 ^ e) else 1 # Z.to_pos (2 ^ (- e)).

Definition roundHalfEven (x : Q) : Z :=
  let f := Qfloor x in
  match (x - inject_Z f ?= 1 # 2)%Q with
  | Lt => f
  | Gt => f + 1
  | Eq => if Z.even f then f else f + 1
  end.

Definition roundDouble (q : Q) : Q :=
  match Qnum q with
  | 0 => 0%Q
  | _ =>
      let a := Qabs q in
      (* [a / 2^e0] lies between 2^52 and 2^54 *)
      let e0 := Z.log2 (Qnum a) - Z.log2 (Zpos (Qden a)) - 53 in
      let e1 := if Qle_bool (inject_Z (2 ^ 53)) (a * pow2 (- e0))
                then e0 + 1 else e0 in
      let e := Z.max e1 (-1074) in
      let r := (inject_Z (roundHalfEven (a * pow2 (- e))) * pow2 e)%Q in
      if Qle_bool 0 q then r else (- r)%Q
  end.

(** [x / y], [y] not zero.  An operand is read as the double nearest to
    it, which it is itself when it comes out of a computation, and which is
    what a decimal literal and a number of a JSON text stand for. *)
Definition divide (x y : Q) : Q :=
  roundDouble (roundDouble x / roundDouble y).

(** [s.charCodeAt(i)]: the code unit at [i], [NaN] past the end.  A string
    is the list of its code units. *)
Definition charCodeAt (s : list Z) (i : nat) : num :=
  match nth_error s i with
  | Some c => Num c
  | None => NaN
  end.

(** The code units of a string literal. *)
Definition codeUnits (s : string) : list Z :=
  map (fun a => Z.of_nat (nat_of_ascii a)) (list_ascii_of_string s).

End JS.

(* ===================================================================== *)
(** ** Polyline decoder ([decodePolyline], server.js) *)
(* ===================================================================== *)

Module Polyline.
Import JS.

Record Coordinate : Type := mkCoordinate { lat : Q; lng : Q }.

(** Coordinates are compared as rationals. *)
Definition coord_eq (c d : Coordinate) : Prop :=
  (lat c == lat d)%Q /\ (lng c == lng d)%Q.

(** [n / 1e5] *)
Definition div1e5 (n : Z) : Q := (inject_Z n / 100000)%Q.

(** The zig-zag step: [(result & 1) !== 0 ? ~(result >> 1) : result >> 1]. *)
Definition unzigzag (result : Z) : Z :=
  if negb (Z.land result 1 =? 0) then bnot (sar1 result) else sar1 result.

(** One [do { ... } while (byte >= 0x20)] loop.  It starts with the current
    [index], [shift] and [result] and gives back the index and the result it
    ends with; [None] when the fuel runs out. *)
Fixpoint readVarint (fuel : nat) (encoded : list Z)
         (index : nat) (shift result : Z) : option (nat * Z) :=
  match fuel with
  | O => None
  | S fuel' =>
      let byte := sub (charCodeAt encoded index) 63 in
      let index := S index in
      let result := Z.lor result (shl (band byte 31) shift) in
      let shift := shift + 5 in
      if ge byte 32 then readVarint fuel' encoded index shift result
      else Some (index, result)
  end.

(** The [while (index < encoded.length)] loop. *)
Fixpoint decodeLoop (fuel : nat) (encoded : list Z) (index : nat)
         (lat lng : Z) (coordinates : list Coordinate)
  : option (list Coordinate) :=
  match fuel with
  | O => None
  | S fuel' =>
      if (index <? length encoded)%nat then
        match readVarint (S (length encoded)) encoded index 0 0 with
        | None => None
        | Some (index, result) =>
            let deltaLat := unzigzag result in
            let lat := lat + deltaLat in
            match readVarint (S (length encoded)) encoded index 0 0 with
            | None => None
            | Some (index, result) =>
                let deltaLng := unzigzag result in
                let lng := lng + deltaLng in
                decodeLoop fuel' encoded index lat lng
                  (coordinates ++ [mkCoordinate (div1e5 lat) (div1e5 lng)])
            end
        end
      else Some coordinates
  end.

Definition decodePolyline (encoded : list Z) : option (list Coordinate) :=
  decodeLoop (S (length encoded)) encoded 0 0 0 [].

(** *** Well-formed encodings

    A value is written as a non-empty list of 5-bit groups, least
    significant first; every group but the last carries the continuation
    bit [0x20], and every character is offset by 63. *)

Fixpoint groupsValue (gs : list Z) : Z :=
  match gs with
  | [] => 0
  | g :: rest => g + 32 * groupsValue rest
  end.

Fixpoint groupsChars (gs : list Z) : list Z :=
  match gs with
  | [] => []
  | [g] => [g + 63]
  | g :: rest => (g + 32 + 63) :: groupsChars rest
  end.

(** The groups of one value: each in [0, 32), and the value they spell fits
    the 32-bit accumulator of the decoder. *)
Definition wfGroups (gs : list Z) : Prop :=
  gs <> [] /\ Forall (fun g => 0 <= g < 32) gs /\ groupsValue gs < 2 ^ 31.

(** An encoded string is the concatenation, pair after pair, of the
    characters of the latitude groups and of the longitude groups. *)
Definition encodePairs (ps : list (list Z * list Z)) : list Z :=
  concat (map (fun p => groupsChars (fst p) ++ groupsChars (snd p)) ps).

Definition wfPairs (ps : list (list Z * list Z)) : Prop :=
  Forall (fun p => wfGroups (fst p) /\ wfGroups (snd p)) ps.

(** The zig-zag-decoded deltas a well-formed string carries. *)
Definition deltas (ps : list (list Z * list Z)) : list (Z * Z) :=
  map (fun p => (unzigzag (groupsValue (fst p)),
                 unzigzag (groupsValue (snd p)))) ps.

Definition sumZ (l : list Z) : Z := fold_right Z.add 0 l.

(** The [i]-th point of the track that a list of deltas describes: the sum
    of the deltas up to and including the [i]-th, divided by 1e5. *)
Definition pointAt (ds : list (Z * Z)) (i : nat) : Coordinate :=
  mkCoordinate (div1e5 (sumZ (map fst (firstn (S i) ds))))
               (div1e5 (sumZ (map snd (firstn (S i) ds)))).

(** The same, with running accumulators. *)
Fixpoint track (lat lng : Z) (ds : list (Z * Z)) : list Coordinate :=
  match ds with
  | [] => []
  | (dlat, dlng) :: rest =>
      mkCoordinate (div1e5 (lat + dlat)) (div1e5 (lng + dlng))
        :: track (lat + dlat) (lng + dlng) rest
  end.

End Polyline.

(* ===================================================================== *)
(** ** Data shapes *)
(* ===================================================================== *)

(** What JavaScript calls truthy, for the values the code tests. *)
Definition truthyString (s : string) : bool := negb (String.eqb s "").

Definition truthyOptString (o : option string) : bool :=
  match o with
  | Some s => truthyString s
  | None => false
  end.

(** The activity as the upstream provider sends it. *)
Module Strava.

Record RawMap : Type := mkRawMap {
  summary_polyline : option string;
  polyline : option string
}.

Record RawActivity : Type := mkRawActivity {
  id : Z;
  name : string;
  type : string;
  distance : Q;                      (* meters *)
  moving_time : Z;                   (* seconds *)
  workout_type : option Z;
  trainer : bool;
  manual : bool;
  commute : bool;
  start_latlng : option (list Q);    (* [None]: null or absent *)
  map : option RawMap;
  total_elevation_gain : option Q;
  average_speed : option Q;
  start_date : option string
}.

End Strava.

(** The activity as the service builds and stores it.  [type] is [None] when
    [mapStravaType] gave [null]; the optional fields are absent on records
    built by the list view. *)
Module Item.

Record Activity : Type := mkActivity {
  id : Z;
  athlete_id : option string;
  name : string;
  type : option string;
  distance : string;
  time : string;
  country : string;
  isRace : bool;
  coordinates : list Polyline.Coordinate;
  elevation_gain : option Q;
  average_speed : option Q;
  start_date : option string;
  stored_at : option Z
}.

(** [{ ...activity, athlete_id: athlete_id.toString() }] *)
Definition withAthleteId (athlete : string) (a : Activity) : Activity :=
  mkActivity (id a) (Some athlete) (name a) (type a) (distance a) (time a)
    (country a) (isRace a) (coordinates a) (elevation_gain a)
    (average_speed a) (start_date a) (stored_at a).

(** [{ ...activity, stored_at: new Date().toISOString() }]; the time stamp
    is kept as the clock reading. *)
Definition withStoredAt (now : Z) (a : Activity) : Activity :=
  mkActivity (id a) (athlete_id a) (name a) (type a) (distance a) (time a)
    (country a) (isRace a) (coordinates a) (elevation_gain a)
    (average_speed a) (start_date a) (Some now).

End Item.

(* ===================================================================== *)
(** ** The runtime: environment, world and the monad of asynchronous code *)
(* ===================================================================== *)

Module Runtime.

(** A thrown JavaScript error: [error.name], [error.message] and, for an
    HTTP error, [error.response.status]. *)
Record Error : Type := mkError {
  err_name : string;
  err_message : string;
  err_status : option Z
}.

Definition plainError (message : string) : Error :=
  mkError "Error" message None.

(** What an awaited call to an external service does: it resolves with
    data or it rejects. *)
Inductive Reply (A : Type) : Type :=
| Replied (data : A)
| Rejected (error : Error).
Arguments Replied {A} data.
Arguments Rejected {A} error.

(** Google Geocoding response. *)
Record AddressComponent : Type := mkAddressComponent {
  long_name : string;
  types : list string
}.
Record GeocodeResult : Type := mkGeocodeResult {
  address_components : list AddressComponent
}.
Record GoogleData : Type := mkGoogleData {
  status : string;
  results : list GeocodeResult
}.

(** Nominatim reverse-geocoding response. *)
Record NominatimAddress : Type := mkNominatimAddress {
  address_country : option string
}.
Record NominatimData : Type := mkNominatimData {
  address : option NominatimAddress
}.

(** The two rate-limited services and the table [lastApiCall]. *)
Inductive ApiName : Type := google | nominatim.

Record LastApiCall : Type := mkLastApiCall {
  last_google : Z;
  last_nominatim : Z
}.

Definition getLast (l : LastApiCall) (apiName : ApiName) : Z :=
  match apiName with
  | google => last_google l
  | nominatim => last_nominatim l
  end.

Definition setLast (l : LastApiCall) (apiName : ApiName) (t : Z)
  : LastApiCall :=
  match apiName with
  | google => mkLastApiCall t (last_nominatim l)
  | nominatim => mkLastApiCall (last_google l) t
  end.

(** Everything that is decided outside the process.  The external calls
    are numbered in the order they are issued; the [n]-th call to the
    store gets [sendOutcome n], the [n]-th HTTP request to a geocoder gets
    the [n]-th reply.  A command that the store answers has been carried out
    in full: a reply to a batch write that lists unprocessed items, which the
    code does not read, is not among the replies.  A query is answered with
    one page: of the items that match, in the order of the index,
    [queryPage] says how many fit in it. *)
Record Env : Type := mkEnv {
  sendOutcome : nat -> Reply unit;
  GOOGLE_API_KEY : option string;
  googleReply : nat -> Reply GoogleData;
  nominatimReply : nat -> Reply (option NominatimData);
  stravaPage : string -> nat -> Reply (list Strava.RawActivity);
  stravaActivity : Z -> Reply Strava.RawActivity;
  validAccessToken : string -> Reply string;
  queryPage : list Item.Activity -> nat
}.

(** What the run does to the outside, in order. *)
Inductive Event : Type :=
| Slept (ms : Z)
| GetItem (id : Z) (ok : bool)
| BatchPut (items : list Item.Activity) (ok : bool)
| BatchDelete (ids : list Z) (ok : bool)
| Query (athlete : string) (ok : bool).

(** The state the code reads and writes: the activities table (keyed by
    [id]), the clock, the rate limiter's table and the counters of the
    external calls. *)
Record World : Type := mkWorld {
  store : gmap Z Item.Activity;
  clock : Z;
  lastApiCall : LastApiCall;
  sends : nat;
  requests : nat;
  trace : list Event
}.

(** The result of running a piece of asynchronous code to its end. *)
Inductive Outcome (A : Type) : Type :=
| Ret (a : A)
| Throw (e : Error)
| OutOfFuel.
Arguments Ret {A} a.
Arguments Throw {A} e.
Arguments OutOfFuel {A}.

Definition M (A : Type) : Type := World -> Outcome A * World.

Definition ret {A} (a : A) : M A := fun w => (Ret a, w).

Definition bind {A B} (m : M A) (k : A -> M B) : M B :=
  fun w =>
    match m w with
    | (Ret a, w') => k a w'
    | (Throw e, w') => (Throw e, w')
    | (OutOfFuel, w') => (OutOfFuel, w')
    end.

Definition throw {A} (e : Error) : M A := fun w => (Throw e, w).

Definition outOfFuel {A} : M A := fun w => (OutOfFuel, w).

(** [try { m } catch (error) { handler error }] *)
Definition tryCatch {A} (m : M A) (handler : Error -> M A) : M A :=
  fun w =>
    match m w with
    | (Throw e, w') => handler e w'
    | r => r
    end.

(** A pure loop that ran out of fuel stops the computation. *)
Definition liftOption {A} (o : option A) : M A :=
  match o with
  | Some a => ret a
  | None => outOfFuel
  end.

(** [Date.now()] *)
Definition dateNow : M Z := fun w => (Ret (clock w), w).

Definition readLastApiCall : M LastApiCall :=
  fun w => (Ret (lastApiCall w), w).

(** [await new Promise((resolve) => setTimeout(resolve, ms))]: in a run
    without interleaving the timer fires when it is due. *)
Definition sleep (ms : Z) : M unit :=
  fun w => (Ret tt, mkWorld (store w) (clock w + ms) (lastApiCall w)
                      (sends w) (requests w) (trace w ++ [Slept ms])).

Definition awaitReply {A} (r : Reply A) : M A :=
  match r with
  | Replied data => ret data
  | Rejected error => throw error
  end.

End Runtime.

Declare Scope js_scope.
Delimit Scope js_scope with js.
Notation "'let*' x ':=' m 'in' k" := (Runtime.bind m (fun x => k))
  (at level 10, x name, m at level 100, k at level 200) : js_scope.
Notation "'let*' ' p ':=' m 'in' k" :=
  (Runtime.bind m (fun x => match x with p => k end))
  (at level 10, p pattern, m at level 100, k at level 200) : js_scope.

(* ===================================================================== *)
(** ** Country resolver and rate limiter (server.js) *)
(* ===================================================================== *)

Module Geo.
Import Runtime.
Local Open Scope js_scope.

(** *** [rateLimitedCall]

    The function has one suspension point, the [await] of the timer.  Its
    two halves are kept apart so that the same code serves the run without
    interleaving (here) and the interleaved runs (module [Limiter]). *)

(** Up to the [await]: the time still to wait, if any. *)
Definition remainingWait (last : LastApiCall) (apiName : ApiName)
           (minIntervalMs now : Z) : option Z :=
  let timeSinceLastCall := now - getLast last apiName in
  if timeSinceLastCall <? minIntervalMs
  then Some (minIntervalMs - timeSinceLastCall)
  else None.

(** After it: [lastApiCall[apiName] = Date.now()]. *)
Definition stampCall (apiName : ApiName) : M unit :=
  fun w => (Ret tt, mkWorld (store w) (clock w)
                      (setLast (lastApiCall w) apiName (clock w))
                      (sends w) (requests w) (trace w)).

Definition rateLimitedCall (apiName : ApiName) (minIntervalMs : Z) : M unit :=
  let* now := dateNow in
  let* last := readLastApiCall in
  let* _ := match remainingWait last apiName minIntervalMs now with
            | Some waitTime => sleep waitTime
            | None => ret tt
            end in
  stampCall apiName.

(** *** The static table *)

(** [x >= lo && x <= hi] *)
Definition between (x : JS.real) (lo hi : Q) : bool :=
  JS.geq x lo && JS.leq x hi.

Definition getCountryFromCoordinateRanges (lat lng : JS.real) : string :=
  if between lat 35.8 71.2 && between lng (-31.3) 69.1 then
    if between lat 42.3 51.1 && between lng (-5.1) 8.2 then "France"
    else if between lat 47.3 55.1 && between lng 5.9 15.0 then "Germany"
    else if between lat 49.9 60.9 && between lng (-8.2) 1.8
         then "United Kingdom"
    else if between lat 36.0 47.1 && between lng 6.6 18.5 then "Italy"
    else if between lat 35.9 43.8 && between lng (-9.5) (-6.2) then "Spain"
    else "Europe"
  else if between lat 25.1 49.4 && between lng (-125.0) (-66.9)
       then "United States"
  else if between lat 41.7 83.1 && between lng (-141.0) (-52.6) then "Canada"
  else if between lat 25.6 26.3 && between lng 50.4 50.8 then "Bahrain"
  else if between lat (-47.0) (-10.0) && between lng 113.0 154.0
       then "Australia"
  else "Other".

Section Tiers.
Variable E : Env.

(** [await axios.get(url, ...)] to a geocoder: the next reply of the
    service. *)
Definition axiosGet {A} (replies : nat -> Reply A) : M A :=
  fun w =>
    awaitReply (replies (requests w))
      (mkWorld (store w) (clock w) (lastApiCall w) (sends w)
         (S (requests w)) (trace w)).

Definition getCountryFromGoogle (lat lng : JS.real) : M string :=
  if negb (truthyOptString (GOOGLE_API_KEY E)) then
    throw (plainError "Google API key not configured")
  else
    let* _ := rateLimitedCall google 100 in
    let* data := axiosGet (googleReply E) in
    let countryComponent :=
      if String.eqb (status data) "OK"
         && (0 <? length (results data))%nat
      then match results data with
           | first :: _ =>
               find (fun component =>
                       existsb (String.eqb "country") (types component))
                    (address_components first)
           | [] => None
           end
      else None in
    match countryComponent with
    | Some component => ret (long_name component)
    | None =>
        if String.eqb (status data) "OVER_QUERY_LIMIT" then
          throw (plainError "Google API quota exceeded")
        else if String.eqb (status data) "ZERO_RESULTS" then
          throw (plainError "No country found")
        else
          throw (plainError
                   ("Google Geocoding failed: " ++ status data)%string)
    end.

Definition getCountryFromNominatim (lat lng : JS.real) : M string :=
  let* _ := rateLimitedCall nominatim 1100 in
  let* data := axiosGet (nominatimReply E) in
  match data with
  | Some d =>
      match address d with
      | Some a =>
          match address_country a with
          | Some country =>
              if truthyString country then ret country
              else throw (plainError "Nominatim: No country found")
          | None => throw (plainError "Nominatim: No country found")
          end
      | None => throw (plainError "Nominatim: No country found")
      end
  | None => throw (plainError "Nominatim: No country found")
  end.

(** One [try { const country = await tier; if (country && country !==
    "Unknown") return country; } catch (error) { warn }] block: [Some]
    is the early return, [None] falls through to the next tier. *)
Definition tryTier (tier : M string) : M (option string) :=
  tryCatch
    (let* country := tier in
     if truthyString country && negb (String.eqb country "Unknown")
     then ret (Some country)
     else ret None)
    (fun error => ret None).

(** The argument is [None] for a missing value ([null], [undefined]) and
    the list of the numbers of the array otherwise: every caller passes
    numbers.  The console output is not modelled. *)
Definition getCountryFromCoordinates
           (startLatlng : option (list JS.real))
  : M string :=
  match startLatlng with
  | None => ret "Unknown"
  | Some [lat; lng] =>
      let* found := tryTier (getCountryFromGoogle lat lng) in
      match found with
      | Some country => ret country
      | None =>
          let* found := tryTier (getCountryFromNominatim lat lng) in
          match found with
          | Some country => ret country
          | None =>
              let fallbackCountry :=
                getCountryFromCoordinateRanges lat lng in
              ret fallbackCountry
          end
      end
  | Some _ => ret "Unknown"
  end.

End Tiers.

End Geo.

(** *** Interleaved calls of [rateLimitedCall]

    The server handles requests concurrently on one thread: a call that
    awaits its timer lets other calls run.  A schedule lists what happens, in
    order: time passes, a call enters [rateLimitedCall], or the timer of a
    sleeping call fires and the call goes on. *)

Module Limiter.
Import Runtime.

Record Sleeper : Type := mkSleeper { sl_api : ApiName; sl_due : Z }.

Record Sched : Type := mkSched {
  now : Z;                            (* [Date.now()] *)
  last : LastApiCall;
  sleeping : list Sleeper;            (* calls awaiting their timer *)
  started : list (ApiName * Z)        (* requests issued, oldest first *)
}.

Inductive Action : Type :=
| Tick (dt : Z)
| Call (apiName : ApiName)
| Wake (k : nat).

(** The interval each call site passes for its tier. *)
Definition minInterval (apiName : ApiName) : Z :=
  match apiName with
  | google => 100
  | nominatim => 1100
  end.

Definition act (a : Action) (s : Sched) : option Sched :=
  match a with
  | Tick dt =>
      if 0 <=? dt
      then Some (mkSched (now s + dt) (last s) (sleeping s) (started s))
      else None
  | Call apiName =>
      match Geo.remainingWait (last s) apiName (minInterval apiName) (now s)
      with
      | Some waitTime =>
          Some (mkSched (now s) (last s)
                  (sleeping s ++ [mkSleeper apiName (now s + waitTime)])
                  (started s))
      | None =>
          Some (mkSched (now s) (setLast (last s) apiName (now s))
                  (sleeping s) (started s ++ [(apiName, now s)]))
      end
  | Wake k =>
      match nth_error (sleeping s) k with
      | Some sl =>
          if sl_due sl <=? now s
          then Some (mkSched (now s) (setLast (last s) (sl_api sl) (now s))
                       (firstn k (sleeping s) ++ skipn (S k) (sleeping s))
                       (started s ++ [(sl_api sl, now s)]))
          else None
      | None => None
      end
  end.

Fixpoint run (actions : list Action) (s : Sched) : option Sched :=
  match actions with
  | [] => Some s
  | a :: rest =>
      match act a s with
      | Some s' => run rest s'
      | None => None
      end
  end.

(** The process starts with [lastApiCall = { google: 0, nominatim: 0 }]. *)
Definition boot (t0 : Z) : Sched := mkSched t0 (mkLastApiCall 0 0) [] [].

(** The policy: a request to a tier starts no sooner than the tier's
    interval after the previous request to that tier. *)
Fixpoint spacedFrom (prev : ApiName -> option Z) (log : list (ApiName * Z))
  : bool :=
  match log with
  | [] => true
  | (apiName, t) :: rest =>
      match prev apiName with
      | Some t0 => minInterval apiName <=? t - t0
      | None => true
      end
      && spacedFrom (fun a => match a, apiName with
                              | google, google | nominatim, nominatim => Some t
                              | _, _ => prev a
                              end) rest
  end.

Definition spaced (log : list (ApiName * Z)) : bool :=
  spacedFrom (fun _ => None) log.

(** Three calls to the same tier, the last two entering while the first
    waiter is still asleep. *)
Definition overlappingCalls : list Action :=
  [Call nominatim;
   Tick 100; Call nominatim;
   Tick 100; Call nominatim;
   Tick 900; Wake 0; Wake 0].

End Limiter.

(* ===================================================================== *)
(** ** Store gateway (dynamodb.js) *)
(* ===================================================================== *)

Module Dynamo.
Import Runtime.
Local Open Scope js_scope.

(** A batch of put requests that went through: every item replaces the
    item stored under its [id], in the order of the batch. *)
Definition putAll (items : list Item.Activity) (st : gmap Z Item.Activity)
  : gmap Z Item.Activity :=
  fold_left (fun m a => <[Item.id a := a]> m) items st.

Definition deleteAll (ids : list Z) (st : gmap Z Item.Activity)
  : gmap Z Item.Activity :=
  fold_left (fun m k => delete k m) ids st.

(** The items of an athlete, in the order of the index [athlete-index]. *)
Definition ownedBy (athlete : string) (a : Item.Activity) : bool :=
  match Item.athlete_id a with
  | Some s => String.eqb s athlete
  | None => false
  end.

Definition itemsOf (athlete : string) (st : gmap Z Item.Activity)
  : list Item.Activity :=
  List.filter (ownedBy athlete) (snd <$> map_to_list st).

(** The page that answers a query for the items of an athlete: the first
    items of the index that fit.  The code sends one query and does not ask
    for the pages after it.  The size of a page is a limit on what the store
    reads, before it filters or counts, so that a query with a filter and a
    query for the count alone get the same page. *)
Definition firstPage (E : Env) (athlete : string)
           (st : gmap Z Item.Activity) : list Item.Activity :=
  firstn (queryPage E (itemsOf athlete st)) (itemsOf athlete st).

Definition batchSize : nat := 25.
Definition maxRetries : nat := 3.

(** [activities.slice(i, j)] for [i <= j] *)
Definition slice {A} (i j : nat) (l : list A) : list A :=
  firstn (j - i) (skipn i l).

(** [for (let i = 0; i < activities.length; i += batchSize)
       batches.push(activities.slice(i, i + batchSize))] *)
Fixpoint sliceLoop {A} (fuel i : nat) (activities : list A)
         (batches : list (list A)) : option (list (list A)) :=
  match fuel with
  | O => None
  | S fuel' =>
      if (i <? length activities)%nat then
        sliceLoop fuel' (i + batchSize)%nat activities
          (batches ++ [slice i (i + batchSize) activities])
      else Some batches
  end.

Definition makeBatches {A} (activities : list A) : option (list (list A)) :=
  sliceLoop (S (length activities)) 0 activities [].

Definition isThroughputExceeded (error : Error) : bool :=
  String.eqb (err_name error) "ProvisionedThroughputExceededException".

Section Gateway.
Variable E : Env.

(** [await dynamodb.send(command)] for the three kinds of command the
    activities table gets.  A rejected command changes nothing. *)

Definition sendBatchWrite (items : list Item.Activity) : M unit :=
  fun w =>
    match sendOutcome E (sends w) with
    | Replied _ =>
        (Ret tt, mkWorld (putAll items (store w)) (clock w)
                   (lastApiCall w) (S (sends w)) (requests w)
                   (trace w ++ [BatchPut items true]))
    | Rejected error =>
        (Throw error, mkWorld (store w) (clock w) (lastApiCall w)
                        (S (sends w)) (requests w)
                        (trace w ++ [BatchPut items false]))
    end.

Definition sendBatchDelete (ids : list Z) : M unit :=
  fun w =>
    match sendOutcome E (sends w) with
    | Replied _ =>
        (Ret tt, mkWorld (deleteAll ids (store w)) (clock w)
                   (lastApiCall w) (S (sends w)) (requests w)
                   (trace w ++ [BatchDelete ids true]))
    | Rejected error =>
        (Throw error, mkWorld (store w) (clock w) (lastApiCall w)
                        (S (sends w)) (requests w)
                        (trace w ++ [BatchDelete ids false]))
    end.

Definition sendGet (id : Z) : M (option Item.Activity) :=
  fun w =>
    match sendOutcome E (sends w) with
    | Replied _ =>
        (Ret (store w !! id), mkWorld (store w) (clock w) (lastApiCall w)
                                (S (sends w)) (requests w)
                                (trace w ++ [GetItem id true]))
    | Rejected error =>
        (Throw error, mkWorld (store w) (clock w) (lastApiCall w)
                        (S (sends w)) (requests w)
                        (trace w ++ [GetItem id false]))
    end.

Definition sendQuery (athlete : string) : M (list Item.Activity) :=
  fun w =>
    match sendOutcome E (sends w) with
    | Replied _ =>
        (Ret (firstPage E athlete (store w)),
         mkWorld (store w) (clock w) (lastApiCall w) (S (sends w))
           (requests w) (trace w ++ [Query athlete true]))
    | Rejected error =>
        (Throw error, mkWorld (store w) (clock w) (lastApiCall w)
                        (S (sends w)) (requests w)
                        (trace w ++ [Query athlete false]))
    end.

(** The [while (retryCount <= maxRetries)] loop of one batch.  It gives
    back the new [totalStored]. *)
Fixpoint sendWithRetry (fuel : nat) (command : list Item.Activity)
         (batchLength activitiesLength : nat)
         (retryCount totalStored : nat) : M nat :=
  match fuel with
  | O => outOfFuel
  | S fuel' =>
      if (retryCount <=? maxRetries)%nat then
        let* sent :=
          tryCatch (let* _ := sendBatchWrite command in ret None)
                   (fun error => ret (Some error)) in
        match sent with
        | None =>
            let totalStored := (totalStored + batchLength)%nat in
            let delayMs :=
              if (500 <? activitiesLength)%nat then 1000 else 500 in
            let* _ := sleep delayMs in
            ret totalStored
        | Some error =>
            if isThroughputExceeded error
               && (retryCount <? maxRetries)%nat
            then
              let retryCount := S retryCount in
              let backoffDelay := 2 ^ Z.of_nat retryCount * 1000 in
              let* _ := sleep backoffDelay in
              sendWithRetry fuel' command batchLength activitiesLength
                retryCount totalStored
            else throw error
        end
      else ret totalStored
  end.

(** The [for (let i = 0; i < batches.length; i++)] loop. *)
Fixpoint storeBatches (batches : list (list Item.Activity))
         (activitiesLength totalStored : nat) : M nat :=
  match batches with
  | [] => ret totalStored
  | batch :: rest =>
      let* now := dateNow in
      let command := List.map (Item.withStoredAt now) batch in
      let* totalStored :=
        sendWithRetry (S maxRetries) command (length batch)
          activitiesLength 0 totalStored in
      storeBatches rest activitiesLength totalStored
  end.

Definition storeActivities (activities : list Item.Activity) : M nat :=
  let* batches := liftOption (makeBatches activities) in
  storeBatches batches (length activities) 0.

Record Filters : Type := mkFilters {
  activity_type : option string;
  race_filter : option string
}.

Definition noFilters : Filters := mkFilters None None.

(** A filter is applied when it is given, not empty and not ["all"]. *)
Definition activeFilter (f : option string) : option string :=
  match f with
  | Some s => if truthyString s && negb (String.eqb s "all")
              then Some s else None
  | None => None
  end.

Definition passesFilters (filters : Filters) (a : Item.Activity) : bool :=
  match activeFilter (activity_type filters) with
  | Some t => match Item.type a with
              | Some t' => String.eqb t' t
              | None => false
              end
  | None => true
  end
  && match activeFilter (race_filter filters) with
     | Some r => Bool.eqb (Item.isRace a) (String.eqb r "race")
     | None => true
     end.

Definition getActivities (athleteId : string) (filters : Filters)
  : M (list Item.Activity) :=
  tryCatch
    (let* items := sendQuery athleteId in
     ret (List.filter (passesFilters filters) items))
    (fun error => throw error).

Definition getActivity (activityId : Z) : M (option Item.Activity) :=
  tryCatch (sendGet activityId) (fun error => throw error).

Definition activityExists (activityId : Z) : M bool :=
  tryCatch
    (let* item := sendGet activityId in
     ret (match item with Some _ => true | None => false end))
    (fun error => ret false).

Definition getActivityCount (athleteId : string) : M nat :=
  tryCatch
    (let* items := sendQuery athleteId in ret (length items))
    (fun error => ret 0%nat).

(** The [for (const batch of batches)] loop of [deleteAllActivities]. *)
Fixpoint deleteBatches (batches : list (list Item.Activity))
         (totalDeleted : nat) : M nat :=
  match batches with
  | [] => ret totalDeleted
  | batch :: rest =>
      let* _ := tryCatch (sendBatchDelete (List.map Item.id batch))
                         (fun error => throw error) in
      deleteBatches rest (totalDeleted + length batch)%nat
  end.

Definition deleteAllActivities (athleteId : string) : M nat :=
  let* activities := getActivities athleteId noFilters in
  if (length activities =? 0)%nat then ret 0%nat
  else
    let* batches := liftOption (makeBatches activities) in
    deleteBatches batches 0.

End Gateway.

End Dynamo.

(* ===================================================================== *)
(** ** Sync pipeline and detail handler (server.js) *)
(* ===================================================================== *)

Module Server.
Import Runtime.
Local Open Scope js_scope.

(** *** Pure helpers *)

(** [typeMap[stravaType] || null], for the type tags the provider sends.
    The name of a property that every object inherits, such as
    ["constructor"], is not one of them: for such a name the lookup gives
    the inherited value, which is neither a tag nor [null]. *)
Definition mapStravaType (stravaType : string) : option string :=
  if String.eqb stravaType "Run" then Some "run"%string
  else if String.eqb stravaType "Ride" then Some "ride"%string
  else if String.eqb stravaType "VirtualRide" then None
  else if String.eqb stravaType "VirtualRun" then None
  else if String.eqb stravaType "Swim" then Some "swim"%string
  else if String.eqb stravaType "Walk" then Some "run"%string
  else if String.eqb stravaType "Hike" then Some "run"%string
  else if String.eqb stravaType "TrailRun" then Some "run"%string
  else None.

(** [["run", "ride", "swim"].includes(activityType)] *)
Definition isSupportedType (activityType : option string) : bool :=
  match activityType with
  | Some t => String.eqb t "run" || String.eqb t "ride" || String.eqb t "swim"
  | None => false
  end.

(** [n.toString().padStart(2, "0")] *)
Definition pad2 (n : Z) : string :=
  let s := pretty n in
  if (String.length s <? 2)%nat then ("0" ++ s)%string else s.

Definition formatDuration (seconds : Z) : string :=
  let hours := seconds / 3600 in
  let minutes := Z.rem seconds 3600 / 60 in
  let secs := Z.rem seconds 60 in
  if 0 <? hours
  then (pad2 hours ++ ":" ++ pad2 minutes ++ ":" ++ pad2 secs)%string
  else (pad2 minutes ++ ":" ++ pad2 secs)%string.

(** [x.toFixed(1)], on the rational the double [x] stands for: the
    multiple of 0.1 nearest to it, the larger one of two.  This is the
    result for a magnitude below 1e21; from there on JavaScript switches to
    the exponent notation, which is not modelled. *)
Definition toFixed1 (x : Q) : string :=
  let negative := negb (Qle_bool 0 x) in
  let n := Qfloor (Qabs x * 10 + (1 # 2))%Q in
  ((if negative then "-" else "") ++ pretty (n / 10) ++ "."
     ++ pretty (n mod 10))%string.

(** [s.toLowerCase()], on the letters A to Z. *)
Definition lowerAscii (c : ascii) : ascii :=
  let n := nat_of_ascii c in
  if ((65 <=? n) && (n <=? 90))%nat then ascii_of_nat (n + 32) else c.

Fixpoint toLowerCase (s : string) : string :=
  match s with
  | EmptyString => EmptyString
  | String c rest => String (lowerAscii c) (toLowerCase rest)
  end.

(** [s.includes(sub)] *)
Fixpoint includes (s sub : string) : bool :=
  if String.prefix sub s then true
  else match s with
       | EmptyString => false
       | String _ rest => includes rest sub
       end.

Definition nameHas (name sub : string) : bool :=
  includes (toLowerCase name) sub.

Definition isRaceOf (activity : Strava.RawActivity) : bool :=
  match Strava.workout_type activity with
  | Some 1 => true
  | _ => false
  end
  || nameHas (Strava.name activity) "race".

(** The "comprehensive filtering" of the list view. *)
Definition skippedAsVirtual (activity : Strava.RawActivity) : bool :=
  Strava.trainer activity
  || Strava.manual activity
  || (negb (Strava.commute activity) && Strava.trainer activity)
  || String.eqb (Strava.type activity) "VirtualRide"
  || String.eqb (Strava.type activity) "VirtualRun"
  || nameHas (Strava.name activity) "zwift"
  || nameHas (Strava.name activity) "peloton"
  || nameHas (Strava.name activity) "virtual"
  || nameHas (Strava.name activity) "indoor"
  || nameHas (Strava.name activity) "trainer"
  || nameHas (Strava.name activity) "treadmill"
  || match Strava.start_latlng activity with
     | None => true
     | Some l => (length l =? 0)%nat
     end.

(** [!activity.map || (!activity.map.summary_polyline &&
    !activity.map.polyline)] *)
Definition lacksPolylines (activity : Strava.RawActivity) : bool :=
  match Strava.map activity with
  | None => true
  | Some m => negb (truthyOptString (Strava.summary_polyline m))
              && negb (truthyOptString (Strava.polyline m))
  end.

(** [activity.map?.summary_polyline], when truthy. *)
Definition summaryPolylineOf (activity : Strava.RawActivity)
  : option string :=
  match Strava.map activity with
  | Some m => if truthyOptString (Strava.summary_polyline m)
              then Strava.summary_polyline m else None
  | None => None
  end.

(** [stravaActivity.map?.polyline], when truthy. *)
Definition fullPolylineOf (activity : Strava.RawActivity) : option string :=
  match Strava.map activity with
  | Some m => if truthyOptString (Strava.polyline m)
              then Strava.polyline m else None
  | None => None
  end.

(** The "virtual activity checks" of the detail view. *)
Definition rejectedAsVirtual (stravaActivity : Strava.RawActivity) : bool :=
  Strava.trainer stravaActivity
  || Strava.manual stravaActivity
  || String.eqb (Strava.type stravaActivity) "VirtualRide"
  || String.eqb (Strava.type stravaActivity) "VirtualRun"
  || match Strava.start_latlng stravaActivity with
     | None => true
     | Some _ => false
     end
  || match fullPolylineOf stravaActivity with
     | None => true
     | Some _ => false
     end.

(** All the coordinates of the full polyline. *)
Definition detailCoordinates (stravaActivity : Strava.RawActivity)
  : list Polyline.Coordinate :=
  match fullPolylineOf stravaActivity with
  | Some encoded =>
      match Polyline.decodePolyline (JS.codeUnits encoded) with
      | Some coordinates => coordinates
      | None => []
      end
  | None => []
  end.

(** The detail view answers "not found" for these. *)
Definition rejectedDetail (stravaActivity : Strava.RawActivity) : bool :=
  rejectedAsVirtual stravaActivity
  || (length (detailCoordinates stravaActivity) <? 3)%nat.

(** What [performBackgroundSync] logs when it completes. *)
Record SyncReport : Type := mkSyncReport {
  storedCount : nat;
  skippedCount : nat;
  totalActivities : nat
}.

Record DetailRequest : Type := mkDetailRequest {
  params_id : Z;
  query_athlete_id : option string
}.

Inductive Response : Type :=
| Json (activity : Item.Activity)
| Status (code : Z) (error : string).

Section Handlers.
Variable E : Env.

(** The body of the [for (const activity of pageActivities)] loop:
    [None] is a [continue]. *)
Definition processActivity (activity : Strava.RawActivity)
  : M (option Item.Activity) :=
  if skippedAsVirtual activity then ret None
  else
    let activityType := mapStravaType (Strava.type activity) in
    if negb (isSupportedType activityType) then ret None
    else if lacksPolylines activity then ret None
    else
      let* coordinates :=
        match summaryPolylineOf activity with
        | Some encoded =>
            liftOption (Polyline.decodePolyline (JS.codeUnits encoded))
        | None => ret []
        end in
      if (length coordinates <? 3)%nat then ret None
      else
        match coordinates with
        | [] => throw (plainError "TypeError")
        | firstCoordinate :: _ =>
            let countryDetectionPoint :=
              [JS.Finite (Polyline.lat firstCoordinate);
               JS.Finite (Polyline.lng firstCoordinate)] in
            let* country :=
              Geo.getCountryFromCoordinates E
                (Some countryDetectionPoint) in
            ret (Some
                   (Item.mkActivity
                      (Strava.id activity)
                      None
                      (Strava.name activity)
                      activityType
                      (toFixed1 (JS.divide (Strava.distance activity) 1000))
                      (formatDuration (Strava.moving_time activity))
                      country
                      (isRaceOf activity)
                      (firstn 20 coordinates)
                      None None None None))
        end.

Fixpoint processPage (pageActivities : list Strava.RawActivity)
         (activities : list Item.Activity) : M (list Item.Activity) :=
  match pageActivities with
  | [] => ret activities
  | activity :: rest =>
      let* processed := processActivity activity in
      match processed with
      | Some processedActivity =>
          processPage rest (activities ++ [processedActivity])
      | None => processPage rest activities
      end
  end.

Definition perPage : nat := 50.

(** The [while (true)] loop over the pages. *)
Fixpoint fetchLoop (fuel : nat) (accessToken : string) (page : nat)
         (activities : list Item.Activity) : M (list Item.Activity) :=
  match fuel with
  | O => outOfFuel
  | S fuel' =>
      let* pageActivities := awaitReply (stravaPage E accessToken page) in
      if (length pageActivities =? 0)%nat then ret activities
      else
        let* activities := processPage pageActivities activities in
        let page := S page in
        let* _ := sleep 200 in
        fetchLoop fuel' accessToken page activities
  end.

Definition fetchStravaActivities (fuel : nat) (accessToken : string)
  : M (list Item.Activity) :=
  fetchLoop fuel accessToken 1 [].

(** The [for (const activity of newActivities)] loop of the incremental
    mode. *)
Fixpoint checkDuplicates (athlete_id : string)
         (newActivities newActivitiesToStore : list Item.Activity)
         (skippedCount : nat) : M (list Item.Activity * nat) :=
  match newActivities with
  | [] => ret (newActivitiesToStore, skippedCount)
  | activity :: rest =>
      let* exists_ := Dynamo.activityExists E (Item.id activity) in
      if negb exists_ then
        checkDuplicates athlete_id rest
          (newActivitiesToStore ++ [Item.withAthleteId athlete_id activity])
          skippedCount
      else
        checkDuplicates athlete_id rest newActivitiesToStore
          (S skippedCount)
  end.

(** The function returns nothing; the model gives back what it logs, and
    [None] when the run failed. *)
Definition performBackgroundSync (fuel : nat) (athlete_id : string)
           (accessToken : string) (full_sync : bool)
  : M (option SyncReport) :=
  tryCatch
    (let* newActivities := fetchStravaActivities fuel accessToken in
     let* '(storedCount, skippedCount) :=
       if full_sync then
         let activitiesWithAthleteId :=
           List.map (Item.withAthleteId athlete_id) newActivities in
         let* storedCount :=
           Dynamo.storeActivities E activitiesWithAthleteId in
         ret (storedCount, 0%nat)
       else
         let* '(newActivitiesToStore, skippedCount) :=
           checkDuplicates athlete_id newActivities [] 0 in
         if (0 <? length newActivitiesToStore)%nat then
           let* storedCount :=
             Dynamo.storeActivities E newActivitiesToStore in
           ret (storedCount, skippedCount)
         else ret (0%nat, skippedCount) in
     let* totalActivities := Dynamo.getActivityCount E athlete_id in
     ret (Some (mkSyncReport storedCount skippedCount totalActivities)))
    (fun error => ret None).

(** [app.get("/activities/:id")] *)
Definition getActivityDetails (req : DetailRequest) : M Response :=
  match query_athlete_id req with
  | None => ret (Status 400 "athlete_id is required")
  | Some athlete_id =>
      if negb (truthyString athlete_id)
      then ret (Status 400 "athlete_id is required")
      else
        tryCatch
          (let* activity := Dynamo.getActivity E (params_id req) in
           let detailed :=
             match activity with
             | Some stored =>
                 if (20 <? length (Item.coordinates stored))%nat
                 then Some stored else None
             | None => None
             end in
           match detailed with
           | Some stored => ret (Json stored)
           | None =>
               let* accessToken :=
                 awaitReply (validAccessToken E athlete_id) in
               let* stravaActivity :=
                 awaitReply (stravaActivity E (params_id req)) in
               if rejectedAsVirtual stravaActivity then
                 ret (Status 404 "Activity not found or is virtual")
               else
                 let* coordinates :=
                   match fullPolylineOf stravaActivity with
                   | Some encoded =>
                       liftOption
                         (Polyline.decodePolyline (JS.codeUnits encoded))
                   | None => ret []
                   end in
                 if (length coordinates <? 3)%nat then
                   ret (Status 404 "Activity has insufficient GPS data")
                 else
                   match coordinates with
                   | [] => throw (plainError "TypeError")
                   | firstCoordinate :: _ =>
                       let countryDetectionPoint :=
                         [JS.Finite (Polyline.lat firstCoordinate);
                          JS.Finite (Polyline.lng firstCoordinate)] in
                       let* country :=
                         Geo.getCountryFromCoordinates E
                           (Some countryDetectionPoint) in
                       let detailedActivity :=
                         Item.mkActivity
                           (Strava.id stravaActivity)
                           (Some athlete_id)
                           (Strava.name stravaActivity)
                           (mapStravaType (Strava.type stravaActivity))
                           (toFixed1
                              (JS.divide (Strava.distance stravaActivity)
                                 1000))
                           (formatDuration
                              (Strava.moving_time stravaActivity))
                           country
                           (isRaceOf stravaActivity)
                           coordinates
                           (Strava.total_elevation_gain stravaActivity)
                           (Strava.average_speed stravaActivity)
                           (Strava.start_date stravaActivity)
                           None in
                       let* _ :=
                         tryCatch
                           (let* _ := Dynamo.storeActivities E
                                        [detailedActivity] in
                            ret tt)
                           (fun storeError => ret tt) in
                       ret (Json detailedActivity)
                   end
           end)
          (fun error =>
             match err_status error with
             | Some 401 => ret (Status 401 "Strava token expired")
             | _ => ret (Status 500 "Failed to fetch activity details")
             end)
  end.

End Handlers.

End Server.

(* ===================================================================== *)
(** ** Observing a run *)
(* ===================================================================== *)

(** What a run did is read off the events it added to the trace. *)
Module Observe.
Import Runtime.

Definition writtenBatches (evs : list Event) : list (list Item.Activity) :=
  flat_map (fun ev => match ev with
                      | BatchPut items true => [items]
                      | _ => []
                      end) evs.

Definition writtenItems (evs : list Event) : list Item.Activity :=
  concat (writtenBatches evs).

Definition putBatches (evs : list Event) : list (list Item.Activity) :=
  flat_map (fun ev => match ev with
                      | BatchPut items _ => [items]
                      | _ => []
                      end) evs.

Definition Ext (allowed : Event -> Prop) (w w' : World) : Prop :=
  exists evs,
    trace w' = trace w ++ evs
    /\ Forall allowed evs
    /\ store w' = Dynamo.putAll (writtenItems evs) (store w).

Definition confined {A} (allowed : Event -> Prop) (m : M A) : Prop :=
  forall w r w', m w = (r, w') -> Ext allowed w w'.

(** The identifiers looked up by a point lookup, in order. *)
Definition lookedUp (evs : list Event) : list Z :=
  flat_map (fun ev => match ev with
                      | GetItem id _ => [id]
                      | _ => []
                      end) evs.

Definition isSlept (ev : Event) : Prop := exists ms, ev = Slept ms.

Definition isGet (ev : Event) : Prop := exists id ok, ev = GetItem id ok.

Definition isQuery (ev : Event) : Prop :=
  exists athlete ok, ev = Query athlete ok.

(** The type tag is one of ["run"], ["ride"], ["swim"]. *)
Definition supported (a : Item.Activity) : Prop :=
  Server.isSupportedType (Item.type a) = true.

Definition sendsCommand (command : list Item.Activity) (ev : Event) : Prop :=
  isSlept ev \/ exists ok, ev = BatchPut command ok.

(** A stored item is a fetched item with its time stamp. *)
Definition stampOf (x a : Item.Activity) : Prop :=
  exists t, x = Item.withStoredAt t a.

Definition stampedBatch (sent batch : list Item.Activity) : Prop :=
  exists t, sent = List.map (Item.withStoredAt t) batch.

Definition putsFrom (activities : list Item.Activity) (ev : Event) : Prop :=
  isSlept ev
  \/ exists items ok,
      ev = BatchPut items ok
      /\ Forall (fun x => exists a, In a activities /\ stampOf x a) items.

End Observe.

(* ===================================================================== *)
(** ** Concrete inputs used in the examples *)
(* ===================================================================== *)

Module Samples.
Import Runtime.

Definition throughputError : Error :=
  mkError "ProvisionedThroughputExceededException" "Rate exceeded" None.

Definition morningRun : Item.Activity :=
  Item.mkActivity 1 (Some "42"%string) "Morning Run" (Some "run"%string)
    "12.3" "01:02:05" "United States" false
    [Polyline.mkCoordinate 38.5 (-120.2);
     Polyline.mkCoordinate 40.7 (-120.95);
     Polyline.mkCoordinate 43.252 (-126.453)]
    None None None None.

Definition world0 : World :=
  mkWorld ∅ 1700000000000 (mkLastApiCall 0 0) 0 0 [].

(** A store that rejects the first [n] commands for throughput and accepts
    the others; no geocoder, no upstream data; a page holds every item
    of a query. *)
Definition throttledEnv (n : nat) : Env :=
  mkEnv (fun k => if (k <? n)%nat then Rejected throughputError
                  else Replied tt)
    None
    (fun _ => Rejected (plainError "timeout"))
    (fun _ => Rejected (plainError "timeout"))
    (fun _ _ => Replied [])
    (fun _ => Rejected (plainError "Not Found"))
    (fun _ => Replied "token"%string)
    (fun items => length items).

Definition reference : string := "_p~iF~ps|U_ulLnnqC_mqNvxq`@".

(** The 5-bit groups of the reference string, pair by pair. *)
Definition referencePairs : list (list Z * list Z) :=
  [([0; 17; 31; 10; 7], [31; 17; 20; 29; 22]);
   ([0; 22; 13; 13], [15; 15; 18; 4]);
   ([0; 14; 18; 15], [23; 25; 18; 1; 1])].

(** An outdoor activity with a three-point track, as upstream sends it. *)
Definition rawActivity (id : Z) (type : string) : Strava.RawActivity :=
  Strava.mkRawActivity id "Morning outing" type 12345 3725 None
    false false false
    (Some [38.5%Q; (-120.2)%Q])
    (Some (Strava.mkRawMap (Some reference) (Some reference)))
    None None None.

(** Upstream lists one run on its first page and nothing after; a single
    activity fetched by identifier is a kayaking trip.  The geocoders do
    not answer.  The store answers as [outcomes] says, and a page holds
    every item of a query. *)
Definition upstreamEnv (outcomes : nat -> Reply unit) : Env :=
  mkEnv outcomes
    None
    (fun _ => Rejected (plainError "timeout"))
    (fun _ => Rejected (plainError "timeout"))
    (fun _ page => if (page =? 1)%nat then Replied [rawActivity 1 "Run"]
                   else Replied [])
    (fun id => Replied (rawActivity id "Kayaking"))
    (fun _ => Replied "token"%string)
    (fun items => length items).

Definition accepted : nat -> Reply unit := fun _ => Replied tt.

Definition firstRejected : nat -> Reply unit :=
  fun n => if (n =? 0)%nat then Rejected (plainError "timeout")
           else Replied tt.

Definition secondRejected : nat -> Reply unit :=
  fun n => if (n =? 1)%nat then Rejected (plainError "timeout")
           else Replied tt.

Definition allRejected : nat -> Reply unit :=
  fun _ => Rejected (plainError "ServiceUnavailable").

(** A copy of activity 1 stored by an earlier run. *)
Definition staleRun : Item.Activity :=
  Item.withStoredAt 1600000000000 morningRun.

Definition worldWithRun : World :=
  mkWorld {[ 1 := staleRun ]} 1700000000000 (mkLastApiCall 0 0) 0 0 [].

(** A record with a detailed track of 21 points. *)
Definition detailedRun : Item.Activity :=
  Item.mkActivity 5 (Some "42"%string) "Long Run" (Some "run"%string)
    "21.1" "01:45:00" "United States" false
    (repeat (Polyline.mkCoordinate 38.5 (-120.2)) 21)
    None None None (Some 1600000000000).

Definition worldWithDetail : World :=
  mkWorld {[ 5 := detailedRun ]} 1700000000000 (mkLastApiCall 0 0) 0 0 [].

End Samples.

(* ===================================================================== *)
(** ** Claims of the specification that the code does not satisfy as worded *)
(* ===================================================================== *)

Module AsStated.
Import Runtime Observe.

(** The claim of C2 as the spec words it: three throughput failures in a row
    on a batch make [storeActivities] fail. *)
Definition AbortsAfterThreeFailures : Prop :=
  forall (E : Env) (activities : list Item.Activity) (w : World) (e : Error),
    activities <> [] ->
    Dynamo.isThroughputExceeded e = true ->
    (forall k, (k < 3)%nat -> sendOutcome E (sends w + k) = Rejected e) ->
    exists w', Dynamo.storeActivities E activities w = (Throw e, w').


(** The claim of C1, incremental mode: nothing that is in the store when
    the run starts is written by the run. *)
Definition IncrementalNeverRewrites : Prop :=
  forall (E : Env) fuel athlete_id accessToken (w : World) fetched w1 r w',
    Server.fetchStravaActivities E fuel accessToken w = (Ret fetched, w1) ->
    Server.performBackgroundSync E fuel athlete_id accessToken false w
    = (r, w') ->
    exists evs,
      trace w' = trace w ++ evs
      /\ forall x, In x (writtenItems evs) -> store w !! Item.id x = None.

(** The claim of C1, full mode: every fetched record is in the store after
    the run. *)
Definition FullWritesEverything : Prop :=
  forall (E : Env) fuel athlete_id accessToken (w : World) fetched w1 r w',
    Server.fetchStravaActivities E fuel accessToken w = (Ret fetched, w1) ->
    Server.performBackgroundSync E fuel athlete_id accessToken true w
    = (r, w') ->
    forall a, In a fetched ->
      exists x a',
        store w' !! Item.id a = Some x
        /\ In a' fetched
        /\ stampOf x (Item.withAthleteId athlete_id a').


(** The claim of C6, first half: a stored record with more than 20
    coordinates is what every request for its identifier gets. *)
Definition DetailServedFromStore : Prop :=
  forall (E : Env) (req : Server.DetailRequest) (w : World) stored,
    store w !! Server.params_id req = Some stored ->
    (20 < length (Item.coordinates stored))%nat ->
    exists w',
      Server.getActivityDetails E req w = (Ret (Server.Json stored), w')
      /\ store w' = store w.

(** The claim of C6, second half: an activity that is fetched and not
    rejected is stored and returned. *)
Definition DetailFetchedIsStored : Prop :=
  forall (E : Env) (req : Server.DetailRequest) athlete_id (w : World)
         accessToken raw,
    Server.query_athlete_id req = Some athlete_id ->
    truthyString athlete_id = true ->
    store w !! Server.params_id req = None ->
    validAccessToken E athlete_id = Replied accessToken ->
    stravaActivity E (Server.params_id req) = Replied raw ->
    Server.rejectedDetail raw = false ->
    exists d w' t,
      Server.getActivityDetails E req w = (Ret (Server.Json d), w')
      /\ store w' !! Strava.id raw = Some (Item.withStoredAt t d).

End AsStated.

(* ===================================================================== *)
(** * The rest of the service

    Further modules, on top of the ones above:
    - [Intake], [Store], [Meter], [Serial]: what the list view keeps, the
      activities table as a whole, the cost of a geocoder request, and calls
      of the rate limiter that do not interleave;
    - [Token], [AuthItem], [Auth], [Tokens]: the auth table and the token
      gateway of [dynamodb.js] ([getValidAccessToken], ...);
    - [Routes]: the other routes of [server.js];
    - [Cases]: more concrete inputs. *)
(* ===================================================================== *)

(* ===================================================================== *)
(** ** What the list view keeps of an upstream activity *)
(* ===================================================================== *)

Module Intake.

(** The coordinates of the summary polyline. *)
Definition listCoordinates (activity : Strava.RawActivity)
  : list Polyline.Coordinate :=
  match Server.summaryPolylineOf activity with
  | Some encoded =>
      match Polyline.decodePolyline (JS.codeUnits encoded) with
      | Some coordinates => coordinates
      | None => []
      end
  | None => []
  end.

(** The upstream activities that no [continue] of the loop body drops. *)
Definition listed (activity : Strava.RawActivity) : bool :=
  negb (Server.skippedAsVirtual activity)
  && Server.isSupportedType (Server.mapStravaType (Strava.type activity))
  && negb (Server.lacksPolylines activity)
  && negb (length (listCoordinates activity) <? 3)%nat.

(** The names of the properties that an object literal inherits from
    [Object.prototype]: for these, and for no other string outside the table,
    [typeMap[stravaType]] is not [undefined]. *)
Definition inheritedProperty (name : string) : bool :=
  existsb (String.eqb name)
    ["constructor"; "__defineGetter__"; "__defineSetter__"; "hasOwnProperty";
     "__lookupGetter__"; "__lookupSetter__"; "isPrototypeOf";
     "propertyIsEnumerable"; "toString"; "valueOf"; "__proto__";
     "toLocaleString"]%string.

(** The record the loop body pushes for an activity, up to the country.
    The distance is the one of the code as long as the kilometres stay below
    1e21, where [toFixed] changes its notation. *)
Definition normalizes (a : Item.Activity) (activity : Strava.RawActivity)
  : Prop :=
  Item.id a = Strava.id activity
  /\ Item.athlete_id a = None
  /\ Item.name a = Strava.name activity
  /\ Item.type a = Server.mapStravaType (Strava.type activity)
  /\ ((Qabs (JS.divide (Strava.distance activity) 1000)
        < inject_Z (10 ^ 21))%Q ->
      Item.distance a
      = Server.toFixed1 (JS.divide (Strava.distance activity) 1000))
  /\ Item.time a = Server.formatDuration (Strava.moving_time activity)
  /\ Item.country a <> ""%string
  /\ Item.isRace a = Server.isRaceOf activity
  /\ Item.coordinates a = firstn 20 (listCoordinates activity)
  /\ Item.stored_at a = None.

(** Upstream holds the non-empty pages [pages], numbered from 1, and an
    empty page after them. *)
Definition servesPages (E : Runtime.Env) (accessToken : string)
           (pages : list (list Strava.RawActivity)) : Prop :=
  Forall (fun p => p <> []) pages
  /\ (forall k p, nth_error pages k = Some p ->
                  Runtime.stravaPage E accessToken (S k) = Runtime.Replied p)
  /\ Runtime.stravaPage E accessToken (S (length pages)) = Runtime.Replied [].

(** The identifier of a fetched record is in the table. *)
Definition known (st : gmap Z Item.Activity) (a : Item.Activity) : bool :=
  match st !! Item.id a with
  | Some _ => true
  | None => false
  end.

(** What every record of the list view satisfies. *)
Definition summary (a : Item.Activity) : Prop :=
  Server.isSupportedType (Item.type a) = true
  /\ (3 <= length (Item.coordinates a) <= 20)%nat
  /\ Item.country a <> ""%string
  /\ Item.elevation_gain a = None
  /\ Item.average_speed a = None
  /\ Item.start_date a = None.

(** What every record written by the sync pipeline satisfies. *)
Definition syncedFor (athlete_id : string) (x : Item.Activity) : Prop :=
  summary x
  /\ Item.athlete_id x = Some athlete_id
  /\ exists t, Item.stored_at x = Some t.

End Intake.

(* ===================================================================== *)
(** ** The activities table as a whole *)
(* ===================================================================== *)

Module Store.
Import Runtime.

(** Every record sits under its own [id], the key of the table. *)
Definition wellKeyed (st : gmap Z Item.Activity) : Prop :=
  forall k a, st !! k = Some a -> Item.id a = k.

(** [activities.length > 500 ? 1000 : 500] *)
Definition delayMs (activitiesLength : nat) : Z :=
  if (500 <? activitiesLength)%nat then 1000 else 500.

(** The items of the batches, each batch stamped [delay] after the one
    before it. *)
Fixpoint stamped (t delay : Z) (batches : list (list Item.Activity))
  : list Item.Activity :=
  match batches with
  | [] => []
  | batch :: rest =>
      List.map (Item.withStoredAt t) batch ++ stamped (t + delay) delay rest
  end.

(** The events of a run in which every batch goes through at once. *)
Fixpoint timeline (t delay : Z) (batches : list (list Item.Activity))
  : list Event :=
  match batches with
  | [] => []
  | batch :: rest =>
      BatchPut (List.map (Item.withStoredAt t) batch) true :: Slept delay
        :: timeline (t + delay) delay rest
  end.

(** What is left of a table when the records of an athlete are dropped. *)
Definition without (athlete : string) (st : gmap Z Item.Activity)
  : gmap Z Item.Activity :=
  filter (fun kv => Dynamo.ownedBy athlete (snd kv) = false) st.

End Store.

(* ===================================================================== *)
(** ** What a geocoder request costs *)
(* ===================================================================== *)

Module Meter.
Import Runtime.

(** The world after a call of [rateLimitedCall] that ran alone: the call
    returns at the first moment that is not before its entry and not less
    than the interval after the last stamp, and stamps that moment. *)
Definition waitedFor (apiName : ApiName) (minIntervalMs : Z) (w : World)
  : World :=
  let due := getLast (lastApiCall w) apiName + minIntervalMs in
  let t := Z.max (clock w) due in
  mkWorld (store w) t (setLast (lastApiCall w) apiName t) (sends w)
    (requests w)
    (trace w ++ if clock w <? due then [Slept (due - clock w)] else []).

(** One more HTTP request sent to a geocoder. *)
Definition requested (w : World) : World :=
  mkWorld (store w) (clock w) (lastApiCall w) (sends w) (S (requests w))
    (trace w).

(** The country component of the first result of a Google response. *)
Definition countryComponent (data : GoogleData) : option AddressComponent :=
  match results data with
  | first :: _ =>
      find (fun component =>
              existsb (String.eqb "country") (types component))
           (address_components first)
  | [] => None
  end.

(** A name that a tier may return early. *)
Definition usable (country : string) : bool :=
  truthyString country && negb (String.eqb country "Unknown").

End Meter.

(* ===================================================================== *)
(** ** Calls of [rateLimitedCall] that do not interleave *)
(* ===================================================================== *)

Module Serial.
Import Runtime.

(** One thing at a time: time passes, or a call runs from its entry to the
    stamp before anything else happens. *)
Inductive Step : Type :=
| Idle (dt : Z)
| Complete (apiName : ApiName).

(** The actions of a call that runs alone: it enters and, when it has to
    wait, its timer fires as soon as it is due. *)
Definition alone (apiName : ApiName) (s : Limiter.Sched)
  : list Limiter.Action :=
  match Geo.remainingWait (Limiter.last s) apiName
          (Limiter.minInterval apiName) (Limiter.now s) with
  | Some waitTime =>
      [Limiter.Call apiName; Limiter.Tick waitTime;
       Limiter.Wake (length (Limiter.sleeping s))]
  | None => [Limiter.Call apiName]
  end.

Fixpoint schedule (steps : list Step) (s : Limiter.Sched)
  : option (list Limiter.Action) :=
  match steps with
  | [] => Some []
  | step :: rest =>
      let actions := match step with
                     | Idle dt => [Limiter.Tick dt]
                     | Complete apiName => alone apiName s
                     end in
      match Limiter.run actions s with
      | Some s' =>
          match schedule rest s' with
          | Some more => Some (actions ++ more)
          | None => None
          end
      | None => None
      end
  end.

Definition nonnegative (step : Step) : Prop :=
  match step with
  | Idle dt => 0 <= dt
  | Complete _ => True
  end.

Definition isCall (step : Step) : bool :=
  match step with
  | Idle _ => false
  | Complete _ => true
  end.

(** The start of the last request to a tier. *)
Fixpoint lastStart (apiName : ApiName) (log : list (ApiName * Z))
  : option Z :=
  match log with
  | [] => None
  | (a, t) :: rest =>
      match lastStart apiName rest with
      | Some t' => Some t'
      | None => match a, apiName with
                | google, google | nominatim, nominatim => Some t
                | _, _ => None
                end
      end
  end.

End Serial.

(* ===================================================================== *)
(** ** Authentication tokens (dynamodb.js) and the routes (server.js) *)
(* ===================================================================== *)

(** The data of a token response of the provider, and the [tokenData] that
    [storeAuthToken] is given: the fields the code reads. *)
Module Token.

Record Athlete : Type := mkAthlete {
  ident : Z;                          (* [athlete.id] *)
  username : string
}.

Record Data : Type := mkData {
  access_token : string;
  refresh_token : string;
  expires_at : option Z;              (* seconds; [None]: absent *)
  athlete : option Athlete;
  athlete_info : option Athlete
}.

(** What is posted to the token endpoint. *)
Inductive Grant : Type :=
| AuthorizationCode (code : string)
| RefreshToken (refresh_token : string).

End Token.

(** An item of the auth table, keyed by [athlete_id]. *)
Module AuthItem.

Record t : Type := mk {
  athlete_id : string;
  access_token : string;
  refresh_token : string;
  expires_at : option Z;
  athlete_info : option Token.Athlete;
  created_at : Z;
  updated_at : Z
}.

End AuthItem.

Module Auth.
Import Runtime.

(** The provider's token endpoint beside the rest of the environment: the
    [n]-th post gets [tokenReply grant n]. *)
Record Provider : Type := mkProvider {
  base : Env;
  tokenReply : Token.Grant -> nat -> Reply Token.Data
}.

(** The world with the auth table.  The commands to both tables go through
    the same client and share the counter [sends]. *)
Record Service : Type := mkService {
  world : World;
  authTable : gmap string AuthItem.t;
  posts : nat
}.

Definition S (A : Type) : Type := Service -> Outcome A * Service.

Definition ret {A} (a : A) : S A := fun s => (Ret a, s).

Definition bind {A B} (m : S A) (k : A -> S B) : S B :=
  fun s =>
    match m s with
    | (Ret a, s') => k a s'
    | (Throw e, s') => (Throw e, s')
    | (OutOfFuel, s') => (OutOfFuel, s')
    end.

Definition throw {A} (e : Error) : S A := fun s => (Throw e, s).

Definition tryCatch {A} (m : S A) (handler : Error -> S A) : S A :=
  fun s =>
    match m s with
    | (Throw e, s') => handler e s'
    | r => r
    end.

(** Code that only uses the activities table, the clock and the
    geocoders. *)
Definition lift {A} (m : M A) : S A :=
  fun s =>
    match m (world s) with
    | (r, w') => (r, mkService w' (authTable s) (posts s))
    end.

End Auth.

Declare Scope auth_scope.
Delimit Scope auth_scope with auth.
Notation "'let*' x ':=' m 'in' k" := (Auth.bind m (fun x => k))
  (at level 10, x name, m at level 100, k at level 200) : auth_scope.

Module Tokens.
Import Runtime Auth.
Local Open Scope auth_scope.

(** One more command sent through the client. *)
Definition counted (w : World) : World :=
  mkWorld (store w) (clock w) (lastApiCall w) (Datatypes.S (sends w))
    (requests w) (trace w).

(** [truthy] for a number that may be absent. *)
Definition truthyNumber (n : option Z) : bool :=
  match n with
  | Some z => negb (z =? 0)
  | None => false
  end.

(** [expiresAt && now + 300 >= expiresAt] *)
Definition expiring (expiresAt : option Z) (now : Z) : bool :=
  match expiresAt with
  | Some z => negb (z =? 0) && (z <=? now + 300)
  | None => false
  end.

(** [!authData.expires_at || now + 300 < authData.expires_at] *)
Definition stillValid (expires_at : option Z) (now : Z) : bool :=
  negb (truthyNumber expires_at)
  || match expires_at with
     | Some z => now + 300 <? z
     | None => false
     end.

Section Gateway.
Variable E : Provider.

(** [await dynamodb.send(new PutCommand(...))] on the auth table. *)
Definition sendPut (item : AuthItem.t) : S unit :=
  fun s =>
    match sendOutcome (base E) (sends (world s)) with
    | Replied _ =>
        (Ret tt, mkService (counted (world s))
                   (<[AuthItem.athlete_id item := item]> (authTable s))
                   (posts s))
    | Rejected error =>
        (Throw error, mkService (counted (world s)) (authTable s) (posts s))
    end.

(** [await dynamodb.send(new GetCommand(...))] on the auth table. *)
Definition sendGet (athleteId : string) : S (option AuthItem.t) :=
  fun s =>
    match sendOutcome (base E) (sends (world s)) with
    | Replied _ =>
        (Ret (authTable s !! athleteId),
         mkService (counted (world s)) (authTable s) (posts s))
    | Rejected error =>
        (Throw error, mkService (counted (world s)) (authTable s) (posts s))
    end.

(** [await axios.post("https://www.strava.com/oauth/token", ...)] *)
Definition axiosPost (grant : Token.Grant) : S Token.Data :=
  fun s =>
    match tokenReply E grant (posts s) with
    | Replied data =>
        (Ret data, mkService (world s) (authTable s) (Datatypes.S (posts s)))
    | Rejected error =>
        (Throw error,
         mkService (world s) (authTable s) (Datatypes.S (posts s)))
    end.

(** The identifier is given as the string [athleteId.toString()]. *)
Definition storeAuthToken (athleteId : string) (tokenData : Token.Data)
  : S bool :=
  let* now := lift dateNow in
  let item :=
    AuthItem.mk athleteId
      (Token.access_token tokenData)
      (Token.refresh_token tokenData)
      (Token.expires_at tokenData)
      (Token.athlete_info tokenData)
      now now in
  tryCatch (let* _ := sendPut item in ret true)
           (fun error => throw error).

Definition getAuthToken (athleteId : string) : S (option AuthItem.t) :=
  tryCatch (sendGet athleteId) (fun error => throw error).

Definition refreshAccessToken (athleteId : string) (refreshToken : string)
  : S Token.Data :=
  tryCatch
    (let* tokenData := axiosPost (Token.RefreshToken refreshToken) in
     let* _ := storeAuthToken athleteId tokenData in
     ret tokenData)
    (fun error => throw error).

Definition getValidAccessToken (athleteId : string) : S string :=
  let* authData := getAuthToken athleteId in
  match authData with
  | None => throw (plainError "No authentication data found")
  | Some authData =>
      let* ms := lift dateNow in
      let now := ms / 1000 in
      let expiresAt := AuthItem.expires_at authData in
      if expiring expiresAt now then
        let* refreshedTokens :=
          refreshAccessToken athleteId (AuthItem.refresh_token authData) in
        ret (Token.access_token refreshedTokens)
      else ret (AuthItem.access_token authData)
  end.

End Gateway.

End Tokens.

Module Routes.
Import Runtime Auth.
Local Open Scope auth_scope.

(** What a route answers: a redirect to the front end with a query, a JSON
    body, or a status with an error message. *)
Inductive Answer : Type :=
| Redirect (query : string)
| AuthStatus (athlete_info : option Token.Athlete) (token_valid : bool)
             (expires_at : option Z)
| ActivityList (activities : list Item.Activity) (total returned : nat)
| SyncStarted (sync_type : string)
| SyncStatus (total_activities : nat)
| Failure (code : Z) (error : string).

(** The call of [performBackgroundSync] that a request leaves running. *)
Record Job : Type := mkJob {
  job_athlete_id : string;
  job_accessToken : string;
  job_full_sync : bool
}.

Section Handlers.
Variable E : Provider.

(** [app.get("/auth/strava/callback")] *)
Definition authCallback (code error : option string) : S Answer :=
  if truthyOptString error then ret (Redirect "error=auth_failed")
  else
    match code with
    | None => ret (Redirect "error=no_code")
    | Some code =>
        if negb (truthyString code) then ret (Redirect "error=no_code")
        else
          tryCatch
            (let* data :=
               Tokens.axiosPost E (Token.AuthorizationCode code) in
             match Token.athlete data with
             | None => throw (mkError "TypeError" "athlete is undefined" None)
             | Some athlete =>
                 let athleteId := pretty (Token.ident athlete) in
                 let* _ :=
                   Tokens.storeAuthToken E athleteId
                     (Token.mkData (Token.access_token data)
                        (Token.refresh_token data)
                        (Token.expires_at data)
                        None
                        (Some athlete)) in
                 ret (Redirect ("auth=success&athlete_id=" ++ athleteId))
             end)
            (fun error => ret (Redirect "error=token_exchange_failed"))
    end.

(** [app.get("/auth/status/:athlete_id")] *)
Definition authStatus (athlete_id : string) : S Answer :=
  tryCatch
    (let* authData := Tokens.getAuthToken E athlete_id in
     match authData with
     | None => ret (Failure 404 "No authentication found")
     | Some authData =>
         let* ms := lift dateNow in
         let now := ms / 1000 in
         let isValid :=
           Tokens.stillValid (AuthItem.expires_at authData) now in
         ret (AuthStatus (AuthItem.athlete_info authData) isValid
                (AuthItem.expires_at authData))
     end)
    (fun error => ret (Failure 500 "Failed to check authentication status")).

(** [app.get("/activities")] *)
Definition listActivities (athlete_id activity_type race_filter
                           : option string) : S Answer :=
  match athlete_id with
  | None => ret (Failure 400 "athlete_id is required")
  | Some athlete_id =>
      if negb (truthyString athlete_id)
      then ret (Failure 400 "athlete_id is required")
      else
        tryCatch
          (let* authData := Tokens.getAuthToken E athlete_id in
           match authData with
           | None => ret (Failure 401 "User not authenticated")
           | Some _ =>
               let* activities :=
                 lift (Dynamo.getActivities (base E) athlete_id
                         (Dynamo.mkFilters activity_type race_filter)) in
               let* activityCount :=
                 lift (Dynamo.getActivityCount (base E) athlete_id) in
               ret (ActivityList activities activityCount
                      (length activities))
           end)
          (fun error =>
             if Server.includes (err_message error)
                  "No authentication data found"
             then ret (Failure 401 "Authentication expired")
             else ret (Failure 500 "Failed to fetch activities"))
  end.

(** [app.post("/activities/sync")]: the answer, and the sync it leaves
    running when it answers that one has started.  [full_sync] is the
    boolean of the body. *)
Definition startSync (athlete_id : option string) (full_sync : bool)
  : S (Answer * option Job) :=
  match athlete_id with
  | None => ret (Failure 400 "athlete_id is required", None)
  | Some athlete_id =>
      if negb (truthyString athlete_id)
      then ret (Failure 400 "athlete_id is required", None)
      else
        tryCatch
          (let* accessToken := Tokens.getValidAccessToken E athlete_id in
           ret (SyncStarted (if full_sync then "full" else "incremental"),
                Some (mkJob athlete_id accessToken full_sync)))
          (fun error =>
             if Server.includes (err_message error)
                  "No authentication data found"
             then ret (Failure 401 "Authentication expired", None)
             else ret (Failure 500 "Failed to start sync", None))
  end.

(** The sync that a job stands for. *)
Definition runJob (fuel : nat) (job : Job) : S (option Server.SyncReport) :=
  lift (Server.performBackgroundSync (base E) fuel (job_athlete_id job)
          (job_accessToken job) (job_full_sync job)).

(** [app.get("/activities/sync/status/:athlete_id")] *)
Definition syncStatus (athlete_id : string) : S Answer :=
  tryCatch
    (let* totalActivities :=
       lift (Dynamo.getActivityCount (base E) athlete_id) in
     ret (SyncStatus totalActivities))
    (fun error => ret (Failure 500 "Failed to get sync status")).

End Handlers.

End Routes.

(* ===================================================================== *)
(** ** More concrete inputs *)
(* ===================================================================== *)

Module Cases.
Import Runtime.

(** Two pages upstream: a run, a yoga session and a virtual ride, then a
    ride. *)
Definition firstPage : list Strava.RawActivity :=
  [Samples.rawActivity 1 "Run"; Samples.rawActivity 2 "Yoga";
   Samples.rawActivity 3 "VirtualRide"].

Definition secondPage : list Strava.RawActivity :=
  [Samples.rawActivity 4 "Ride"].

Definition pagedEnv (outcomes : nat -> Reply unit) : Env :=
  mkEnv outcomes
    None
    (fun _ => Rejected (plainError "timeout"))
    (fun _ => Rejected (plainError "timeout"))
    (fun _ page => match page with
                   | 1%nat => Replied firstPage
                   | 2%nat => Replied secondPage
                   | _ => Replied []
                   end)
    (fun id => Replied (Samples.rawActivity id "Run"))
    (fun _ => Replied "token"%string)
    (fun items => length items).

(** A Google geocoder that knows the country; Nominatim is down. *)
Definition franceReply : GoogleData :=
  mkGoogleData "OK"
    [mkGeocodeResult
       [mkAddressComponent "Paris" ["locality"; "political"]%string;
        mkAddressComponent "France" ["country"; "political"]%string]].

Definition googleEnv : Env :=
  mkEnv Samples.accepted
    (Some "key"%string)
    (fun _ => Replied franceReply)
    (fun _ => Rejected (plainError "timeout"))
    (fun _ _ => Replied [])
    (fun _ => Rejected (plainError "Not Found"))
    (fun _ => Replied "token"%string)
    (fun items => length items).

(** A store that accepts every command and whose query pages hold one
    item. *)
Definition smallPageEnv : Env :=
  mkEnv Samples.accepted
    None
    (fun _ => Rejected (plainError "timeout"))
    (fun _ => Rejected (plainError "timeout"))
    (fun _ _ => Replied [])
    (fun _ => Rejected (plainError "Not Found"))
    (fun _ => Replied "token"%string)
    (fun _ => 1%nat).

(** Two athletes in the table. *)
Definition eveningRide : Item.Activity :=
  Item.mkActivity 2 (Some "7"%string) "Evening Ride" (Some "ride"%string)
    "40.0" "01:30:00" "France" true
    [Polyline.mkCoordinate 48.85 2.35;
     Polyline.mkCoordinate 48.86 2.36;
     Polyline.mkCoordinate 48.87 2.37]
    None None None (Some 1600000000000).

Definition sharedWorld : World :=
  mkWorld {[ 1 := Samples.staleRun; 2 := eveningRide ]} 1700000000000
    (mkLastApiCall 0 0) 0 0 [].

(** Two records of the same athlete. *)
Definition afternoonRun : Item.Activity :=
  Item.mkActivity 3 (Some "42"%string) "Afternoon Run" (Some "run"%string)
    "5.0" "25:00" "United States" false
    [Polyline.mkCoordinate 38.5 (-120.2);
     Polyline.mkCoordinate 40.7 (-120.95);
     Polyline.mkCoordinate 43.252 (-126.453)]
    None None None (Some 1600000000000).

Definition twoRunsWorld : World :=
  mkWorld {[ 1 := Samples.staleRun; 3 := afternoonRun ]} 1700000000000
    (mkLastApiCall 0 0) 0 0 [].

(** The auth table: a token good for another hour, and one that has
    expired. *)
Definition freshItem : AuthItem.t :=
  AuthItem.mk "42" "access-1" "refresh-1" (Some 1700003600)
    (Some (Token.mkAthlete 42 "runner")) 1690000000000 1690000000000.

Definition expiredItem : AuthItem.t :=
  AuthItem.mk "7" "access-old" "refresh-old" (Some 1699999000)
    (Some (Token.mkAthlete 7 "rider")) 1690000000000 1690000000000.

Definition refreshed : Token.Data :=
  Token.mkData "access-new" "refresh-new" (Some 1700021600) None None.

Definition exchanged : Token.Data :=
  Token.mkData "access-1" "refresh-1" (Some 1700021600)
    (Some (Token.mkAthlete 42 "runner")) None.

Definition provider (outcomes : nat -> Reply unit) : Auth.Provider :=
  Auth.mkProvider (Samples.upstreamEnv outcomes)
    (fun grant _ => match grant with
                    | Token.AuthorizationCode _ => Replied exchanged
                    | Token.RefreshToken _ => Replied refreshed
                    end).

Definition service0 : Auth.Service :=
  Auth.mkService Samples.world0
    {[ "42"%string := freshItem; "7"%string := expiredItem ]} 0.

End Cases.

(* ===================================================================== *)
(** * Properties *)
(* ===================================================================== *)

Import JS Polyline Runtime Observe.

Lemma wrap32_small z : - 2 ^ 31 <= z < 2 ^ 31 -> wrap32 z = z.
Proof.
  intros H. unfold wrap32.
  rewrite Z.mod_small; lia.
Qed.

Lemma band_low5 z : - 2 ^ 31 <= z < 2 ^ 31 -> band (Num z) 31 = z mod 32.
Proof.
  intros H. unfold band, toInt32.
  rewrite (wrap32_small z H), (wrap32_small 31) by lia.
  change 31 with (Z.ones 5). rewrite Z.land_ones by lia. reflexivity.
Qed.

Lemma lor_disjoint r g s :
  0 <= s -> 0 <= r < 2 ^ s -> 0 <= g ->
  Z.lor r (Z.shiftl g s) = r + g * 2 ^ s.
Proof.
  intros Hs Hr Hg.
  rewrite Z.shiftl_mul_pow2 by lia.
  rewrite <- Z.lxor_lor.
  - symmetry. apply Z.add_nocarry_lxor.
    apply Z.bits_inj'. intros n Hn. rewrite Z.land_spec, Z.bits_0.
    destruct (Z.lt_ge_cases n s) as [Hlt|Hge].
    + rewrite Z.mul_pow2_bits_low by lia. apply andb_false_r.
    + replace (Z.testbit r n) with false; [reflexivity|].
      symmetry. destruct (Z.eq_dec r 0) as [->|Hr0]; [apply Z.bits_0|].
      apply Z.bits_above_log2; [lia|].
      apply Z.lt_le_trans with s; [|lia].
      apply Z.log2_lt_pow2; lia.
  - apply Z.bits_inj'. intros n Hn. rewrite Z.land_spec, Z.bits_0.
    destruct (Z.lt_ge_cases n s) as [Hlt|Hge].
    + rewrite Z.mul_pow2_bits_low by lia. apply andb_false_r.
    + replace (Z.testbit r n) with false; [reflexivity|].
      symmetry. destruct (Z.eq_dec r 0) as [->|Hr0]; [apply Z.bits_0|].
      apply Z.bits_above_log2; [lia|].
      apply Z.lt_le_trans with s; [|lia].
      apply Z.log2_lt_pow2; lia.
Qed.

Lemma charCodeAt_middle pre c post :
  charCodeAt (pre ++ c :: post) (length pre) = Num c.
Proof.
  unfold charCodeAt. rewrite nth_error_app2 by lia.
  rewrite Nat.sub_diag. reflexivity.
Qed.

Lemma charCodeAt_past s i : (length s <= i)%nat -> charCodeAt s i = NaN.
Proof.
  intros H. unfold charCodeAt.
  apply nth_error_None in H. rewrite H. reflexivity.
Qed.

(** One group added to the accumulator. *)
Lemma accumulate_group r g s :
  0 <= s -> 0 <= r < 2 ^ s -> 0 <= g < 32 -> r + g * 2 ^ s < 2 ^ 31 ->
  Z.lor r (shl g s) = r + g * 2 ^ s.
Proof.
  intros Hs Hr Hg Hb. unfold shl.
  destruct (Z.eq_dec g 0) as [->|Hg0].
  - rewrite Z.shiftl_0_l. unfold wrap32. simpl. rewrite Z.lor_0_r. lia.
  - assert (Hpow : 2 ^ s < 2 ^ 31) by nia.
    assert (Hs31 : s < 31).
    { apply (Z.pow_lt_mono_r_iff 2); lia. }
    rewrite (Z.mod_small s 32) by lia.
    rewrite wrap32_small.
    + apply lor_disjoint; lia.
    + rewrite Z.shiftl_mul_pow2 by lia. nia.
Qed.

Lemma readVarint_groups gs : forall fuel pre post s r,
  gs <> [] -> Forall (fun g => 0 <= g < 32) gs ->
  0 <= s -> 0 <= r < 2 ^ s ->
  r + groupsValue gs * 2 ^ s < 2 ^ 31 ->
  (length gs <= fuel)%nat ->
  readVarint fuel (pre ++ groupsChars gs ++ post) (length pre) s r
  = Some ((length pre + length gs)%nat, r + groupsValue gs * 2 ^ s).
Proof.
  induction gs as [|g rest IH]; intros fuel pre post s r Hne Hall Hs Hr Hb Hfuel;
    [congruence|].
  apply Forall_cons_1 in Hall as [Hg Hrest].
  assert (Hv : 0 <= groupsValue rest).
  { clear -Hrest. induction Hrest; simpl; lia. }
  destruct fuel as [|fuel]; [simpl in Hfuel; lia|].
  assert (Hpos : 0 < 2 ^ s) by (apply Z.pow_pos_nonneg; lia).
  change (groupsValue (g :: rest)) with (g + 32 * groupsValue rest) in *.
  assert (Hacc : Z.lor r (shl g s) = r + g * 2 ^ s).
  { apply accumulate_group; try lia; nia. }
  destruct rest as [|g2 rest].
  - (* last group: no continuation bit *)
    simpl groupsChars. simpl app.
    cbn [readVarint]. rewrite charCodeAt_middle.
    cbn [sub]. replace (g + 63 - 63) with g by lia.
    rewrite band_low5 by lia. rewrite Z.mod_small by lia.
    cbn [ge]. replace (32 <=? g) with false by (symmetry; apply Z.leb_gt; lia).
    rewrite Hacc. simpl groupsValue. f_equal. f_equal; [simpl; lia | lia].
  - change (groupsChars (g :: g2 :: rest))
      with ((g + 32 + 63) :: groupsChars (g2 :: rest)).
    rewrite <- app_comm_cons.
    cbn [readVarint]. rewrite charCodeAt_middle.
    cbn [sub]. replace (g + 32 + 63 - 63) with (g + 32) by lia.
    rewrite band_low5 by lia.
    replace ((g + 32) mod 32) with g
      by (apply (Z.mod_unique_pos (g + 32) 32 1 g); lia).
    cbn [ge]. replace (32 <=? g + 32) with true by (symmetry; apply Z.leb_le; lia).
    rewrite Hacc.
    replace (pre ++ (g + 32 + 63) :: groupsChars (g2 :: rest) ++ post)
      with ((pre ++ [g + 32 + 63]) ++ groupsChars (g2 :: rest) ++ post)
      by (rewrite <- app_assoc; reflexivity).
    replace (S (length pre)) with (length (pre ++ [g + 32 + 63]))
      by (rewrite length_app; simpl; lia).
    assert (Hp5 : 2 ^ (s + 5) = 32 * 2 ^ s).
    { rewrite Z.pow_add_r by lia. lia. }
    assert (Hnext : readVarint fuel
              ((pre ++ [g + 32 + 63]) ++ groupsChars (g2 :: rest) ++ post)
              (length (pre ++ [g + 32 + 63])) (s + 5) (r + g * 2 ^ s)
            = Some (Nat.add (length (pre ++ [g + 32 + 63])) (length (g2 :: rest)),
                    r + g * 2 ^ s + groupsValue (g2 :: rest) * 2 ^ (s + 5))).
    { apply IH; try assumption; try lia.
      - congruence.
      - rewrite Hp5. nia.
      - simpl in Hfuel |- *. lia. }
    rewrite Hnext. f_equal. f_equal.
    + rewrite length_app. simpl. lia.
    + rewrite Hp5. ring.
Qed.

Lemma groupsChars_length gs : length (groupsChars gs) = length gs.
Proof.
  induction gs as [|g [|g2 rest] IH]; simpl in *; auto.
Qed.

Lemma groupsValue_nonneg gs :
  Forall (fun g => 0 <= g < 32) gs -> 0 <= groupsValue gs.
Proof. induction 1; simpl; lia. Qed.

(** Reading the characters of one well-formed value, wherever they stand. *)
Lemma readVarint_value fuel pre gs post :
  wfGroups gs -> (length gs <= fuel)%nat ->
  readVarint fuel (pre ++ groupsChars gs ++ post) (length pre) 0 0
  = Some (length (pre ++ groupsChars gs), groupsValue gs).
Proof.
  intros (Hne & Hall & Hb) Hfuel.
  rewrite (readVarint_groups gs fuel pre post 0 0); try assumption; try lia.
  rewrite length_app, groupsChars_length. f_equal. f_equal; lia.
Qed.

Lemma decodeLoop_pairs ps : forall fuel pre lat lng acc,
  wfPairs ps -> (length ps < fuel)%nat ->
  decodeLoop fuel (pre ++ encodePairs ps) (length pre) lat lng acc
  = Some (acc ++ track lat lng (deltas ps)).
Proof.
  induction ps as [|[a b] ps IH]; intros fuel pre lat lng acc Hwf Hfuel.
  - destruct fuel as [|fuel]; [simpl in Hfuel; lia|].
    unfold encodePairs. simpl. rewrite app_nil_r.
    rewrite Nat.ltb_irrefl. rewrite app_nil_r. reflexivity.
  - destruct fuel as [|fuel]; [simpl in Hfuel; lia|].
    apply Forall_cons_1 in Hwf as [[Ha Hb] Hwf]. simpl in Ha, Hb.
    assert (Henc : encodePairs ((a, b) :: ps)
                   = groupsChars a ++ groupsChars b ++ encodePairs ps).
    { unfold encodePairs. simpl. rewrite <- app_assoc. reflexivity. }
    rewrite Henc.
    set (encoded := pre ++ groupsChars a ++ groupsChars b ++ encodePairs ps).
    assert (Hlen : length encoded
                   = (length pre + length a + length b
                      + length (encodePairs ps))%nat).
    { unfold encoded. rewrite !length_app, !groupsChars_length. lia. }
    assert (Hane : (0 < length a)%nat).
    { destruct Ha as (Hne & _). destruct a; [congruence | simpl; lia]. }
    cbn [decodeLoop].
    replace (length pre <? length encoded)%nat with true
      by (symmetry; apply Nat.ltb_lt; lia).
    unfold encoded at 2.
    rewrite readVarint_value by (assumption || lia).
    fold encoded.
    replace encoded
      with ((pre ++ groupsChars a) ++ groupsChars b ++ encodePairs ps) at 2
      by (unfold encoded; rewrite <- app_assoc; reflexivity).
    rewrite readVarint_value by (assumption || lia).
    replace encoded
      with (((pre ++ groupsChars a) ++ groupsChars b) ++ encodePairs ps)
      by (unfold encoded; rewrite <- !app_assoc; reflexivity).
    rewrite IH by (assumption || (simpl in Hfuel; lia)).
    rewrite <- app_assoc. reflexivity.
Qed.

Lemma encodePairs_length ps :
  wfPairs ps -> (2 * length ps <= length (encodePairs ps))%nat.
Proof.
  induction 1 as [|[a b] ps [Ha Hb] _ IH]; [simpl; lia|].
  unfold encodePairs in *. simpl in *.
  rewrite !length_app, !groupsChars_length.
  destruct Ha as (Ha & _), Hb as (Hb & _).
  destruct a; [congruence|]. destruct b; [congruence|]. simpl. lia.
Qed.

Lemma decodePolyline_pairs ps :
  wfPairs ps -> decodePolyline (encodePairs ps) = Some (track 0 0 (deltas ps)).
Proof.
  intros Hwf. unfold decodePolyline.
  pose proof (encodePairs_length ps Hwf) as Hlen.
  apply (decodeLoop_pairs ps (S (length (encodePairs ps))) [] 0 0 []);
    [assumption | lia].
Qed.

Lemma track_length ds : forall lat lng, length (track lat lng ds) = length ds.
Proof.
  induction ds as [|[dlat dlng] ds IH]; intros; simpl; [reflexivity|].
  rewrite IH. reflexivity.
Qed.

Lemma track_nth ds : forall lat lng i,
  (i < length ds)%nat ->
  nth_error (track lat lng ds) i
  = Some (mkCoordinate (div1e5 (lat + sumZ (map fst (firstn (S i) ds))))
                       (div1e5 (lng + sumZ (map snd (firstn (S i) ds))))).
Proof.
  induction ds as [|[dlat dlng] ds IH]; intros lat lng i Hi; [simpl in Hi; lia|].
  destruct i as [|i].
  - simpl. rewrite !Z.add_0_r. reflexivity.
  - simpl in Hi. cbn [track nth_error].
    rewrite IH by lia.
    change (firstn (S (S i)) ((dlat, dlng) :: ds))
      with ((dlat, dlng) :: firstn (S i) ds).
    cbn [map sumZ fold_right fst snd].
    fold (sumZ (map fst (firstn (S i) ds))).
    fold (sumZ (map snd (firstn (S i) ds))).
    rewrite !Z.add_assoc. reflexivity.
Qed.

(** The inner loop always stops: at the latest on the [NaN] read past the
    end of the string. *)
Lemma readVarint_total encoded : forall fuel index shift result,
  (length encoded - index < fuel)%nat ->
  exists index' result',
    readVarint fuel encoded index shift result = Some (index', result')
    /\ (index < index')%nat.
Proof.
  induction fuel as [|fuel IH]; intros index shift result Hfuel; [lia|].
  cbn [readVarint].
  destruct (charCodeAt encoded index) as [c|] eqn:Hc.
  - assert (Hin : (index < length encoded)%nat).
    { unfold charCodeAt in Hc.
      destruct (nth_error encoded index) eqn:E; [|discriminate].
      apply nth_error_Some. congruence. }
    cbn [sub ge]. destruct (32 <=? c - 63).
    + destruct (IH (S index) (shift + 5)
                  (Z.lor result (shl (band (Num (c - 63)) 31) shift)))
        as (i' & r' & Hrun & Hlt); [lia|].
      exists i', r'. split; [exact Hrun | lia].
    + eexists _, _. split; [reflexivity | lia].
  - cbn [sub ge]. eexists _, _. split; [reflexivity | lia].
Qed.

(** Past the end of the string one pass reads [NaN]: no bit is added and the
    loop is left at once. *)
Lemma readVarint_past encoded fuel index shift result :
  (length encoded <= index)%nat ->
  readVarint (S fuel) encoded index shift result = Some (S index, result).
Proof.
  intros H. cbn [readVarint]. rewrite charCodeAt_past by assumption.
  cbn [sub ge].
  replace (shl (band NaN 31) shift) with 0.
  - rewrite Z.lor_0_r. reflexivity.
  - unfold band, toInt32, shl. rewrite Z.land_0_l, Z.shiftl_0_l. reflexivity.
Qed.

Lemma decodeLoop_total encoded : forall fuel index lat lng acc,
  (length encoded - index < fuel)%nat ->
  exists pts,
    decodeLoop fuel encoded index lat lng acc = Some pts
    /\ (length pts <= length acc + (length encoded - index + 1) / 2)%nat.
Proof.
  induction fuel as [|fuel IH]; intros index lat lng acc Hfuel; [lia|].
  cbn [decodeLoop].
  destruct (index <? length encoded)%nat eqn:Hlt.
  - apply Nat.ltb_lt in Hlt.
    destruct (readVarint_total encoded (S (length encoded)) index 0 0)
      as (i1 & r1 & Hr1 & Hi1); [lia|].
    rewrite Hr1.
    destruct (readVarint_total encoded (S (length encoded)) i1 0 0)
      as (i2 & r2 & Hr2 & Hi2); [lia|].
    rewrite Hr2.
    destruct (IH i2 (lat + unzigzag r1) (lng + unzigzag r2)
                (acc ++ [mkCoordinate (div1e5 (lat + unzigzag r1))
                                      (div1e5 (lng + unzigzag r2))]))
      as (pts & Hrun & Hlen); [lia|].
    exists pts. split; [exact Hrun|].
    rewrite length_app in Hlen. cbn [length] in Hlen.
    assert (Hstep : ((length encoded - i2 + 1) / 2 + 1
                     <= (length encoded - index + 1) / 2)%nat).
    { destruct (Nat.le_gt_cases (length encoded) i2) as [Hge|Hin].
      - replace (length encoded - i2)%nat with 0%nat by lia.
        change ((0 + 1) / 2)%nat with 0%nat.
        assert (2 <= length encoded - index + 1)%nat by lia.
        apply (Nat.Div0.div_le_mono _ _ 2) in H. 
        change (2 / 2)%nat with 1%nat in H. lia.
      - replace (length encoded - index + 1)%nat
          with ((length encoded - i2 + 1) + (i2 - index))%nat by lia.
        assert (Hmono : ((length encoded - i2 + 1 + 2) / 2
                 <= (length encoded - i2 + 1 + (i2 - index)) / 2)%nat)
          by (apply Nat.Div0.div_le_mono; lia).
        replace ((length encoded - i2 + 1 + 2) / 2)%nat
          with ((length encoded - i2 + 1) / 2 + 1)%nat in Hmono; [exact Hmono|].
        replace (length encoded - i2 + 1 + 2)%nat
          with (length encoded - i2 + 1 + 1 * 2)%nat by lia.
        rewrite Nat.div_add by lia. reflexivity. }
    lia.
  - exists acc. split; [reflexivity | lia].
Qed.

(** C5.  The empty string decodes to no point; the reference string decodes
    to its three documented points; and a well-formed string decodes to one
    point per encoded pair, the [i]-th point being the sums of the first
    [i + 1] zig-zag-decoded latitude and longitude deltas, divided by 1e5. *)
Theorem decodePolyline_reference_and_sums :
  decodePolyline (codeUnits "") = Some []
  /\ (exists pts,
        decodePolyline (codeUnits Samples.reference) = Some pts
        /\ Forall2 coord_eq pts
             [mkCoordinate 38.5 (-120.2);
              mkCoordinate 40.7 (-120.95);
              mkCoordinate 43.252 (-126.453)])
  /\ (forall ps,
        wfPairs ps ->
        exists pts,
          decodePolyline (encodePairs ps) = Some pts
          /\ length pts = length ps
          /\ forall i, (i < length ps)%nat ->
                       nth_error pts i = Some (pointAt (deltas ps) i)).
Proof.
  split; [reflexivity|]. split.
  - eexists. split; [vm_compute; reflexivity|].
    repeat constructor.
  - intros ps Hwf. exists (track 0 0 (deltas ps)).
    split; [apply decodePolyline_pairs, Hwf|].
    split.
    + rewrite track_length. unfold deltas. apply length_map.
    + intros i Hi. rewrite track_nth.
      * unfold pointAt. rewrite !Z.add_0_l. reflexivity.
      * unfold deltas. rewrite length_map. exact Hi.
Qed.

Lemma decodePolyline_reference_and_sums_witness :
  wfPairs Samples.referencePairs
  /\ encodePairs Samples.referencePairs = codeUnits Samples.reference
  /\ exists pts,
      decodePolyline (encodePairs Samples.referencePairs) = Some pts
      /\ length pts = 3%nat
      /\ nth_error pts 2 = Some (pointAt (deltas Samples.referencePairs) 2).
Proof.
  assert (Hwf : wfPairs Samples.referencePairs).
  { unfold wfPairs, Samples.referencePairs, wfGroups.
    repeat (constructor; cbn [fst snd groupsValue]);
      try discriminate; try lia;
      repeat (constructor; try lia). }
  split; [exact Hwf|]. split; [reflexivity|].
  destruct decodePolyline_reference_and_sums as (_ & _ & Hgeneral).
  destruct (Hgeneral Samples.referencePairs Hwf) as (pts & Hrun & Hlen & Hnth).
  exists pts. split; [exact Hrun|]. split; [exact Hlen|].
  apply Hnth. simpl. lia.
Defined.

(** The loop only adds points. *)
Lemma decodeLoop_extends encoded : forall fuel index lat lng acc pts,
  decodeLoop fuel encoded index lat lng acc = Some pts ->
  (length acc <= length pts)%nat.
Proof.
  induction fuel as [|fuel IH]; intros index lat lng acc pts Hrun;
    [discriminate|].
  cbn [decodeLoop] in Hrun.
  destruct (index <? length encoded)%nat.
  - destruct (readVarint (S (length encoded)) encoded index 0 0)
      as [[i1 r1]|]; [|discriminate].
    destruct (readVarint (S (length encoded)) encoded i1 0 0)
      as [[i2 r2]|]; [|discriminate].
    apply IH in Hrun. rewrite length_app in Hrun. cbn [length] in Hrun. lia.
  - injection Hrun as <-. lia.
Qed.

(** A string that is not empty gives at least one point, however it ends. *)
Lemma decodePolyline_nonempty encoded pts :
  encoded <> [] -> decodePolyline encoded = Some pts -> pts <> [].
Proof.
  intros Hne Hrun. unfold decodePolyline in Hrun. cbn [decodeLoop] in Hrun.
  replace (0 <? length encoded)%nat with true in Hrun
    by (symmetry; apply Nat.ltb_lt; destruct encoded; [congruence | simpl; lia]).
  destruct (readVarint (S (length encoded)) encoded 0 0 0)
    as [[i1 r1]|]; [|discriminate].
  destruct (readVarint (S (length encoded)) encoded i1 0 0)
    as [[i2 r2]|]; [|discriminate].
  apply decodeLoop_extends in Hrun. cbn [app length] in Hrun.
  intros ->. simpl in Hrun. lia.
Qed.

(** C10.  [decodePolyline] returns on every string, with at most one point
    for every two characters (rounded up) and at least one point when the
    string is not empty.  A read past the end gives [NaN], adds no bit and
    leaves the inner loop at once. *)
Theorem decodePolyline_total (encoded : list Z) :
  (exists pts,
      decodePolyline encoded = Some pts
      /\ (length pts <= (length encoded + 1) / 2)%nat
      /\ (encoded <> [] -> pts <> []))
  /\ (forall fuel index shift result,
        (length encoded <= index)%nat ->
        charCodeAt encoded index = NaN
        /\ readVarint (S fuel) encoded index shift result
           = Some (S index, result)).
Proof.
  split.
  - destruct (decodeLoop_total encoded (S (length encoded)) 0 0 0 [])
      as (pts & Hrun & Hlen); [lia|].
    exists pts. split; [exact Hrun|]. split.
    + rewrite Nat.sub_0_r in Hlen. exact Hlen.
    + intros Hne. eapply decodePolyline_nonempty; eassumption.
  - intros fuel index shift result Hpast.
    split; [apply charCodeAt_past | apply readVarint_past]; exact Hpast.
Qed.

Lemma decodePolyline_total_witness :
  (length (codeUnits "_p~iF") <= 5)%nat
  /\ readVarint 1 (codeUnits "_p~iF") 5 0 0 = Some (6%nat, 0)
  /\ decodePolyline (codeUnits "_p~iF")
     = Some [mkCoordinate (div1e5 3850000) (div1e5 0)].
Proof.
  assert (Hlen : (length (codeUnits "_p~iF") <= 5)%nat) by (simpl; lia).
  split; [exact Hlen|]. split; [|reflexivity].
  destruct (decodePolyline_total (codeUnits "_p~iF")) as [_ Hpast].
  exact (proj2 (Hpast 0%nat 5%nat 0 0 Hlen)).
Defined.

Lemma truthyString_nonempty s : truthyString s = true -> s <> ""%string.
Proof.
  unfold truthyString. intros H ->. discriminate.
Qed.

Lemma rateLimitedCall_returns apiName minIntervalMs w :
  exists w', Geo.rateLimitedCall apiName minIntervalMs w = (Ret tt, w').
Proof.
  unfold Geo.rateLimitedCall, bind, dateNow, readLastApiCall.
  destruct (Geo.remainingWait _ _ _ _); simpl; eauto.
Qed.

(** After a call that no other call interleaves with, the tier's stamp is the
    current time and lies at least the interval after the previous stamp. *)
Lemma rateLimitedCall_gap apiName minIntervalMs w w' :
  Geo.rateLimitedCall apiName minIntervalMs w = (Ret tt, w') ->
  getLast (lastApiCall w') apiName = clock w'
  /\ minIntervalMs <= clock w' - getLast (lastApiCall w) apiName.
Proof.
  unfold Geo.rateLimitedCall, bind, dateNow, readLastApiCall, Geo.remainingWait.
  destruct (clock w - getLast (lastApiCall w) apiName <? minIntervalMs) eqn:Hlt;
    simpl; intros [= <-]; simpl.
  - apply Z.ltb_lt in Hlt. destruct apiName; simpl in *; split; lia.
  - apply Z.ltb_ge in Hlt. destruct apiName; simpl in *; split; lia.
Qed.

Lemma getCountryFromGoogle_settles E lat lng w :
  fst (Geo.getCountryFromGoogle E lat lng w) <> OutOfFuel.
Proof.
  unfold Geo.getCountryFromGoogle.
  destruct (negb _); [discriminate|].
  unfold bind.
  destruct (rateLimitedCall_returns google 100 w) as [w1 ->].
  unfold Geo.axiosGet, awaitReply.
  destruct (googleReply E (requests w1)) as [data|err]; [|discriminate].
  unfold ret, throw.
  repeat case_match; discriminate.
Qed.

Lemma getCountryFromNominatim_settles E lat lng w :
  fst (Geo.getCountryFromNominatim E lat lng w) <> OutOfFuel.
Proof.
  unfold Geo.getCountryFromNominatim, bind.
  destruct (rateLimitedCall_returns nominatim 1100 w) as [w1 ->].
  unfold Geo.axiosGet, awaitReply.
  destruct (nominatimReply E (requests w1)) as [data|err]; [|discriminate].
  unfold ret, throw.
  repeat case_match; discriminate.
Qed.

(** A tier block either returns early with a usable name or falls through;
    it never lets an error out. *)
Lemma tryTier_cases (tier : M string) w :
  fst (tier w) <> OutOfFuel ->
  (exists country w', Geo.tryTier tier w = (Ret (Some country), w')
                      /\ tier w = (Ret country, w')
                      /\ truthyString country = true
                      /\ country <> "Unknown"%string)
  \/ (exists w', Geo.tryTier tier w = (Ret None, w')).
Proof.
  intros Hfuel. unfold Geo.tryTier, tryCatch, bind.
  destruct (tier w) as [[country|err|] w1]; simpl in *.
  - destruct (truthyString country) eqn:Ht; simpl.
    + destruct (String.eqb country "Unknown") eqn:Hu; simpl.
      * right. eauto.
      * left. exists country, w1. repeat split; auto.
        apply String.eqb_neq. exact Hu.
    + right. eauto.
  - right. eauto.
  - congruence.
Qed.

Lemma getCountryFromCoordinateRanges_nonempty lat lng :
  Geo.getCountryFromCoordinateRanges lat lng <> ""%string.
Proof.
  unfold Geo.getCountryFromCoordinateRanges.
  repeat case_match; discriminate.
Qed.

Lemma getCountryFromCoordinateRanges_names lat lng :
  In (Geo.getCountryFromCoordinateRanges lat lng)
     ["France"; "Germany"; "United Kingdom"; "Italy"; "Spain"; "Europe";
      "United States"; "Canada"; "Bahrain"; "Australia"; "Other"]%string.
Proof.
  unfold Geo.getCountryFromCoordinateRanges.
  repeat case_match; simpl; tauto.
Qed.

Lemma getCountryFromCoordinates_returns E startLatlng w :
  exists country w',
    Geo.getCountryFromCoordinates E startLatlng w = (Ret country, w').
Proof.
  destruct startLatlng as [[|lat [|lng [|extra rest]]]|];
    try (eexists _, _; reflexivity).
  cbn [Geo.getCountryFromCoordinates]. unfold bind.
  destruct (tryTier_cases (Geo.getCountryFromGoogle E lat lng) w
              (getCountryFromGoogle_settles E lat lng w))
    as [(c & w1 & -> & _) | (w1 & ->)]; [eexists _, _; reflexivity|].
  destruct (tryTier_cases (Geo.getCountryFromNominatim E lat lng) w1
              (getCountryFromNominatim_settles E lat lng w1))
    as [(c & w2 & -> & _) | (w2 & ->)]; eexists _, _; reflexivity.
Qed.

(** C4.  [getCountryFromCoordinates] always returns a non-empty string and
    never throws.  For a pair of numbers, when both network tiers fall
    through (they threw, timed out, or gave nothing usable), the answer is
    the one of the static table; for a missing value or a list that is not a
    pair the answer is "Unknown" and nothing is called.  The static table
    only gives one of its eleven names. *)
Theorem getCountryFromCoordinates_never_fails
        (E : Env) (startLatlng : option (list real)) (w : World) :
  exists country w',
    Geo.getCountryFromCoordinates E startLatlng w = (Ret country, w')
    /\ country <> ""%string
    /\ (forall lat lng w1 w2,
          startLatlng = Some [lat; lng] ->
          Geo.tryTier (Geo.getCountryFromGoogle E lat lng) w = (Ret None, w1) ->
          Geo.tryTier (Geo.getCountryFromNominatim E lat lng) w1
          = (Ret None, w2) ->
          country = Geo.getCountryFromCoordinateRanges lat lng /\ w' = w2)
    /\ ((forall lat lng, startLatlng <> Some [lat; lng]) ->
        country = "Unknown"%string /\ w' = w)
    /\ (forall lat lng,
          In (Geo.getCountryFromCoordinateRanges lat lng)
             ["France"; "Germany"; "United Kingdom"; "Italy"; "Spain";
              "Europe"; "United States"; "Canada"; "Bahrain"; "Australia";
              "Other"]%string).
Proof.
  destruct startLatlng as [[|lat [|lng [|extra rest]]]|];
    try (exists "Unknown"%string, w;
         split; [reflexivity|]; split; [discriminate|];
         split; [intros; discriminate|];
         split; [intros; split; reflexivity
                | apply getCountryFromCoordinateRanges_names]).
  cbn [Geo.getCountryFromCoordinates]. unfold bind.
  assert (Hwf : ~ (forall lat' lng' : real, Some [lat; lng] <> Some [lat'; lng'])).
  { intros Hmal. apply (Hmal lat lng). reflexivity. }
  destruct (tryTier_cases (Geo.getCountryFromGoogle E lat lng) w
              (getCountryFromGoogle_settles E lat lng w))
    as [(c & w1 & Hrun & _ & Ht & _) | (w1 & Hrun)]; rewrite Hrun.
  - exists c, w1.
    split; [reflexivity|]. split; [apply truthyString_nonempty, Ht|].
    split; [|split; [intros Hmal; contradiction
                    | apply getCountryFromCoordinateRanges_names]].
    intros lat' lng' w1' w2' Heq Hg Hn. injection Heq as <- <-.
    rewrite Hrun in Hg. discriminate.
  - destruct (tryTier_cases (Geo.getCountryFromNominatim E lat lng) w1
                (getCountryFromNominatim_settles E lat lng w1))
      as [(c & w2 & Hrun2 & _ & Ht & _) | (w2 & Hrun2)]; rewrite Hrun2.
    + exists c, w2.
      split; [reflexivity|]. split; [apply truthyString_nonempty, Ht|].
      split; [|split; [intros Hmal; contradiction
                    | apply getCountryFromCoordinateRanges_names]].
      intros lat' lng' w1' w2' Heq Hg Hn. injection Heq as <- <-.
      rewrite Hrun in Hg. injection Hg as <-.
      rewrite Hrun2 in Hn. discriminate.
    + exists (Geo.getCountryFromCoordinateRanges lat lng), w2.
      split; [reflexivity|].
      split; [apply getCountryFromCoordinateRanges_nonempty|].
      split; [|split; [intros Hmal; contradiction
                    | apply getCountryFromCoordinateRanges_names]].
      intros lat' lng' w1' w2' Heq Hg Hn. injection Heq as <- <-.
      rewrite Hrun in Hg. injection Hg as <-.
      rewrite Hrun2 in Hn. injection Hn as <-. split; reflexivity.
Qed.

Lemma getCountryFromCoordinates_never_fails_witness :
  Geo.tryTier
    (Geo.getCountryFromGoogle (Samples.upstreamEnv Samples.accepted)
       (Finite 38.5) (Finite (-120.2))) Samples.world0
  = (Ret None, Samples.world0)
  /\ exists w',
      Geo.getCountryFromCoordinates (Samples.upstreamEnv Samples.accepted)
        (Some [Finite 38.5; Finite (-120.2)]) Samples.world0
      = (Ret "United States"%string, w').
Proof.
  split; [reflexivity|].
  destruct (getCountryFromCoordinates_never_fails
              (Samples.upstreamEnv Samples.accepted)
              (Some [Finite 38.5; Finite (-120.2)]) Samples.world0)
    as (country & w' & Hrun & _ & Hfall & _ & _).
  exists w'.
  destruct (Hfall (Finite 38.5) (Finite (-120.2)) Samples.world0
              (snd (Geo.tryTier
                      (Geo.getCountryFromNominatim
                         (Samples.upstreamEnv Samples.accepted)
                         (Finite 38.5) (Finite (-120.2))) Samples.world0))
              eq_refl eq_refl eq_refl) as [Hcountry _].
  rewrite Hrun, Hcountry. reflexivity.
Defined.

(** C3 fails on interleaved calls.  One Nominatim request starts at time
    [t0]; a second call enters 100 ms later and a third 200 ms later, both
    while no stamp newer than [t0] exists; both sleep until [t0 + 1100] and
    both start their request then, 0 ms apart. *)
Theorem interleaved_calls_break_the_interval :
  exists s,
    Limiter.run Limiter.overlappingCalls (Limiter.boot 1700000000000) = Some s
    /\ Limiter.started s
       = [(nominatim, 1700000000000);
          (nominatim, 1700000001100);
          (nominatim, 1700000001100)]
    /\ Limiter.spaced (Limiter.started s) = false.
Proof.
  eexists. split; [vm_compute; reflexivity|].
  split; reflexivity.
Qed.

Section ExtFacts.
Variable allowed : Event -> Prop.

Lemma writtenBatches_app evs1 evs2 :
  writtenBatches (evs1 ++ evs2) = writtenBatches evs1 ++ writtenBatches evs2.
Proof. unfold writtenBatches. apply flat_map_app. Qed.

Lemma writtenItems_app evs1 evs2 :
  writtenItems (evs1 ++ evs2) = writtenItems evs1 ++ writtenItems evs2.
Proof.
  unfold writtenItems. rewrite writtenBatches_app. apply concat_app.
Qed.

Lemma putAll_app xs ys st :
  Dynamo.putAll (xs ++ ys) st = Dynamo.putAll ys (Dynamo.putAll xs st).
Proof. unfold Dynamo.putAll. apply fold_left_app. Qed.

Lemma Ext_refl w : Ext allowed w w.
Proof.
  exists []. rewrite app_nil_r. repeat split. constructor.
Qed.

Lemma Ext_trans w1 w2 w3 :
  Ext allowed w1 w2 -> Ext allowed w2 w3 -> Ext allowed w1 w3.
Proof.
  intros (e1 & Ht1 & Ha1 & Hs1) (e2 & Ht2 & Ha2 & Hs2).
  exists (e1 ++ e2). split; [|split].
  - rewrite Ht2, Ht1, app_assoc. reflexivity.
  - apply Forall_app. split; assumption.
  - rewrite Hs2, Hs1, writtenItems_app, putAll_app. reflexivity.
Qed.

Lemma confined_ret {A} (a : A) : confined allowed (ret a).
Proof. intros w r w' [= <- <-]. apply Ext_refl. Qed.

Lemma confined_throw {A} e : confined allowed (@throw A e).
Proof. intros w r w' [= <- <-]. apply Ext_refl. Qed.

Lemma confined_outOfFuel {A} : confined allowed (@outOfFuel A).
Proof. intros w r w' [= <- <-]. apply Ext_refl. Qed.

Lemma confined_liftOption {A} (o : option A) : confined allowed (liftOption o).
Proof. destruct o; [apply confined_ret | apply confined_outOfFuel]. Qed.

Lemma confined_awaitReply {A} (r : Reply A) : confined allowed (awaitReply r).
Proof. destruct r; [apply confined_ret | apply confined_throw]. Qed.

Lemma confined_dateNow : confined allowed dateNow.
Proof. intros w r w' [= <- <-]. apply Ext_refl. Qed.

Lemma confined_readLastApiCall : confined allowed readLastApiCall.
Proof. intros w r w' [= <- <-]. apply Ext_refl. Qed.

Lemma confined_bind {A B} (m : M A) (k : A -> M B) :
  confined allowed m -> (forall a, confined allowed (k a)) ->
  confined allowed (bind m k).
Proof.
  intros Hm Hk w r w'. unfold bind.
  destruct (m w) as [[a|e|] w1] eqn:Hrun.
  - intros Hrest. eapply Ext_trans; [eapply Hm, Hrun | eapply Hk, Hrest].
  - intros [= <- <-]. eapply Hm, Hrun.
  - intros [= <- <-]. eapply Hm, Hrun.
Qed.

Lemma confined_tryCatch {A} (m : M A) (h : Error -> M A) :
  confined allowed m -> (forall e, confined allowed (h e)) ->
  confined allowed (tryCatch m h).
Proof.
  intros Hm Hh w r w'. unfold tryCatch.
  destruct (m w) as [[a|e|] w1] eqn:Hrun.
  - intros [= <- <-]. eapply Hm, Hrun.
  - intros Hrest. eapply Ext_trans; [eapply Hm, Hrun | eapply Hh, Hrest].
  - intros [= <- <-]. eapply Hm, Hrun.
Qed.

Lemma confined_event (ev : Event) w w' :
  allowed ev ->
  trace w' = trace w ++ [ev] ->
  store w' = Dynamo.putAll (writtenItems [ev]) (store w) ->
  Ext allowed w w'.
Proof.
  intros Ha Ht Hs. exists [ev]. repeat split; auto.
Qed.

Lemma confined_sleep ms : allowed (Slept ms) -> confined allowed (sleep ms).
Proof.
  intros Ha w r w' [= <- <-]. eapply confined_event; eauto.
Qed.

End ExtFacts.

Lemma Ext_mono (a b : Event -> Prop) w w' :
  (forall ev, a ev -> b ev) -> Ext a w w' -> Ext b w w'.
Proof.
  intros Hab (evs & Ht & Ha & Hs). exists evs. repeat split; auto.
  eapply Forall_impl; eauto.
Qed.

Lemma confined_mono {A} (a b : Event -> Prop) (m : M A) :
  (forall ev, a ev -> b ev) -> confined a m -> confined b m.
Proof.
  intros Hab Hm w r w' Hrun. eapply Ext_mono; eauto.
Qed.


(** What one batch does, whatever the store answers: the command is the only
    thing sent, it is applied exactly when the loop returns, and the fuel is
    enough. *)
Lemma sendWithRetry_outcome E command len alen :
  forall fuel retryCount total w r w',
    (retryCount <= Dynamo.maxRetries)%nat ->
    Dynamo.sendWithRetry E fuel command len alen retryCount total w = (r, w') ->
    exists evs,
      trace w' = trace w ++ evs
      /\ Forall (sendsCommand command) evs
      /\ match r with
         | Ret n => n = (total + len)%nat
                    /\ writtenBatches evs = [command]
                    /\ store w' = Dynamo.putAll command (store w)
         | Throw e => writtenBatches evs = [] /\ store w' = store w
         | OutOfFuel => (fuel + retryCount <= Dynamo.maxRetries)%nat
         end.
Proof.
  induction fuel as [|fuel IH]; intros retryCount total w r w' Hrc Hrun.
  - injection Hrun as <- <-. exists []. rewrite app_nil_r.
    repeat split; [constructor | simpl; lia].
  - cbn [Dynamo.sendWithRetry] in Hrun.
    replace (retryCount <=? Dynamo.maxRetries)%nat with true in Hrun
      by (symmetry; apply Nat.leb_le; exact Hrc).
    unfold bind at 1, tryCatch, bind at 1, Dynamo.sendBatchWrite in Hrun.
    destruct (sendOutcome E (sends w)) as [[]|error].
    + (* the command went through *)
      cbn in Hrun. injection Hrun as <- <-. cbn.
      eexists [BatchPut command true; Slept _].
      split; [rewrite <- app_assoc; reflexivity|].
      split.
      * constructor; [right; eauto|].
        constructor; [left; eexists; reflexivity | constructor].
      * repeat split.
    + cbn [ret] in Hrun.
      destruct (Dynamo.isThroughputExceeded error
                && (retryCount <? Dynamo.maxRetries)%nat) eqn:Hretry.
      * apply andb_true_iff in Hretry as [_ Hlt]. apply Nat.ltb_lt in Hlt.
        unfold bind at 1, sleep in Hrun.
        apply IH in Hrun as (evs & Ht & Ha & Hr); [|lia].
        cbn in Ht, Hr.
        eexists (BatchPut command false :: Slept _ :: evs).
        split; [rewrite Ht, <- !app_assoc; reflexivity|].
        split.
        { constructor; [right; eauto|].
          constructor; [left; eexists; reflexivity | exact Ha]. }
        destruct r as [n|e|]; cbn; [exact Hr | exact Hr | lia].
      * cbn in Hrun. injection Hrun as <- <-. cbn.
        exists [BatchPut command false].
        split; [reflexivity|]. split; [|split; reflexivity].
        constructor; [right; eauto | constructor].
Qed.


Lemma sendsCommand_putsFrom t batch activities ev :
  incl batch activities ->
  sendsCommand (List.map (Item.withStoredAt t) batch) ev ->
  putsFrom activities ev.
Proof.
  intros Hincl [Hs | (ok & ->)]; [left; exact Hs | right].
  eexists _, ok. split; [reflexivity|].
  apply List.Forall_forall. intros x Hx.
  apply in_map_iff in Hx as (a & <- & Ha).
  exists a. split; [apply Hincl, Ha | exists t; reflexivity].
Qed.

Lemma storeBatches_outcome E alen :
  forall batches total w r w',
    Dynamo.storeBatches E batches alen total w = (r, w') ->
    exists evs,
      trace w' = trace w ++ evs
      /\ Forall (putsFrom (concat batches)) evs
      /\ store w' = Dynamo.putAll (writtenItems evs) (store w)
      /\ match r with
         | Ret n => n = (total + length (concat batches))%nat
                    /\ Forall2 stampedBatch (writtenBatches evs) batches
         | Throw e => exists done rest,
                        batches = done ++ rest /\ rest <> []
                        /\ Forall2 stampedBatch (writtenBatches evs) done
         | OutOfFuel => False
         end.
Proof.
  induction batches as [|batch rest IH]; intros total w r w' Hrun.
  - injection Hrun as <- <-. exists []. rewrite app_nil_r.
    repeat split; [constructor | simpl; lia | constructor].
  - cbn [Dynamo.storeBatches] in Hrun. unfold bind at 1, dateNow in Hrun.
    unfold bind at 1 in Hrun.
    destruct (Dynamo.sendWithRetry E (S Dynamo.maxRetries)
                (List.map (Item.withStoredAt (clock w)) batch) (length batch)
                alen 0 total w) as [r1 w1] eqn:Hbatch.
    apply sendWithRetry_outcome in Hbatch as (e1 & Ht1 & Ha1 & Hr1); [|lia].
    assert (Ha1' : Forall (putsFrom (concat (batch :: rest))) e1).
    { eapply Forall_impl; [exact Ha1|]. intros ev.
      apply sendsCommand_putsFrom. simpl. intros x Hx.
      apply in_or_app. left. exact Hx. }
    destruct r1 as [n|e|].
    + destruct Hr1 as (-> & Hw1 & Hs1).
      apply IH in Hrun as (e2 & Ht2 & Ha2 & Hs2 & Hr2).
      exists (e1 ++ e2). split; [rewrite Ht2, Ht1, app_assoc; reflexivity|].
      split.
      { apply Forall_app. split; [exact Ha1'|].
        eapply Forall_impl; [exact Ha2|]. intros ev [Hs|(items & ok & -> & Hi)];
          [left; exact Hs | right].
        eexists _, ok. split; [reflexivity|].
        eapply Forall_impl; [exact Hi|]. intros x (a & Hin & Hst).
        exists a. split; [simpl; apply in_or_app; right; exact Hin | exact Hst]. }
      split.
      { assert (Hwi : writtenItems e1
                      = List.map (Item.withStoredAt (clock w)) batch).
        { unfold writtenItems. rewrite Hw1. simpl. apply app_nil_r. }
        rewrite Hs2, Hs1, writtenItems_app, putAll_app, Hwi. reflexivity. }
      rewrite writtenBatches_app, Hw1.
      destruct r as [n|e|].
      * destruct Hr2 as (-> & Hf). split.
        { simpl. rewrite length_app. lia. }
        simpl. constructor; [eexists; reflexivity | exact Hf].
      * destruct Hr2 as (done & rest' & -> & Hne & Hf).
        exists (batch :: done), rest'. repeat split; auto.
        simpl. constructor; [eexists; reflexivity | exact Hf].
      * exact Hr2.
    + injection Hrun as <- <-. destruct Hr1 as (Hw1 & Hs1).
      exists e1. split; [exact Ht1|]. split; [exact Ha1'|].
      split.
      { unfold writtenItems. rewrite Hw1. exact Hs1. }
      exists [], (batch :: rest). rewrite Hw1. repeat split; [discriminate|constructor].
    + unfold Dynamo.maxRetries in Hr1. lia.
Qed.

Lemma sliceLoop_spec {A} (l : list A) :
  forall fuel i acc,
    (length l - i < fuel)%nat ->
    exists bs,
      Dynamo.sliceLoop fuel i l acc = Some (acc ++ bs)
      /\ concat bs = skipn i l
      /\ length bs = ((length l - i + 24) / 25)%nat
      /\ Forall (fun b => (1 <= length b <= 25)%nat) bs.
Proof.
  induction fuel as [|fuel IH]; intros i acc Hfuel; [lia|].
  cbn [Dynamo.sliceLoop].
  destruct (i <? length l)%nat eqn:Hlt.
  - apply Nat.ltb_lt in Hlt.
    destruct (IH (i + Dynamo.batchSize)%nat
                 (acc ++ [Dynamo.slice i (i + Dynamo.batchSize) l]))
      as (bs & Hrun & Hcat & Hlen & Hall);
      [unfold Dynamo.batchSize; lia|].
    unfold Dynamo.batchSize in *.
    exists (Dynamo.slice i (i + 25) l :: bs).
    split; [rewrite Hrun, <- app_assoc; reflexivity|].
    unfold Dynamo.slice. replace (i + 25 - i)%nat with 25%nat by lia.
    split; [|split].
    + simpl. rewrite Hcat.
      rewrite <- (take_drop 25 (drop i l)) at 2.
      rewrite drop_drop. reflexivity.
    + cbn [length]. rewrite Hlen.
      destruct (Nat.le_gt_cases 25 (length l - i)) as [Hbig|Hsmall].
      * replace (length l - i + 24)%nat
          with (length l - (i + 25) + 24 + 1 * 25)%nat by lia.
        rewrite Nat.div_add by lia. lia.
      * replace (length l - (i + 25))%nat with 0%nat by lia.
        change ((0 + 24) / 25)%nat with 0%nat.
        apply (Nat.div_unique _ 25 1 (length l - i - 1)); lia.
    + constructor; [|exact Hall].
      rewrite length_take, length_drop. lia.
  - apply Nat.ltb_ge in Hlt. exists []. rewrite app_nil_r.
    split; [reflexivity|]. split; [|split].
    + simpl. symmetry. apply drop_ge. lia.
    + replace (length l - i)%nat with 0%nat by lia. reflexivity.
    + constructor.
Qed.

Lemma makeBatches_spec {A} (l : list A) :
  exists bs,
    Dynamo.makeBatches l = Some bs
    /\ concat bs = l
    /\ length bs = ((length l + 24) / 25)%nat
    /\ Forall (fun b => (1 <= length b <= 25)%nat) bs.
Proof.
  destruct (sliceLoop_spec l (S (length l)) 0 []) as (bs & Hrun & Hcat & Hlen & Hall);
    [lia|].
  exists bs. unfold Dynamo.makeBatches. rewrite Hrun.
  rewrite Nat.sub_0_r in Hlen. auto.
Qed.

(** The batch loop over a list that is split in two. *)
Lemma storeBatches_app E alen xs ys :
  forall total w,
    Dynamo.storeBatches E (xs ++ ys) alen total w
    = match Dynamo.storeBatches E xs alen total w with
      | (Ret t, w1) => Dynamo.storeBatches E ys alen t w1
      | other => other
      end.
Proof.
  induction xs as [|x xs IH]; intros total w; [reflexivity|].
  cbn [app Dynamo.storeBatches]. unfold bind, dateNow.
  destruct (Dynamo.sendWithRetry E (S Dynamo.maxRetries) _ _ _ _ _ w)
    as [[t|e|] w1]; [apply IH | reflexivity | reflexivity].
Qed.

(** The first attempt and the three retries all rejected for throughput:
    the error leaves the loop after the waits of 2, 4 and 8 seconds. *)
Lemma sendWithRetry_exhausted E command len alen total w e :
  Dynamo.isThroughputExceeded e = true ->
  (forall k, (k < 4)%nat -> sendOutcome E (sends w + k) = Rejected e) ->
  Dynamo.sendWithRetry E (S Dynamo.maxRetries) command len alen 0 total w
  = (Throw e,
     mkWorld (store w) (clock w + 2000 + 4000 + 8000) (lastApiCall w)
       (S (S (S (S (sends w))))) (requests w)
       (trace w ++ [BatchPut command false; Slept 2000;
                    BatchPut command false; Slept 4000;
                    BatchPut command false; Slept 8000;
                    BatchPut command false])).
Proof.
  intros He Hout.
  pose proof (Hout 0%nat ltac:(lia)) as H0.
  pose proof (Hout 1%nat ltac:(lia)) as H1.
  pose proof (Hout 2%nat ltac:(lia)) as H2.
  pose proof (Hout 3%nat ltac:(lia)) as H3.
  rewrite Nat.add_0_r in H0.
  replace (sends w + 1)%nat with (S (sends w)) in H1 by lia.
  replace (sends w + 2)%nat with (S (S (sends w))) in H2 by lia.
  replace (sends w + 3)%nat with (S (S (S (sends w)))) in H3 by lia.
  unfold Dynamo.maxRetries.
  cbn [Dynamo.sendWithRetry]. unfold Dynamo.maxRetries.
  unfold bind, tryCatch, Dynamo.sendBatchWrite, sleep, ret, throw.
  cbn [Nat.leb Nat.ltb sends store clock lastApiCall requests trace].
  rewrite H0, He. cbn [andb Nat.leb]. 
  cbn [sends store clock lastApiCall requests trace].
  rewrite H1, He. cbn [andb Nat.leb].
  cbn [sends store clock lastApiCall requests trace].
  rewrite H2, He. cbn [andb Nat.leb].
  cbn [sends store clock lastApiCall requests trace].
  rewrite H3, He. cbn [andb Nat.leb].
  rewrite <- !app_assoc. reflexivity.
Qed.

Lemma putBatches_app evs1 evs2 :
  putBatches (evs1 ++ evs2) = putBatches evs1 ++ putBatches evs2.
Proof. unfold putBatches. apply flat_map_app. Qed.

(** With a store that accepts every command, each batch is sent once. *)
Lemma storeBatches_no_failure E alen :
  (forall n, sendOutcome E n = Replied tt) ->
  forall batches total w,
    exists w' evs,
      Dynamo.storeBatches E batches alen total w
      = (Ret (total + length (concat batches))%nat, w')
      /\ trace w' = trace w ++ evs
      /\ Forall2 stampedBatch (putBatches evs) batches.
Proof.
  intros Hok. induction batches as [|batch rest IH]; intros total w.
  - exists w, []. cbn. rewrite app_nil_r, Nat.add_0_r.
    repeat split. constructor.
  - cbn [Dynamo.storeBatches]. unfold bind at 1, dateNow. unfold bind at 1.
    unfold Dynamo.maxRetries. cbn [Dynamo.sendWithRetry].
    unfold Dynamo.maxRetries. cbn [Nat.leb].
    unfold bind at 1, tryCatch, bind at 1, Dynamo.sendBatchWrite.
    rewrite Hok. cbn [ret]. unfold bind at 1, sleep. cbn [ret].
    match goal with
    | |- context [Dynamo.storeBatches E rest alen ?t ?w1] =>
        destruct (IH t w1) as (w' & evs & Hrun & Ht & Hf)
    end.
    exists w'. eexists (BatchPut _ true :: Slept _ :: evs).
    rewrite Hrun. split; [|split].
    + f_equal. f_equal. cbn [concat]. rewrite length_app. lia.
    + rewrite Ht. cbn [trace]. rewrite <- !app_assoc. reflexivity.
    + cbn. constructor; [eexists; reflexivity | exact Hf].
Qed.



(** C2 (as amended).  [storeActivities] splits its input, in order, into
    ceil(N / 25) batches of 1 to 25 items.  A run that returns has written
    exactly these batches, in order; with a store that accepts every command
    each batch is sent exactly once.  When the first attempt and the three
    retries of one batch (four sends in a row, after waits of 2, 4 and 8
    seconds) are all rejected for exceeded throughput, the error leaves
    [storeActivities]: no later batch is sent, and the store keeps what the
    earlier batches wrote. *)
Theorem storeActivities_batching (E : Env) (activities : list Item.Activity) :
  exists batches,
    Dynamo.makeBatches activities = Some batches
    /\ concat batches = activities
    /\ length batches = ((length activities + 24) / 25)%nat
    /\ Forall (fun b => (1 <= length b <= 25)%nat) batches
    /\ (forall w n w',
          Dynamo.storeActivities E activities w = (Ret n, w') ->
          n = length activities
          /\ exists evs, trace w' = trace w ++ evs
                         /\ Forall2 stampedBatch (writtenBatches evs) batches)
    /\ (forall w,
          (forall n, sendOutcome E n = Replied tt) ->
          exists w' evs,
            Dynamo.storeActivities E activities w
            = (Ret (length activities), w')
            /\ trace w' = trace w ++ evs
            /\ Forall2 stampedBatch (putBatches evs) batches)
    /\ (forall done batch rest w total w1 e,
          batches = done ++ batch :: rest ->
          Dynamo.storeBatches E done (length activities) 0 w = (Ret total, w1) ->
          Dynamo.isThroughputExceeded e = true ->
          (forall k, (k < 4)%nat -> sendOutcome E (sends w1 + k) = Rejected e) ->
          exists w2,
            Dynamo.storeActivities E activities w = (Throw e, w2)
            /\ store w2 = store w1
            /\ trace w2
               = trace w1
                 ++ (let command :=
                       List.map (Item.withStoredAt (clock w1)) batch in
                     [BatchPut command false; Slept 2000;
                      BatchPut command false; Slept 4000;
                      BatchPut command false; Slept 8000;
                      BatchPut command false])).
Proof.
  destruct (makeBatches_spec activities) as (batches & Hmk & Hcat & Hlen & Hall).
  exists batches. repeat (split; [assumption|]).
  assert (Hrun : forall w,
             Dynamo.storeActivities E activities w
             = Dynamo.storeBatches E batches (length activities) 0 w).
  { intros w. unfold Dynamo.storeActivities, bind. rewrite Hmk. reflexivity. }
  split; [|split].
  - intros w n w' Hret. rewrite Hrun in Hret.
    apply storeBatches_outcome in Hret as (evs & Ht & _ & _ & -> & Hf).
    rewrite Hcat. split; [reflexivity|]. exists evs. split; assumption.
  - intros w Hok.
    destruct (storeBatches_no_failure E (length activities) Hok batches 0%nat w)
      as (w' & evs & Hret & Ht & Hf).
    exists w', evs. rewrite Hrun, Hret, Hcat. repeat split; assumption.
  - intros done batch rest w total w1 e -> Hdone He Hout.
    rewrite Hrun, storeBatches_app, Hdone.
    cbn [Dynamo.storeBatches]. unfold bind at 1, dateNow. unfold bind at 1.
    rewrite (sendWithRetry_exhausted E _ _ _ _ w1 e He Hout).
    eexists. split; [reflexivity|]. split; reflexivity.
Qed.

Lemma storeActivities_batching_witness :
  exists w2,
    Dynamo.storeActivities (Samples.throttledEnv 4) [Samples.morningRun]
      Samples.world0
    = (Throw Samples.throughputError, w2)
    /\ store w2 = store Samples.world0.
Proof.
  destruct (storeActivities_batching (Samples.throttledEnv 4)
              [Samples.morningRun])
    as (batches & Hmk & _ & _ & _ & _ & _ & Hfail).
  injection Hmk as <-.
  destruct (Hfail [] [Samples.morningRun] [] Samples.world0 0%nat
              Samples.world0 Samples.throughputError)
    as (w2 & Hrun & Hstore & _).
  - reflexivity.
  - reflexivity.
  - reflexivity.
  - intros k Hk. simpl.
    destruct k as [|[|[|[|k]]]]; try reflexivity. lia.
  - exists w2. split; [exact Hrun | exact Hstore].
Defined.

(** C2 as worded fails on the code: after three throughput failures in a
    row the batch is sent a fourth time; when that attempt goes through the
    run completes. *)
Lemma three_failures_do_not_abort :
  (forall k, (k < 3)%nat ->
             sendOutcome (Samples.throttledEnv 3) (sends Samples.world0 + k)
             = Rejected Samples.throughputError)
  /\ (exists w',
        Dynamo.storeActivities (Samples.throttledEnv 3) [Samples.morningRun]
          Samples.world0 = (Ret 1%nat, w')
        /\ store w' !! 1
           = Some (Item.withStoredAt (clock Samples.world0) Samples.morningRun))
  /\ ~ AsStated.AbortsAfterThreeFailures.
Proof.
  assert (Hout : forall k, (k < 3)%nat ->
             sendOutcome (Samples.throttledEnv 3) (sends Samples.world0 + k)
             = Rejected Samples.throughputError).
  { intros k Hk. simpl. destruct k as [|[|[|k]]]; try reflexivity. lia. }
  split; [exact Hout|]. split.
  - eexists. split; [vm_compute; reflexivity|]. vm_compute. reflexivity.
  - intros Hclaim.
    destruct (Hclaim (Samples.throttledEnv 3) [Samples.morningRun]
                Samples.world0 Samples.throughputError)
      as (w' & Hrun); [discriminate | reflexivity | exact Hout |].
    vm_compute in Hrun. discriminate.
Qed.

(* --------------------------------------------------------------------- *)
(** ** Lookups after a batch of puts *)
(* --------------------------------------------------------------------- *)

Lemma putAll_lookup_notin items (st : gmap Z Item.Activity) k :
  ~ In k (List.map Item.id items) ->
  Dynamo.putAll items st !! k = st !! k.
Proof.
  revert st. induction items as [|x items IH]; intros st Hk; [reflexivity|].
  cbn [Dynamo.putAll fold_left]. fold (Dynamo.putAll items (<[Item.id x := x]> st)).
  rewrite IH by (intros Hin; apply Hk; right; exact Hin).
  apply lookup_insert_ne. intros Heq. apply Hk. left. exact Heq.
Qed.

Lemma putAll_lookup_in items (st : gmap Z Item.Activity) k :
  In k (List.map Item.id items) ->
  exists x, In x items /\ Item.id x = k /\ Dynamo.putAll items st !! k = Some x.
Proof.
  revert st. induction items as [|x items IH]; intros st Hk; [destruct Hk|].
  cbn [Dynamo.putAll fold_left]. fold (Dynamo.putAll items (<[Item.id x := x]> st)).
  destruct (in_dec Z.eq_dec k (List.map Item.id items)) as [Hin|Hnin].
  - destruct (IH (<[Item.id x := x]> st) Hin) as (y & Hy & Hid & Hl).
    exists y. repeat split; [right; exact Hy | exact Hid | exact Hl].
  - destruct Hk as [Heq|Hin]; [|contradiction].
    exists x. repeat split; [left; reflexivity | exact Heq|].
    rewrite putAll_lookup_notin by exact Hnin.
    rewrite <- Heq. apply lookup_insert_eq.
Qed.

Lemma putAll_keeps_keys items (st : gmap Z Item.Activity) k :
  is_Some (st !! k) -> is_Some (Dynamo.putAll items st !! k).
Proof.
  intros Hk.
  destruct (in_dec Z.eq_dec k (List.map Item.id items)) as [Hin|Hnin].
  - destruct (putAll_lookup_in items st k Hin) as (x & _ & _ & ->). eauto.
  - rewrite putAll_lookup_notin by exact Hnin. exact Hk.
Qed.


(* --------------------------------------------------------------------- *)
(** ** The pure helpers on the documented values *)
(* --------------------------------------------------------------------- *)

Example formatDuration_examples :
  Server.formatDuration 45 = "00:45"%string
  /\ Server.formatDuration 125 = "02:05"%string
  /\ Server.formatDuration 3725 = "01:02:05"%string.
Proof. repeat split; reflexivity. Qed.

Example toFixed1_example :
  Server.toFixed1 (JS.divide 12345 1000) = "12.3"%string.
Proof. vm_compute. reflexivity. Qed.

Example mapStravaType_examples :
  Server.mapStravaType "Walk" = Some "run"%string
  /\ Server.mapStravaType "Hike" = Some "run"%string
  /\ Server.mapStravaType "TrailRun" = Some "run"%string
  /\ Server.mapStravaType "VirtualRide" = None
  /\ Server.mapStravaType "VirtualRun" = None.
Proof. repeat split; reflexivity. Qed.

(* --------------------------------------------------------------------- *)
(** ** What each function may do to the outside *)
(* --------------------------------------------------------------------- *)

Lemma stampCall_confined allowed apiName :
  confined allowed (Geo.stampCall apiName).
Proof.
  intros w r w' [= <- <-]. exists []. rewrite app_nil_r.
  repeat split. constructor.
Qed.

Lemma axiosGet_confined allowed {A} (replies : nat -> Reply A) :
  confined allowed (Geo.axiosGet replies).
Proof.
  intros w r w' Hrun. unfold Geo.axiosGet, awaitReply in Hrun.
  exists []. rewrite app_nil_r.
  destruct (replies (requests w)); injection Hrun as <- <-;
    repeat split; constructor.
Qed.

Ltac confine_using known :=
  repeat first
    [ known
    | apply confined_ret | apply confined_throw | apply confined_outOfFuel
    | apply confined_liftOption | apply confined_awaitReply
    | apply confined_dateNow | apply confined_readLastApiCall
    | apply stampCall_confined | apply axiosGet_confined
    | apply confined_bind; [|intros]
    | apply confined_tryCatch; [|intros]
    | apply confined_sleep; eexists; reflexivity
    | progress case_match ].

Ltac confine := confine_using fail.

Lemma rateLimitedCall_confined apiName minIntervalMs :
  confined isSlept (Geo.rateLimitedCall apiName minIntervalMs).
Proof.
  unfold Geo.rateLimitedCall. confine.
Qed.

Lemma getCountryFromCoordinates_confined E startLatlng :
  confined isSlept (Geo.getCountryFromCoordinates E startLatlng).
Proof.
  unfold Geo.getCountryFromCoordinates, Geo.tryTier,
    Geo.getCountryFromGoogle, Geo.getCountryFromNominatim.
  confine.
Qed.

Lemma processActivity_confined E activity :
  confined isSlept (Server.processActivity E activity).
Proof.
  unfold Server.processActivity.
  confine_using ltac:(apply getCountryFromCoordinates_confined).
Qed.

Lemma processPage_confined E pageActivities :
  forall activities,
    confined isSlept (Server.processPage E pageActivities activities).
Proof.
  induction pageActivities as [|activity rest IH]; intros activities;
    cbn [Server.processPage]; [apply confined_ret|].
  apply confined_bind; [apply processActivity_confined|].
  intros [processed|]; apply IH.
Qed.

Lemma fetchLoop_confined E accessToken :
  forall fuel page activities,
    confined isSlept (Server.fetchLoop E fuel accessToken page activities).
Proof.
  induction fuel as [|fuel IH]; intros page activities;
    cbn [Server.fetchLoop]; [apply confined_outOfFuel|].
  apply confined_bind; [apply confined_awaitReply|]. intros pageActivities.
  destruct (length pageActivities =? 0)%nat; [apply confined_ret|].
  apply confined_bind; [apply processPage_confined|]. intros activities'.
  apply confined_bind; [apply confined_sleep; eexists; reflexivity|].
  intros _. apply IH.
Qed.

(** Events that write nothing leave the store as it was. *)
Lemma Ext_readonly allowed w w' :
  (forall ev, allowed ev -> writtenBatches [ev] = []) ->
  Ext allowed w w' -> store w' = store w.
Proof.
  intros Hro (evs & _ & Hall & ->).
  replace (writtenItems evs) with (@nil Item.Activity); [reflexivity|].
  unfold writtenItems. induction Hall as [|ev evs Hev _ IH]; [reflexivity|].
  change (ev :: evs) with ([ev] ++ evs).
  rewrite writtenBatches_app, (Hro ev Hev). exact IH.
Qed.

Lemma isSlept_readonly ev : isSlept ev -> writtenBatches [ev] = [].
Proof. intros [ms ->]. reflexivity. Qed.

(* --------------------------------------------------------------------- *)
(** ** The list view only yields runs, rides and swims *)
(* --------------------------------------------------------------------- *)

Lemma processActivity_supported E activity w a w' :
  Server.processActivity E activity w = (Ret (Some a), w') ->
  supported a /\ Item.id a = Strava.id activity.
Proof.
  unfold Server.processActivity, bind, ret, throw. intros Hrun.
  destruct (Server.skippedAsVirtual activity); [discriminate|].
  destruct (Server.isSupportedType (Server.mapStravaType (Strava.type activity)))
    eqn:Hty; [|discriminate].
  cbn [negb] in Hrun.
  destruct (Server.lacksPolylines activity); [discriminate|].
  match type of Hrun with
  | context [match ?m w with _ => _ end] => destruct (m w) as [[cs|e|] w1]
  end; try discriminate.
  destruct (length cs <? 3)%nat; [discriminate|].
  destruct cs as [|c cs]; [discriminate|].
  destruct (Geo.getCountryFromCoordinates E _ w1) as [[country|e|] w2];
    try discriminate.
  injection Hrun as <- <-. split; [exact Hty | reflexivity].
Qed.

Lemma processPage_supported E pageActivities :
  forall activities w result w',
    Server.processPage E pageActivities activities w = (Ret result, w') ->
    Forall supported activities -> Forall supported result.
Proof.
  induction pageActivities as [|activity rest IH];
    intros activities w result w' Hrun Hacc.
  - injection Hrun as <- <-. exact Hacc.
  - cbn [Server.processPage] in Hrun. unfold bind at 1 in Hrun.
    destruct (Server.processActivity E activity w) as [[[a|]|e|] w1] eqn:Hp;
      try discriminate.
    + apply processActivity_supported in Hp as [Hs _].
      eapply IH; [exact Hrun|]. apply Forall_app. split; [exact Hacc|].
      constructor; [exact Hs | constructor].
    + eapply IH; eassumption.
Qed.

Lemma fetchLoop_supported E accessToken :
  forall fuel page activities w result w',
    Server.fetchLoop E fuel accessToken page activities w = (Ret result, w') ->
    Forall supported activities -> Forall supported result.
Proof.
  induction fuel as [|fuel IH]; intros page activities w result w' Hrun Hacc;
    [discriminate|].
  cbn [Server.fetchLoop] in Hrun. unfold bind at 1 in Hrun.
  destruct (awaitReply (stravaPage E accessToken page) w)
    as [[pageActivities|e|] w1]; try discriminate.
  destruct (length pageActivities =? 0)%nat.
  - injection Hrun as <- <-. exact Hacc.
  - unfold bind at 1 in Hrun.
    destruct (Server.processPage E pageActivities activities w1)
      as [[activities'|e|] w2] eqn:Hp; try discriminate.
    apply processPage_supported in Hp; [|exact Hacc].
    unfold bind at 1, sleep in Hrun.
    eapply IH; eassumption.
Qed.

(* --------------------------------------------------------------------- *)
(** ** The gateway functions the pipeline calls *)
(* --------------------------------------------------------------------- *)

(** [activityExists] in one equation: it answers, and answers [false] when
    the lookup is rejected. *)
Lemma activityExists_run E activityId w :
  Dynamo.activityExists E activityId w
  = match sendOutcome E (sends w) with
    | Replied _ =>
        (Ret (match store w !! activityId with Some _ => true | None => false end),
         mkWorld (store w) (clock w) (lastApiCall w) (S (sends w))
           (requests w) (trace w ++ [GetItem activityId true]))
    | Rejected _ =>
        (Ret false,
         mkWorld (store w) (clock w) (lastApiCall w) (S (sends w))
           (requests w) (trace w ++ [GetItem activityId false]))
    end.
Proof.
  unfold Dynamo.activityExists, tryCatch, bind, Dynamo.sendGet.
  destruct (sendOutcome E (sends w)); reflexivity.
Qed.

Lemma getActivityCount_run E athleteId w :
  exists n ok,
    Dynamo.getActivityCount E athleteId w
    = (Ret n, mkWorld (store w) (clock w) (lastApiCall w) (S (sends w))
                (requests w) (trace w ++ [Query athleteId ok])).
Proof.
  unfold Dynamo.getActivityCount, tryCatch, bind, Dynamo.sendQuery.
  destruct (sendOutcome E (sends w)); eexists _, _; reflexivity.
Qed.

(** The duplicate check of the incremental mode.  It never fails and never
    writes; a record is kept when its lookup found nothing or was rejected,
    and counted as skipped otherwise. *)
Lemma checkDuplicates_run E athlete_id newActivities :
  forall toStore skipped w,
    exists added extra w' evs,
      Server.checkDuplicates E athlete_id newActivities toStore skipped w
      = (Ret (toStore ++ added, (skipped + extra)%nat), w')
      /\ trace w' = trace w ++ evs
      /\ store w' = store w
      /\ Forall isGet evs
      /\ lookedUp evs = List.map Item.id newActivities
      /\ (length added + extra = length newActivities)%nat
      /\ Forall (fun x => exists a,
                     In a newActivities
                     /\ x = Item.withAthleteId athlete_id a
                     /\ (store w !! Item.id a = None
                         \/ In (GetItem (Item.id a) false) evs)) added
      /\ (forall id, In (GetItem id false) evs ->
                     exists a, In a newActivities /\ Item.id a = id
                               /\ In (Item.withAthleteId athlete_id a) added).
Proof.
  induction newActivities as [|activity rest IH]; intros toStore skipped w.
  - exists [], 0%nat, w, []. cbn.
    rewrite !app_nil_r, Nat.add_0_r.
    repeat split; try constructor. intros id [].
  - cbn [Server.checkDuplicates]. unfold bind at 1.
    rewrite activityExists_run.
    destruct (sendOutcome E (sends w)) as [[]|error].
    + destruct (store w !! Item.id activity) as [old|] eqn:Hold; cbn [negb].
      * (* present: skipped *)
        match goal with
        | |- context [Server.checkDuplicates E athlete_id rest toStore ?s ?w1] =>
            destruct (IH toStore s w1)
              as (added & extra & w' & evs & Hrun & Ht & Hs & Hg & Hlook & Hlen & Hadd & Hfail)
        end.
        exists added, (S extra), w', (GetItem (Item.id activity) true :: evs).
        rewrite Hrun. cbn [trace store] in Ht, Hs, Hadd.
        split; [f_equal; f_equal; f_equal; lia|].
        split; [rewrite Ht, <- app_assoc; reflexivity|].
        split; [exact Hs|].
        split; [constructor; [eexists _, _; reflexivity | exact Hg]|].
        split; [unfold lookedUp in *; cbn; rewrite Hlook; reflexivity|].
        split; [cbn [length]; lia|].
        split.
        { eapply Forall_impl; [exact Hadd|].
          intros x (a & Hin & -> & Hwhy). exists a.
          split; [right; exact Hin|]. split; [reflexivity|].
          destruct Hwhy as [Hnone|Hf]; [left; exact Hnone | right; right; exact Hf]. }
        intros id [Heq|Hin]; [discriminate|].
        destruct (Hfail id Hin) as (a & Ha & Hid & Hadded).
        exists a. split; [right; exact Ha | split; assumption].
      * (* absent: kept *)
        match goal with
        | |- context [Server.checkDuplicates E athlete_id rest ?t skipped ?w1] =>
            destruct (IH t skipped w1)
              as (added & extra & w' & evs & Hrun & Ht & Hs & Hg & Hlook & Hlen & Hadd & Hfail)
        end.
        exists (Item.withAthleteId athlete_id activity :: added), extra, w',
          (GetItem (Item.id activity) true :: evs).
        rewrite Hrun. cbn [trace store] in Ht, Hs, Hadd.
        split; [rewrite <- app_assoc; reflexivity|].
        split; [rewrite Ht, <- app_assoc; reflexivity|].
        split; [exact Hs|].
        split; [constructor; [eexists _, _; reflexivity | exact Hg]|].
        split; [unfold lookedUp in *; cbn; rewrite Hlook; reflexivity|].
        split; [cbn [length]; lia|].
        split.
        { constructor.
          - exists activity. split; [left; reflexivity|].
            split; [reflexivity | left; exact Hold].
          - eapply Forall_impl; [exact Hadd|].
            intros x (a & Hin & -> & Hwhy). exists a.
            split; [right; exact Hin|]. split; [reflexivity|].
            destruct Hwhy as [Hnone|Hf];
              [left; exact Hnone | right; right; exact Hf]. }
        intros id [Heq|Hin]; [discriminate|].
        destruct (Hfail id Hin) as (a & Ha & Hid & Hadded).
        exists a. split; [right; exact Ha | split; [exact Hid | right; exact Hadded]].
    + (* the lookup was rejected: kept *)
      cbn [negb].
      match goal with
      | |- context [Server.checkDuplicates E athlete_id rest ?t skipped ?w1] =>
          destruct (IH t skipped w1)
            as (added & extra & w' & evs & Hrun & Ht & Hs & Hg & Hlook & Hlen & Hadd & Hfail)
      end.
      exists (Item.withAthleteId athlete_id activity :: added), extra, w',
        (GetItem (Item.id activity) false :: evs).
      rewrite Hrun. cbn [trace store] in Ht, Hs, Hadd.
      split; [rewrite <- app_assoc; reflexivity|].
      split; [rewrite Ht, <- app_assoc; reflexivity|].
      split; [exact Hs|].
      split; [constructor; [eexists _, _; reflexivity | exact Hg]|].
      split; [unfold lookedUp in *; cbn; rewrite Hlook; reflexivity|].
      split; [cbn [length]; lia|].
      split.
      { constructor.
        - exists activity. split; [left; reflexivity|].
          split; [reflexivity | right; left; reflexivity].
        - eapply Forall_impl; [exact Hadd|].
          intros x (a & Hin & -> & Hwhy). exists a.
          split; [right; exact Hin|]. split; [reflexivity|].
          destruct Hwhy as [Hnone|Hf];
            [left; exact Hnone | right; right; exact Hf]. }
      intros id [Heq|Hin].
      * injection Heq as <-. exists activity.
        split; [left; reflexivity | split; [reflexivity | left; reflexivity]].
      * destruct (Hfail id Hin) as (a & Ha & Hid & Hadded).
        exists a. split; [right; exact Ha | split; [exact Hid | right; exact Hadded]].
Qed.

Lemma stampedBatches_items written batches :
  Forall2 stampedBatch written batches ->
  Forall2 stampOf (concat written) (concat batches).
Proof.
  induction 1 as [|sent batch written batches [t ->] _ IH]; [constructor|].
  cbn [concat]. apply Forall2_app; [|exact IH].
  clear. induction batch as [|a batch IH]; constructor;
    [exists t; reflexivity | exact IH].
Qed.

(** What [storeActivities] does, whatever the store answers: it sends only
    stamped copies of its input, the store holds what went through, and a
    run that returns has written every item, in order. *)
Lemma storeActivities_outcome E activities w r w' :
  Dynamo.storeActivities E activities w = (r, w') ->
  exists evs,
    trace w' = trace w ++ evs
    /\ Forall (putsFrom activities) evs
    /\ store w' = Dynamo.putAll (writtenItems evs) (store w)
    /\ match r with
       | Ret n => n = length activities
                  /\ Forall2 stampOf (writtenItems evs) activities
       | Throw _ => True
       | OutOfFuel => False
       end.
Proof.
  intros Hrun.
  destruct (makeBatches_spec activities) as (batches & Hmk & Hcat & _ & _).
  unfold Dynamo.storeActivities, bind in Hrun. rewrite Hmk in Hrun.
  cbn [liftOption ret] in Hrun.
  apply storeBatches_outcome in Hrun as (evs & Ht & Ha & Hs & Hr).
  rewrite Hcat in Ha. exists evs. repeat (split; [assumption|]).
  destruct r as [n|e|]; [|exact I | exact Hr].
  destruct Hr as (-> & Hf). rewrite Hcat. split; [reflexivity|].
  rewrite <- Hcat. apply stampedBatches_items, Hf.
Qed.

Lemma writtenItems_readonly allowed evs :
  (forall ev, allowed ev -> writtenBatches [ev] = []) ->
  Forall allowed evs -> writtenItems evs = [].
Proof.
  intros Hro Hall. unfold writtenItems.
  induction Hall as [|ev evs Hev _ IH]; [reflexivity|].
  change (ev :: evs) with ([ev] ++ evs).
  rewrite writtenBatches_app, (Hro ev Hev). exact IH.
Qed.

Lemma isGet_readonly ev : isGet ev -> writtenBatches [ev] = [].
Proof. intros (id & ok & ->). reflexivity. Qed.

Lemma fetch_keeps_store E fuel accessToken w r w1 :
  Server.fetchStravaActivities E fuel accessToken w = (r, w1) ->
  store w1 = store w /\ exists evs, trace w1 = trace w ++ evs /\ Forall isSlept evs.
Proof.
  intros Hrun. apply fetchLoop_confined in Hrun.
  split; [eapply Ext_readonly; [apply isSlept_readonly | exact Hrun]|].
  destruct Hrun as (evs & Ht & Ha & _). eauto.
Qed.

(** A run in full mode, once the fetch has returned. *)
Lemma sync_full_run E fuel athlete_id accessToken w fetched w1 :
  Server.fetchStravaActivities E fuel accessToken w = (Ret fetched, w1) ->
  let sent := List.map (Item.withAthleteId athlete_id) fetched in
  exists r w' evs,
    Server.performBackgroundSync E fuel athlete_id accessToken true w
    = (Ret r, w')
    /\ trace w' = trace w1 ++ evs
    /\ Forall (fun ev => putsFrom sent ev \/ isQuery ev) evs
    /\ store w' = Dynamo.putAll (writtenItems evs) (store w1)
    /\ (forall report, r = Some report ->
          Server.storedCount report = length fetched
          /\ Server.skippedCount report = 0%nat
          /\ Forall2 stampOf (writtenItems evs) sent).
Proof.
  intros Hfetch sent.
  unfold Server.performBackgroundSync, tryCatch. unfold bind at 1.
  rewrite Hfetch. unfold bind at 1. unfold bind at 1.
  destruct (Dynamo.storeActivities E sent w1) as [r2 w2] eqn:Hstore.
  fold sent. rewrite Hstore.
  apply storeActivities_outcome in Hstore as (evs & Ht & Ha & Hs & Hr).
  destruct r2 as [n|e|]; [| |destruct Hr].
  - destruct Hr as (-> & Hf). cbn [ret]. unfold bind at 1.
    destruct (getActivityCount_run E athlete_id w2) as (total & ok & ->).
    eexists _, _, (evs ++ [Query athlete_id ok]).
    split; [reflexivity|]. cbn [trace store].
    split; [rewrite Ht, app_assoc; reflexivity|].
    split.
    { apply Forall_app. split.
      - eapply Forall_impl; [exact Ha|]. intros ev Hev. left. exact Hev.
      - constructor; [right; eexists _, _; reflexivity | constructor]. }
    assert (Hw : writtenItems (evs ++ [Query athlete_id ok]) = writtenItems evs).
    { rewrite writtenItems_app. cbn. apply app_nil_r. }
    rewrite Hw. split; [exact Hs|].
    intros report [= <-]. cbn. unfold sent at 1. rewrite length_map.
    repeat split. exact Hf.
  - exists None, w2, evs. cbn [ret].
    split; [reflexivity|]. split; [exact Ht|].
    split; [eapply Forall_impl; [exact Ha|]; intros ev Hev; left; exact Hev|].
    split; [exact Hs|]. intros report [=].
Qed.

Lemma putsFrom_written activities evs :
  Forall (putsFrom activities) evs ->
  Forall (fun x => exists a, In a activities /\ stampOf x a) (writtenItems evs).
Proof.
  intros Hall. unfold writtenItems.
  induction Hall as [|ev evs Hev _ IH]; [constructor|].
  change (ev :: evs) with ([ev] ++ evs).
  rewrite writtenBatches_app, concat_app. apply Forall_app. split; [|exact IH].
  destruct Hev as [[ms ->] | (items & ok & -> & Hitems)]; [constructor|].
  destruct ok; cbn; [rewrite app_nil_r; exact Hitems | constructor].
Qed.

(** A run in incremental mode, once the fetch has returned. *)
Lemma lookedUp_app evs1 evs2 :
  lookedUp (evs1 ++ evs2) = lookedUp evs1 ++ lookedUp evs2.
Proof. unfold lookedUp. apply flat_map_app. Qed.

Lemma sync_incremental_run E fuel athlete_id accessToken w fetched w1 :
  Server.fetchStravaActivities E fuel accessToken w = (Ret fetched, w1) ->
  exists r w' evs,
    Server.performBackgroundSync E fuel athlete_id accessToken false w
    = (Ret r, w')
    /\ trace w' = trace w1 ++ evs
    /\ lookedUp evs = List.map Item.id fetched
    /\ store w' = Dynamo.putAll (writtenItems evs) (store w1)
    /\ Forall (fun x => exists a,
                   In a fetched
                   /\ stampOf x (Item.withAthleteId athlete_id a)
                   /\ (store w1 !! Item.id a = None
                       \/ In (GetItem (Item.id a) false) evs))
              (writtenItems evs)
    /\ (forall report, r = Some report ->
          (Server.storedCount report + Server.skippedCount report)%nat
          = length fetched).
Proof.
  intros Hfetch.
  unfold Server.performBackgroundSync, tryCatch. unfold bind at 1.
  rewrite Hfetch. unfold bind at 1. unfold bind at 1.
  destruct (checkDuplicates_run E athlete_id fetched [] 0%nat w1)
    as (added & extra & w2 & evsG & Hcheck & HtG & HsG & HgG & HlG & Hlen & Hadd & _).
  rewrite Hcheck. cbn [app Nat.add].
  assert (HwG : writtenItems evsG = []).
  { eapply writtenItems_readonly; [apply isGet_readonly | exact HgG]. }
  destruct (0 <? length added)%nat eqn:Hnonempty.
  - unfold bind at 1.
    destruct (Dynamo.storeActivities E added w2) as [r3 w3] eqn:Hstore.
    apply storeActivities_outcome in Hstore as (evsS & HtS & HaS & HsS & Hr).
    assert (HlS : lookedUp evsS = []).
    { clear -HaS. induction HaS as [|ev evs Hev _ IH]; [reflexivity|].
      destruct Hev as [[ms ->] | (items & ok & -> & _)]; exact IH. }
    assert (Hitems : Forall (fun x => exists a,
                   In a fetched
                   /\ stampOf x (Item.withAthleteId athlete_id a)
                   /\ (store w1 !! Item.id a = None
                       \/ In (GetItem (Item.id a) false) evsG))
              (writtenItems evsS)).
    { apply putsFrom_written in HaS.
      eapply Forall_impl; [exact HaS|]. intros x (y & Hy & Hst).
      rewrite List.Forall_forall in Hadd.
      destruct (Hadd y Hy) as (a & Ha & -> & Hwhy).
      exists a. repeat split; assumption. }
    destruct r3 as [n|e|]; [| |destruct Hr].
    + destruct Hr as (-> & Hf). cbn [ret]. unfold bind at 1.
      destruct (getActivityCount_run E athlete_id w3) as (total & ok & ->).
      eexists _, _, (evsG ++ evsS ++ [Query athlete_id ok]).
      split; [reflexivity|]. cbn [trace store].
      split; [rewrite HtS, HtG, <- !app_assoc; reflexivity|].
      split; [rewrite !lookedUp_app, HlG, HlS; cbn; apply app_nil_r|].
      assert (Hw : writtenItems (evsG ++ evsS ++ [Query athlete_id ok])
                   = writtenItems evsS).
      { rewrite !writtenItems_app, HwG. cbn. apply app_nil_r. }
      rewrite Hw. split; [rewrite HsS, HsG; reflexivity|].
      split.
      { eapply Forall_impl; [exact Hitems|].
        intros x (a & Ha & Hst & Hwhy). exists a. repeat split; try assumption.
        destruct Hwhy as [Hnone|Hin]; [left; exact Hnone | right].
        apply in_or_app. left. exact Hin. }
      intros report [= <-]. cbn. lia.
    + exists None, w3, (evsG ++ evsS). cbn [ret].
      split; [reflexivity|].
      split; [rewrite HtS, HtG, <- !app_assoc; reflexivity|].
      split; [rewrite lookedUp_app, HlG, HlS; apply app_nil_r|].
      assert (Hw : writtenItems (evsG ++ evsS) = writtenItems evsS).
      { rewrite writtenItems_app, HwG. reflexivity. }
      rewrite Hw. split; [rewrite HsS, HsG; reflexivity|].
      split; [|intros report [=]].
      eapply Forall_impl; [exact Hitems|].
      intros x (a & Ha & Hst & Hwhy). exists a. repeat split; try assumption.
      destruct Hwhy as [Hnone|Hin]; [left; exact Hnone | right].
      apply in_or_app. left. exact Hin.
  - cbn [ret]. unfold bind at 1.
    destruct (getActivityCount_run E athlete_id w2) as (total & ok & ->).
    eexists _, _, (evsG ++ [Query athlete_id ok]).
    split; [reflexivity|]. cbn [trace store].
    split; [rewrite HtG, <- !app_assoc; reflexivity|].
    split; [rewrite lookedUp_app, HlG; cbn; apply app_nil_r|].
    assert (Hw : writtenItems (evsG ++ [Query athlete_id ok]) = []).
    { rewrite writtenItems_app, HwG. reflexivity. }
    rewrite Hw. split; [exact HsG|]. split; [constructor|].
    intros report [= <-]. cbn. apply Nat.ltb_ge in Hnonempty. lia.
Qed.

Lemma stampOf_id x a : stampOf x a -> Item.id x = Item.id a.
Proof. intros [t ->]. reflexivity. Qed.

Lemma Forall2_stampOf_ids written sent :
  Forall2 stampOf written sent ->
  List.map Item.id written = List.map Item.id sent.
Proof.
  induction 1 as [|x a written sent Hst _ IH]; [reflexivity|].
  cbn [List.map]. rewrite IH, (stampOf_id x a Hst). reflexivity.
Qed.

Lemma Forall2_In_l {A B} (R : A -> B -> Prop) xs ys x :
  Forall2 R xs ys -> In x xs -> exists y, In y ys /\ R x y.
Proof.
  induction 1 as [|x0 y0 xs ys HR _ IH]; intros Hin; [destruct Hin|].
  destruct Hin as [->|Hin].
  - exists y0. split; [left; reflexivity | exact HR].
  - destruct (IH Hin) as (y & Hy & Hxy). exists y. split; [right|]; assumption.
Qed.

(** What went through of a bulk write is an initial part of its input, in
    order, whatever the store answers. *)
Lemma storeActivities_prefix E activities w r w' evs :
  Dynamo.storeActivities E activities w = (r, w') ->
  trace w' = trace w ++ evs ->
  exists k, Forall2 stampOf (writtenItems evs) (firstn k activities).
Proof.
  intros Hrun Ht.
  destruct (makeBatches_spec activities) as (batches & Hmk & Hcat & _ & _).
  unfold Dynamo.storeActivities, bind in Hrun. rewrite Hmk in Hrun.
  cbn [liftOption ret] in Hrun.
  apply storeBatches_outcome in Hrun as (evs' & Ht' & _ & _ & Hr).
  rewrite Ht' in Ht. apply app_inv_head in Ht. subst evs'.
  destruct r as [n|e|]; [| |destruct Hr].
  - destruct Hr as (_ & Hf). exists (length activities).
    rewrite firstn_all, <- Hcat. apply stampedBatches_items, Hf.
  - destruct Hr as (done & rest & Hsplit & _ & Hf).
    exists (length (concat done)).
    rewrite <- Hcat, Hsplit, concat_app, firstn_app, firstn_all, Nat.sub_diag.
    cbn [firstn]. rewrite app_nil_r. apply stampedBatches_items, Hf.
Qed.

(** A bulk write to a store that accepts every command returns. *)
Lemma storeActivities_accepted E activities w :
  (forall n, sendOutcome E n = Replied tt) ->
  exists w',
    Dynamo.storeActivities E activities w = (Ret (length activities), w').
Proof.
  intros Hok.
  destruct (makeBatches_spec activities) as (batches & Hmk & Hcat & _ & _).
  destruct (storeBatches_no_failure E (length activities) Hok batches 0 w)
    as (w' & evs & Hrun & _).
  exists w'. unfold Dynamo.storeActivities, bind. rewrite Hmk.
  cbn [liftOption ret]. rewrite Hrun, Hcat. reflexivity.
Qed.

(** The bulk write inside a run in full mode. *)
Lemma sync_full_written E fuel athlete_id accessToken w fetched w1 r w' evs :
  Server.fetchStravaActivities E fuel accessToken w = (Ret fetched, w1) ->
  Server.performBackgroundSync E fuel athlete_id accessToken true w
  = (Ret r, w') ->
  trace w' = trace w1 ++ evs ->
  (exists k,
      Forall2 stampOf (writtenItems evs)
        (firstn k (List.map (Item.withAthleteId athlete_id) fetched)))
  /\ ((forall n, sendOutcome E n = Replied tt) -> exists report, r = Some report).
Proof.
  intros Hfetch Hrun Ht.
  unfold Server.performBackgroundSync, tryCatch in Hrun.
  unfold bind at 1 in Hrun. rewrite Hfetch in Hrun.
  unfold bind at 1 in Hrun. unfold bind at 1 in Hrun.
  destruct (Dynamo.storeActivities E
              (List.map (Item.withAthleteId athlete_id) fetched) w1)
    as [r2 w2] eqn:Hstore.
  destruct (storeActivities_outcome _ _ _ _ _ Hstore) as (evs2 & Ht2 & _ & _ & Hr).
  destruct (storeActivities_prefix _ _ _ _ _ _ Hstore Ht2) as (k & Hk).
  destruct r2 as [n|e|]; [| |destruct Hr].
  - cbn [ret] in Hrun. unfold bind at 1 in Hrun.
    destruct (getActivityCount_run E athlete_id w2) as (total & ok & Hcount).
    rewrite Hcount in Hrun. cbn [ret] in Hrun. injection Hrun as <- <-.
    cbn [trace] in Ht. rewrite Ht2, <- app_assoc in Ht.
    apply app_inv_head in Ht. subst evs. split.
    + exists k. rewrite writtenItems_app. cbn. rewrite app_nil_r. exact Hk.
    + intros _. eauto.
  - cbn [ret] in Hrun. injection Hrun as <- <-.
    rewrite Ht2 in Ht. apply app_inv_head in Ht. subst evs. split.
    + exists k. exact Hk.
    + intros Hok.
      destruct (storeActivities_accepted E
                  (List.map (Item.withAthleteId athlete_id) fetched) w1 Hok)
        as (w3 & Hacc).
      rewrite Hacc in Hstore. discriminate.
Qed.

(** C1 (as amended).  Once the fetch has returned:
    - in incremental mode the run completes or fails without throwing; it
      looks up every fetched identifier once, in order; every record it
      writes is a fetched record whose identifier was absent from
      the store when the run started, or whose existence lookup was rejected
      (the lookup then answers "absent"); on completion the stored and the
      skipped counts add up to the number of fetched records;
    - in full mode the run makes no existence lookup and sends only stamped
      copies of the fetched records tagged with the athlete; the commands
      that go through carry an initial part of the fetched records, in
      order, and all of them when the run completes; and when the store
      accepts every command the run does complete: it reports every fetched
      record as stored and none as skipped, and the store then holds, under
      each fetched identifier, a stamped copy of a fetched record with that
      identifier. *)
Theorem sync_modes (E : Env) (fuel : nat) (athlete_id accessToken : string)
        (w : World) (fetched : list Item.Activity) (w1 : World) :
  Server.fetchStravaActivities E fuel accessToken w = (Ret fetched, w1) ->
  (exists r w' evs,
      Server.performBackgroundSync E fuel athlete_id accessToken false w
      = (Ret r, w')
      /\ trace w' = trace w1 ++ evs
      /\ lookedUp evs = List.map Item.id fetched
      /\ Forall (fun x =>
                   (store w !! Item.id x = None
                    \/ In (GetItem (Item.id x) false) evs)
                   /\ exists a, In a fetched
                                /\ stampOf x (Item.withAthleteId athlete_id a))
                (writtenItems evs)
      /\ (forall report, r = Some report ->
            (Server.storedCount report + Server.skippedCount report)%nat
            = length fetched))
  /\ (exists r w' evs,
        Server.performBackgroundSync E fuel athlete_id accessToken true w
        = (Ret r, w')
        /\ trace w' = trace w1 ++ evs
        /\ lookedUp evs = []
        /\ (forall id ok, ~ In (GetItem id ok) evs)
        /\ Forall (fun ev =>
                     putsFrom (List.map (Item.withAthleteId athlete_id) fetched) ev
                     \/ isQuery ev) evs
        /\ (exists k,
              Forall2 stampOf (writtenItems evs)
                (firstn k (List.map (Item.withAthleteId athlete_id) fetched)))
        /\ (forall report, r = Some report ->
              Server.storedCount report = length fetched
              /\ Forall2 stampOf (writtenItems evs)
                   (List.map (Item.withAthleteId athlete_id) fetched))
        /\ ((forall n, sendOutcome E n = Replied tt) ->
            exists report,
              r = Some report
              /\ Server.storedCount report = length fetched
              /\ Server.skippedCount report = 0%nat
              /\ Forall2 stampOf (writtenItems evs)
                   (List.map (Item.withAthleteId athlete_id) fetched)
              /\ forall a, In a fetched ->
                   exists x a',
                     store w' !! Item.id a = Some x
                     /\ In a' fetched
                     /\ Item.id a' = Item.id a
                     /\ stampOf x (Item.withAthleteId athlete_id a'))).
Proof.
  intros Hfetch.
  destruct (fetch_keeps_store E fuel accessToken w _ w1 Hfetch) as [Hst1 _].
  split.
  - destruct (sync_incremental_run E fuel athlete_id accessToken w fetched w1
                Hfetch) as (r & w' & evs & Hrun & Ht & Hlook & _ & Hitems & Hcount).
    exists r, w', evs. repeat (split; [assumption|]). split; [|exact Hcount].
    eapply Forall_impl; [exact Hitems|].
    intros x (a & Ha & Hstamp & Hwhy). split; [|exists a; split; assumption].
    rewrite (stampOf_id _ _ Hstamp). change (Item.id (Item.withAthleteId athlete_id a))
      with (Item.id a). rewrite <- Hst1. exact Hwhy.
  - destruct (sync_full_run E fuel athlete_id accessToken w fetched w1 Hfetch)
      as (r & w' & evs & Hrun & Ht & Hall & Hs & Hdone).
    destruct (sync_full_written E fuel athlete_id accessToken w fetched w1 r w'
                evs Hfetch Hrun Ht) as (Hprefix & Hcompletes).
    exists r, w', evs. repeat (split; [assumption|]).
    split.
    { clear -Hall. induction Hall as [|ev evs Hev _ IH]; [reflexivity|].
      destruct Hev as [[[ms ->] | (items & ok & -> & _)] | (a & ok & ->)];
        exact IH. }
    split.
    { intros id ok Hin. rewrite List.Forall_forall in Hall.
      destruct (Hall _ Hin) as [[[ms Hev] | (items & ok' & Hev & _)]
                               | (athlete & ok' & Hev)]; discriminate. }
    split; [exact Hall|]. split; [exact Hprefix|]. split.
    { intros report Hr. destruct (Hdone report Hr) as (Hn & _ & Hf).
      split; [exact Hn | exact Hf]. }
    intros Hok. destruct (Hcompletes Hok) as (report & Hr).
    exists report. split; [exact Hr|].
    destruct (Hdone report Hr) as (Hn & Hskip & Hf).
    split; [exact Hn|]. split; [exact Hskip|]. split; [exact Hf|].
    intros a Ha.
    assert (Hids : In (Item.id a) (List.map Item.id (writtenItems evs))).
    { rewrite (Forall2_stampOf_ids _ _ Hf), List.map_map. cbn.
      apply in_map_iff. exists a. split; [reflexivity | exact Ha]. }
    destruct (putAll_lookup_in (writtenItems evs) (store w1) (Item.id a) Hids)
      as (x & Hx & Hid & Hlook).
    destruct (Forall2_In_l _ _ _ x Hf Hx) as (y & Hy & Hstamp).
    apply in_map_iff in Hy as (a' & <- & Ha').
    exists x, a'. rewrite Hs. repeat split; try assumption.
    rewrite <- Hid, (stampOf_id _ _ Hstamp). reflexivity.
Qed.

Lemma sync_modes_witness :
  exists fetched w1,
    Server.fetchStravaActivities (Samples.upstreamEnv Samples.accepted) 3
      "token" Samples.worldWithRun = (Ret fetched, w1)
    /\ List.map Item.id fetched = [1]
    /\ (exists r w' evs,
          Server.performBackgroundSync (Samples.upstreamEnv Samples.accepted) 3
            "42" "token" false Samples.worldWithRun = (Ret r, w')
          /\ trace w' = trace w1 ++ evs
          /\ lookedUp evs = [1]
          /\ writtenItems evs = []
          /\ forall report, r = Some report ->
               (Server.storedCount report + Server.skippedCount report)%nat
               = length fetched)
    /\ (exists report w' evs x,
          Server.performBackgroundSync (Samples.upstreamEnv Samples.accepted) 3
            "42" "token" true Samples.worldWithRun = (Ret (Some report), w')
          /\ trace w' = trace w1 ++ evs
          /\ lookedUp evs = []
          /\ Server.storedCount report = length fetched
          /\ Server.skippedCount report = 0%nat
          /\ Forall2 stampOf (writtenItems evs)
               (List.map (Item.withAthleteId "42") fetched)
          /\ store Samples.worldWithRun !! 1 = Some Samples.staleRun
          /\ store w' !! 1 = Some x
          /\ x <> Samples.staleRun
          /\ exists a', In a' fetched
                        /\ stampOf x (Item.withAthleteId "42" a')).
Proof.
  destruct (Server.fetchStravaActivities (Samples.upstreamEnv Samples.accepted)
              3 "token" Samples.worldWithRun) as [rf w1] eqn:Hfetch.
  pose proof Hfetch as Hc. vm_compute in Hc.
  destruct rf as [fetched|e|]; try discriminate.
  assert (Hids : List.map Item.id fetched = [1])
    by (injection Hc as <- _; reflexivity).
  assert (Hw1 : trace w1 = [Slept 200])
    by (injection Hc as _ <-; reflexivity).
  exists fetched, w1. split; [reflexivity|]. split; [exact Hids|].
  destruct (sync_modes (Samples.upstreamEnv Samples.accepted) 3 "42"
              "token" Samples.worldWithRun fetched w1 Hfetch)
    as [(r & w' & evs & Hrun & Ht & Hlook & Hitems & Hcount)
        (r2 & w2 & evs2 & Hrun2 & Ht2 & Hlook2 & _ & _ & _ & _ & Hacc)].
  split.
  - exists r, w', evs. split; [exact Hrun|]. split; [exact Ht|].
    split; [rewrite Hlook, Hids; reflexivity|]. split; [|exact Hcount].
    pose proof Hrun as Hr. vm_compute in Hr. injection Hr as _ Hw'.
    rewrite <- Hw', Hw1 in Ht. cbn [trace] in Ht.
    cbn [app] in Ht. injection Ht as <-. reflexivity.
  - destruct (Hacc (fun n => eq_refl))
      as (report & -> & Hn & Hskip & Hf & Hstored).
    assert (Hin : exists a, In a fetched /\ Item.id a = 1).
    { destruct fetched as [|a [|b rest]]; try discriminate.
      injection Hids as Ha. exists a. split; [left; reflexivity | exact Ha]. }
    destruct Hin as (a & Ha & Hid).
    destruct (Hstored a Ha) as (x & a' & Hx & Ha' & _ & Hstamp).
    rewrite Hid in Hx.
    exists report, w2, evs2, x. split; [exact Hrun2|]. split; [exact Ht2|].
    split; [exact Hlook2|]. split; [exact Hn|]. split; [exact Hskip|].
    split; [exact Hf|]. split; [reflexivity|]. split; [exact Hx|].
    split; [|exists a'; split; assumption].
    pose proof Hrun2 as Hr. vm_compute in Hr. injection Hr as _ Hw2.
    rewrite <- Hw2 in Hx. vm_compute in Hx. injection Hx as <-. discriminate.
Defined.

(** C1 as worded fails on the code.  Incremental mode: the store holds
    activity 1, upstream lists it, and the existence lookup is rejected;
    [activityExists] answers [false] and activity 1 is written again.  Full
    mode: the store rejects the batch, and nothing is written. *)
Lemma sync_modes_counterexample :
  (exists w',
      Server.performBackgroundSync (Samples.upstreamEnv Samples.firstRejected)
        3 "42" "token" false Samples.worldWithRun
      = (Ret (Some (Server.mkSyncReport 1 0 1)), w')
      /\ store Samples.worldWithRun !! 1 = Some Samples.staleRun
      /\ exists x, store w' !! 1 = Some x
                   /\ Item.stored_at x = Some 1700000000200)
  /\ (exists w',
        Server.performBackgroundSync (Samples.upstreamEnv Samples.allRejected)
          3 "42" "token" true Samples.world0
        = (Ret None, w')
        /\ store w' !! 1 = None)
  /\ ~ AsStated.IncrementalNeverRewrites
  /\ ~ AsStated.FullWritesEverything.
Proof.
  split; [|split; [|split]].
  - eexists. split; [vm_compute; reflexivity|].
    split; [vm_compute; reflexivity|].
    eexists. split; vm_compute; reflexivity.
  - eexists. split; vm_compute; reflexivity.
  - intros Hclaim.
    edestruct (Hclaim (Samples.upstreamEnv Samples.firstRejected) 3%nat
                 "42"%string "token"%string Samples.worldWithRun)
      as (evs & Ht & Hnone); [vm_compute; reflexivity.. |].
    vm_compute in Ht. subst evs.
    specialize (Hnone _ (or_introl eq_refl)).
    vm_compute in Hnone. discriminate.
  - intros Hclaim.
    edestruct (Hclaim (Samples.upstreamEnv Samples.allRejected) 3%nat
                 "42"%string "token"%string Samples.world0)
      as (x & a' & Hlook & _); [vm_compute; reflexivity.. | left; reflexivity |].
    vm_compute in Hlook. discriminate.
Qed.

(** C8.  [activityExists] always returns: with the stored state when the
    lookup goes through, with [false] when it is rejected, and the store is
    left as it was.  In the incremental loop, every identifier whose lookup
    was rejected has its record in the list handed to [storeActivities]. *)
Theorem activityExists_never_throws (E : Env) (activityId : Z) (w : World) :
  (exists b w',
      Dynamo.activityExists E activityId w = (Ret b, w')
      /\ store w' = store w
      /\ match sendOutcome E (sends w) with
         | Rejected _ =>
             b = false /\ trace w' = trace w ++ [GetItem activityId false]
         | Replied _ =>
             b = (match store w !! activityId with
                  | Some _ => true
                  | None => false
                  end)
             /\ trace w' = trace w ++ [GetItem activityId true]
         end)
  /\ (forall athlete_id newActivities,
        exists toStore skipped w' evs,
          Server.checkDuplicates E athlete_id newActivities [] 0 w
          = (Ret (toStore, skipped), w')
          /\ trace w' = trace w ++ evs
          /\ forall id, In (GetItem id false) evs ->
               exists a, In a newActivities
                         /\ Item.id a = id
                         /\ In (Item.withAthleteId athlete_id a) toStore).
Proof.
  split.
  - rewrite activityExists_run.
    destruct (sendOutcome E (sends w)); eexists _, _;
      (split; [reflexivity|]); repeat split.
  - intros athlete_id newActivities.
    destruct (checkDuplicates_run E athlete_id newActivities [] 0%nat w)
      as (added & extra & w' & evs & Hrun & Ht & _ & _ & _ & _ & _ & Hfail).
    exists added, extra, w', evs. repeat split; assumption.
Qed.

Lemma activityExists_never_throws_witness :
  In (GetItem 1 false) [GetItem 1 false]
  /\ exists toStore skipped w',
      Server.checkDuplicates (Samples.upstreamEnv Samples.firstRejected) "42"
        [Samples.morningRun] [] 0 Samples.worldWithRun
      = (Ret (toStore, skipped), w')
      /\ In (Item.withAthleteId "42" Samples.morningRun) toStore.
Proof.
  split; [left; reflexivity|].
  destruct (activityExists_never_throws
              (Samples.upstreamEnv Samples.firstRejected) 1
              Samples.worldWithRun) as [_ Hloop].
  destruct (Hloop "42"%string [Samples.morningRun])
    as (toStore & skipped & w' & evs & Hrun & Ht & Hfail).
  exists toStore, skipped, w'. split; [exact Hrun|].
  assert (Hevs : evs = [GetItem 1 false]).
  { pose proof Hrun as Hc. vm_compute in Hc.
    injection Hc as _ _ Hw. rewrite <- Hw in Ht.
    vm_compute in Ht. symmetry. exact Ht. }
  destruct (Hfail 1) as (a & Ha & _ & Hin).
  - rewrite Hevs. left. reflexivity.
  - destruct Ha as [<-|[]]. exact Hin.
Defined.

Lemma sync_without_fetch E fuel athlete_id accessToken full_sync w r w1 :
  Server.fetchStravaActivities E fuel accessToken w = (r, w1) ->
  (forall fetched, r <> Ret fetched) ->
  snd (Server.performBackgroundSync E fuel athlete_id accessToken full_sync w)
  = w1.
Proof.
  intros Hfetch Hr.
  unfold Server.performBackgroundSync, tryCatch. unfold bind at 1.
  rewrite Hfetch. destruct r as [fetched|e|]; [|reflexivity..].
  exfalso. apply (Hr fetched). reflexivity.
Qed.

Lemma written_by_full_run sent evs :
  Forall (fun ev => putsFrom sent ev \/ isQuery ev) evs ->
  Forall (fun x => In (Item.id x) (List.map Item.id sent)) (writtenItems evs).
Proof.
  intros Hall. unfold writtenItems.
  induction Hall as [|ev evs Hev _ IH]; [constructor|].
  change (ev :: evs) with ([ev] ++ evs).
  rewrite writtenBatches_app, concat_app. apply Forall_app. split; [|exact IH].
  destruct Hev as [[[ms ->] | (items & ok & -> & Hitems)] | (a & ok & ->)];
    try constructor.
  destruct ok; cbn; [rewrite app_nil_r | constructor].
  eapply Forall_impl; [exact Hitems|]. intros x (a & Ha & Hst).
  rewrite (stampOf_id _ _ Hst). apply in_map. exact Ha.
Qed.

(** C9.  A run in full mode deletes nothing: every identifier stored before
    the run is stored after it, and no delete command is sent.  A record
    whose identifier is not among the fetched ones is the same after the
    run; when the fetch itself fails the whole store is. *)
Theorem full_sync_frame (E : Env) (fuel : nat) (athlete_id accessToken : string)
        (w : World) :
  let w' := snd (Server.performBackgroundSync E fuel athlete_id accessToken
                   true w) in
  (forall k, is_Some (store w !! k) -> is_Some (store w' !! k))
  /\ (exists evs, trace w' = trace w ++ evs
                  /\ forall ids ok, ~ In (BatchDelete ids ok) evs)
  /\ (forall fetched w1,
        Server.fetchStravaActivities E fuel accessToken w = (Ret fetched, w1) ->
        forall k, ~ In k (List.map Item.id fetched) ->
                  store w' !! k = store w !! k)
  /\ (forall r w1,
        Server.fetchStravaActivities E fuel accessToken w = (r, w1) ->
        (forall fetched, r <> Ret fetched) ->
        store w' = store w).
Proof.
  intros w'.
  destruct (Server.fetchStravaActivities E fuel accessToken w) as [r0 w1]
    eqn:Hfetch.
  destruct (fetch_keeps_store E fuel accessToken w r0 w1 Hfetch)
    as (Hst1 & evs1 & Ht1 & Hsl1).
  assert (Hnodel1 : forall ids ok, ~ In (BatchDelete ids ok) evs1).
  { intros ids ok Hin. rewrite List.Forall_forall in Hsl1.
    destruct (Hsl1 _ Hin) as [ms Hev]. discriminate. }
  destruct r0 as [fetched|e|].
  - destruct (sync_full_run E fuel athlete_id accessToken w fetched w1 Hfetch)
      as (r & w2 & evs & Hrun & Ht & Hall & Hs & _).
    assert (Hw' : w' = w2) by (subst w'; rewrite Hrun; reflexivity).
    rewrite Hw'.
    assert (Hids : Forall (fun x => In (Item.id x) (List.map Item.id fetched))
                     (writtenItems evs)).
    { apply written_by_full_run in Hall.
      rewrite List.map_map in Hall. exact Hall. }
    split; [|split; [|split]].
    + intros k Hk. rewrite Hs, Hst1. apply putAll_keeps_keys, Hk.
    + exists (evs1 ++ evs). split; [rewrite Ht, Ht1, app_assoc; reflexivity|].
      intros ids ok Hin. apply in_app_or in Hin as [Hin|Hin].
      * exact (Hnodel1 ids ok Hin).
      * rewrite List.Forall_forall in Hall.
        destruct (Hall _ Hin) as [[[ms Hev] | (items & ok' & Hev & _)]
                                 | (a & ok' & Hev)]; discriminate.
    + intros fetched' w1' [= <- <-] k Hk.
      rewrite Hs, Hst1. apply putAll_lookup_notin.
      intros Hin. apply Hk. apply in_map_iff in Hin as (x & <- & Hx).
      rewrite List.Forall_forall in Hids. exact (Hids x Hx).
    + intros r' w1' [= <- <-] Hr. exfalso. apply (Hr fetched). reflexivity.
  - assert (Hw' : w' = w1).
    { subst w'. eapply sync_without_fetch; [exact Hfetch | discriminate]. }
    rewrite Hw'. split; [|split; [|split]].
    + intros k Hk. rewrite Hst1. exact Hk.
    + exists evs1. split; assumption.
    + intros fetched' w1' [=].
    + intros r' w1' _ _. exact Hst1.
  - assert (Hw' : w' = w1).
    { subst w'. eapply sync_without_fetch; [exact Hfetch | discriminate]. }
    rewrite Hw'. split; [|split; [|split]].
    + intros k Hk. rewrite Hst1. exact Hk.
    + exists evs1. split; assumption.
    + intros fetched' w1' [=].
    + intros r' w1' _ _. exact Hst1.
Qed.

Lemma full_sync_frame_witness :
  store Cases.sharedWorld !! 2 = Some Cases.eveningRide
  /\ exists fetched w1,
      Server.fetchStravaActivities (Samples.upstreamEnv Samples.accepted) 3
        "token" Cases.sharedWorld = (Ret fetched, w1)
      /\ List.map Item.id fetched = [1]
      /\ ~ In 2 (List.map Item.id fetched)
      /\ store (snd (Server.performBackgroundSync
                       (Samples.upstreamEnv Samples.accepted) 3 "42" "token"
                       true Cases.sharedWorld)) !! 2
         = Some Cases.eveningRide.
Proof.
  split; [reflexivity|].
  eexists _, _. split; [vm_compute; reflexivity|].
  split; [reflexivity|].
  split; [vm_compute; intros [H|[]]; discriminate|].
  destruct (full_sync_frame (Samples.upstreamEnv Samples.accepted) 3 "42"
              "token" Cases.sharedWorld) as (_ & _ & Hframe & _).
  erewrite Hframe;
    [reflexivity | vm_compute; reflexivity
     | vm_compute; intros [H|[]]; discriminate].
Defined.


(* --------------------------------------------------------------------- *)
(** ** The detail view *)
(* --------------------------------------------------------------------- *)

Lemma getActivity_run E activityId w :
  Dynamo.getActivity E activityId w
  = match sendOutcome E (sends w) with
    | Replied _ =>
        (Ret (store w !! activityId),
         mkWorld (store w) (clock w) (lastApiCall w) (S (sends w))
           (requests w) (trace w ++ [GetItem activityId true]))
    | Rejected error =>
        (Throw error,
         mkWorld (store w) (clock w) (lastApiCall w) (S (sends w))
           (requests w) (trace w ++ [GetItem activityId false]))
    end.
Proof.
  unfold Dynamo.getActivity, tryCatch, Dynamo.sendGet.
  destruct (sendOutcome E (sends w)); reflexivity.
Qed.

(** Storing one record: it is in the store when the call returns, the store
    is as before when the call throws, and the call returns when the store
    accepts every command. *)
Lemma storeActivities_one E d w :
  exists r w',
    Dynamo.storeActivities E [d] w = (r, w')
    /\ match r with
       | Ret _ =>
           store w' = <[Item.id d := Item.withStoredAt (clock w) d]> (store w)
       | Throw _ => store w' = store w
       | OutOfFuel => False
       end
    /\ ((forall n, sendOutcome E n = Replied tt) -> exists n, r = Ret n).
Proof.
  destruct (Dynamo.storeActivities E [d] w) as [r w'] eqn:Hrun.
  exists r, w'. split; [reflexivity|].
  unfold Dynamo.storeActivities, bind in Hrun.
  change (Dynamo.makeBatches [d]) with (Some [[d]]) in Hrun.
  cbn [liftOption ret Dynamo.storeBatches] in Hrun.
  unfold bind at 1, dateNow in Hrun. unfold bind at 1 in Hrun.
  destruct (Dynamo.sendWithRetry E (S Dynamo.maxRetries)
              (List.map (Item.withStoredAt (clock w)) [d]) (length [d])
              (length [d]) 0 0 w) as [r1 w1] eqn:Hsend.
  split.
  - apply sendWithRetry_outcome in Hsend as (evs & _ & _ & Hr); [|lia].
    destruct r1 as [n|e|].
    + cbn in Hrun. injection Hrun as <- <-. destruct Hr as (_ & _ & Hs).
      exact Hs.
    + injection Hrun as <- <-. destruct Hr as (_ & Hs). exact Hs.
    + unfold Dynamo.maxRetries in Hr. lia.
  - intros Hok. unfold Dynamo.maxRetries in Hsend.
    cbn [Dynamo.sendWithRetry] in Hsend. unfold Dynamo.maxRetries in Hsend.
    cbn [Nat.leb] in Hsend.
    unfold bind at 1, tryCatch, bind at 1, Dynamo.sendBatchWrite in Hsend.
    rewrite Hok in Hsend. cbn in Hsend. injection Hsend as <- <-.
    cbn in Hrun. injection Hrun as <- _. eauto.
Qed.

Lemma getCountryFromCoordinates_run E startLatlng w :
  exists country w',
    Geo.getCountryFromCoordinates E startLatlng w = (Ret country, w')
    /\ store w' = store w.
Proof.
  destruct (getCountryFromCoordinates_returns E startLatlng w)
    as (country & w' & Hrun).
  exists country, w'. split; [exact Hrun|].
  eapply Ext_readonly; [apply isSlept_readonly|].
  eapply getCountryFromCoordinates_confined, Hrun.
Qed.

Lemma decodePolyline_returns encoded :
  exists pts, decodePolyline encoded = Some pts.
Proof.
  destruct (decodeLoop_total encoded (S (length encoded)) 0 0 0 [])
    as (pts & Hrun & _); [lia|].
  exists pts. exact Hrun.
Qed.

Lemma rejectedAsVirtual_polyline raw :
  Server.rejectedAsVirtual raw = false ->
  exists encoded, Server.fullPolylineOf raw = Some encoded.
Proof.
  unfold Server.rejectedAsVirtual. intros H.
  apply orb_false_iff in H as [_ H].
  destruct (Server.fullPolylineOf raw) as [encoded|]; [eauto | discriminate].
Qed.

(** C6 (as amended).  For a request that carries an athlete identifier and
    whose store lookup goes through:
    - a stored record with more than 20 coordinates is returned and the store
      is left as it was;
    - otherwise, when the token and the upstream activity are obtained: the
      answer is "not found" and nothing is stored when the activity is
      flagged trainer or manual, is a virtual ride or run, lacks its start
      coordinate or its polyline, or decodes to fewer than 3 coordinates;
      else the record built from the upstream activity, with all the decoded
      coordinates of the full polyline, is returned, and it is stored under
      the upstream identifier, replacing what was there, unless the store
      rejects the write (the record is returned all the same). *)
Theorem getActivityDetails_spec (E : Env) (req : Server.DetailRequest)
        (athlete_id : string) (w : World) :
  Server.query_athlete_id req = Some athlete_id ->
  truthyString athlete_id = true ->
  sendOutcome E (sends w) = Replied tt ->
  (forall stored,
      store w !! Server.params_id req = Some stored ->
      (20 < length (Item.coordinates stored))%nat ->
      exists w',
        Server.getActivityDetails E req w = (Ret (Server.Json stored), w')
        /\ store w' = store w)
  /\ ((forall stored,
          store w !! Server.params_id req = Some stored ->
          (length (Item.coordinates stored) <= 20)%nat) ->
      forall accessToken raw,
        validAccessToken E athlete_id = Replied accessToken ->
        stravaActivity E (Server.params_id req) = Replied raw ->
        (Server.rejectedDetail raw = true ->
         exists message w',
           Server.getActivityDetails E req w
           = (Ret (Server.Status 404 message), w')
           /\ store w' = store w)
        /\ (Server.rejectedDetail raw = false ->
            exists d w',
              Server.getActivityDetails E req w = (Ret (Server.Json d), w')
              /\ Item.id d = Strava.id raw
              /\ Item.athlete_id d = Some athlete_id
              /\ Item.coordinates d = Server.detailCoordinates raw
              /\ (store w' = store w
                  \/ exists t,
                      store w'
                      = <[Strava.id raw := Item.withStoredAt t d]> (store w))
              /\ ((forall n, sendOutcome E n = Replied tt) ->
                  exists t,
                    store w'
                    = <[Strava.id raw := Item.withStoredAt t d]> (store w)))).
Proof.
  intros Hq Htruthy Hlookup.
  destruct (Server.getActivityDetails E req w) as [r0 w0] eqn:Hrun.
  unfold Server.getActivityDetails in Hrun. rewrite Hq, Htruthy in Hrun.
  cbn [negb] in Hrun. unfold tryCatch in Hrun. unfold bind at 1 in Hrun.
  rewrite getActivity_run, Hlookup in Hrun. cbv beta zeta in Hrun.
  set (w1 := mkWorld (store w) (clock w) (lastApiCall w) (S (sends w))
               (requests w)
               (trace w ++ [GetItem (Server.params_id req) true])) in Hrun.
  split.
  - intros stored Hstored Hlen. rewrite Hstored in Hrun.
    replace (20 <? length (Item.coordinates stored))%nat with true in Hrun
      by (symmetry; apply Nat.ltb_lt; exact Hlen).
    cbn [ret] in Hrun. injection Hrun as <- <-.
    exists w1. split; reflexivity.
  - intros Hcoarse accessToken raw Htoken Hraw.
    assert (Hnone :
              match store w !! Server.params_id req with
              | Some stored =>
                  if (20 <? length (Item.coordinates stored))%nat
                  then Some stored else None
              | None => None
              end = None).
    { destruct (store w !! Server.params_id req) as [stored|] eqn:Hst;
        [|reflexivity].
      replace (20 <? length (Item.coordinates stored))%nat with false;
        [reflexivity|].
      symmetry. apply Nat.ltb_ge. apply Hcoarse. reflexivity. }
    rewrite Hnone in Hrun. unfold bind at 1 in Hrun. rewrite Htoken in Hrun.
    cbn [awaitReply ret] in Hrun.
    unfold bind at 1 in Hrun. rewrite Hraw in Hrun.
    cbn [awaitReply ret] in Hrun.
    unfold Server.rejectedDetail, Server.detailCoordinates.
    destruct (Server.rejectedAsVirtual raw) eqn:Hvirtual.
    { injection Hrun as <- <-.
      split; [|discriminate]. intros _. eexists _, w1. split; reflexivity. }
    destruct (rejectedAsVirtual_polyline raw Hvirtual) as [encoded Henc].
    rewrite Henc in Hrun |- *.
    destruct (decodePolyline_returns (codeUnits encoded)) as [coordinates Hdec].
    rewrite Hdec in Hrun |- *. cbn [orb liftOption] in Hrun |- *.
    unfold bind at 1 in Hrun. cbn [ret] in Hrun.
    destruct (length coordinates <? 3)%nat eqn:Hfew.
    { injection Hrun as <- <-.
      split; [|discriminate]. intros _. eexists _, w1. split; reflexivity. }
    split; [discriminate|]. intros _.
    destruct coordinates as [|firstCoordinate others]; [discriminate|].
    unfold bind at 1 in Hrun.
    destruct (getCountryFromCoordinates_run E
                (Some [Finite (lat firstCoordinate);
                       Finite (lng firstCoordinate)]) w1)
      as (country & w2 & Hcountry & Hst2).
    rewrite Hcountry in Hrun. unfold bind at 1 in Hrun.
    unfold tryCatch, bind at 1 in Hrun.
    match type of Hrun with
    | context [Dynamo.storeActivities E [?d] w2] =>
        destruct (storeActivities_one E d w2) as (r3 & w3 & Hstore & Hr3 & Hok);
        exists d
    end.
    rewrite Hstore in Hrun.
    assert (Hbase : store w2 = store w) by (rewrite Hst2; reflexivity).
    destruct r3 as [n|e|]; [| |destruct Hr3].
    + cbn [ret] in Hrun. injection Hrun as <- <-.
      exists w3. split; [reflexivity|].
      repeat (split; [reflexivity|]). cbn [Item.id] in Hr3.
      rewrite Hbase in Hr3. split; [right; eauto|]. intros _. eauto.
    + cbn [ret] in Hrun. injection Hrun as <- <-.
      exists w3. split; [reflexivity|].
      repeat (split; [reflexivity|]).
      rewrite Hbase in Hr3. split; [left; exact Hr3|].
      intros Hall. destruct (Hok Hall) as [n Hn]. discriminate.
Qed.

Lemma getActivityDetails_spec_witness :
  Server.query_athlete_id (Server.mkDetailRequest 7 (Some "42"%string))
  = Some "42"%string
  /\ truthyString "42" = true
  /\ sendOutcome (Samples.upstreamEnv Samples.accepted) (sends Samples.world0)
     = Replied tt
  /\ exists d w',
      Server.getActivityDetails (Samples.upstreamEnv Samples.accepted)
        (Server.mkDetailRequest 7 (Some "42"%string)) Samples.world0
      = (Ret (Server.Json d), w')
      /\ Item.coordinates d
         = Server.detailCoordinates (Samples.rawActivity 7 "Kayaking")
      /\ exists t, store w' = <[7 := Item.withStoredAt t d]> (store Samples.world0).
Proof.
  repeat (split; [reflexivity|]).
  destruct (getActivityDetails_spec (Samples.upstreamEnv Samples.accepted)
              (Server.mkDetailRequest 7 (Some "42"%string)) "42"
              Samples.world0 eq_refl eq_refl eq_refl) as [_ Hfetch].
  destruct (Hfetch (fun stored (H : store Samples.world0 !! 7 = Some stored) =>
                      match H in _ = o
                            return match o with
                                   | Some s => (length (Item.coordinates s) <= 20)%nat
                                   | None => True
                                   end
                      with eq_refl => I end)
              "token"%string (Samples.rawActivity 7 "Kayaking")
              eq_refl eq_refl) as [_ Hkept].
  destruct (Hkept eq_refl) as (d & w' & Hrun & _ & _ & Hcoords & _ & Hstored).
  exists d, w'. split; [exact Hrun|]. split; [exact Hcoords|].
  apply Hstored. intros n. reflexivity.
Defined.

(** C6 as worded fails on the code: a request without an athlete identifier
    is answered 400 although the store holds a detailed record; and when the
    store rejects the write, the fetched record is returned but not
    stored. *)
Lemma getActivityDetails_counterexample :
  Server.getActivityDetails (Samples.upstreamEnv Samples.accepted)
    (Server.mkDetailRequest 5 None) Samples.worldWithDetail
  = (Ret (Server.Status 400 "athlete_id is required"), Samples.worldWithDetail)
  /\ (exists d w',
        Server.getActivityDetails (Samples.upstreamEnv Samples.secondRejected)
          (Server.mkDetailRequest 7 (Some "42"%string)) Samples.world0
        = (Ret (Server.Json d), w')
        /\ store w' !! 7 = None)
  /\ ~ AsStated.DetailServedFromStore
  /\ ~ AsStated.DetailFetchedIsStored.
Proof.
  split; [reflexivity|]. split; [|split].
  - eexists _, _. split; vm_compute; reflexivity.
  - intros Hclaim.
    destruct (Hclaim (Samples.upstreamEnv Samples.accepted)
                (Server.mkDetailRequest 5 None) Samples.worldWithDetail
                Samples.detailedRun) as (w' & Hrun & _).
    + vm_compute. reflexivity.
    + vm_compute. lia.
    + discriminate.
  - intros Hclaim.
    destruct (Hclaim (Samples.upstreamEnv Samples.secondRejected)
                (Server.mkDetailRequest 7 (Some "42"%string)) "42"%string
                Samples.world0 "token"%string
                (Samples.rawActivity 7 "Kayaking"))
      as (d & w' & t & Hrun & Hlook); try reflexivity.
    vm_compute in Hrun. injection Hrun as _ Hw. rewrite <- Hw in Hlook.
    vm_compute in Hlook. discriminate.
Qed.

(** The bulk path only writes runs, rides and swims, in either mode. *)
Lemma bulk_sync_writes_supported E fuel athlete_id accessToken full_sync w
      fetched w1 :
  Server.fetchStravaActivities E fuel accessToken w = (Ret fetched, w1) ->
  exists r w' evs,
    Server.performBackgroundSync E fuel athlete_id accessToken full_sync w
    = (r, w')
    /\ trace w' = trace w1 ++ evs
    /\ Forall supported (writtenItems evs).
Proof.
  intros Hfetch.
  assert (Hsup : Forall supported fetched).
  { eapply fetchLoop_supported; [exact Hfetch | constructor]. }
  rewrite List.Forall_forall in Hsup.
  destruct full_sync.
  - destruct (sync_full_run E fuel athlete_id accessToken w fetched w1 Hfetch)
      as (r & w' & evs & Hrun & Ht & Hall & _).
    exists (Ret r), w', evs. split; [exact Hrun|]. split; [exact Ht|].
    assert (Hw : Forall (fun x => exists a,
                           In a (List.map (Item.withAthleteId athlete_id) fetched)
                           /\ stampOf x a) (writtenItems evs)).
    { clear -Hall. unfold writtenItems.
      induction Hall as [|ev evs Hev _ IH]; [constructor|].
      change (ev :: evs) with ([ev] ++ evs).
      rewrite writtenBatches_app, concat_app. apply Forall_app.
      split; [|exact IH].
      destruct Hev as [[[ms ->] | (items & ok & -> & Hitems)] | (a & ok & ->)];
        try constructor.
      destruct ok; cbn; [rewrite app_nil_r; exact Hitems | constructor]. }
    eapply Forall_impl; [exact Hw|]. intros x (y & Hy & [t ->]).
    apply in_map_iff in Hy as (a & <- & Ha). exact (Hsup a Ha).
  - destruct (sync_incremental_run E fuel athlete_id accessToken w fetched w1
                Hfetch) as (r & w' & evs & Hrun & Ht & _ & _ & Hitems & _).
    exists (Ret r), w', evs. split; [exact Hrun|]. split; [exact Ht|].
    eapply Forall_impl; [exact Hitems|].
    intros x (a & Ha & [t ->] & _). exact (Hsup a Ha).
Qed.

(** C7 fails on the detail path.  Upstream answers the request for activity 7
    with a kayaking trip recorded outdoors; [mapStravaType] gives [null], the
    detail handler does not test it, and the record is stored with no type
    tag. *)
Theorem detail_view_stores_unmapped_type :
  exists d w' x,
    Server.getActivityDetails (Samples.upstreamEnv Samples.accepted)
      (Server.mkDetailRequest 7 (Some "42"%string)) Samples.world0
    = (Ret (Server.Json d), w')
    /\ Server.mapStravaType "Kayaking" = None
    /\ store w' !! 7 = Some x
    /\ Item.type x = None
    /\ ~ supported x.
Proof.
  eexists _, _, _. split; [vm_compute; reflexivity|].
  split; [reflexivity|]. split; [vm_compute; reflexivity|].
  split; [reflexivity|]. unfold supported. cbn. discriminate.
Qed.

(* --------------------------------------------------------------------- *)
(** ** The fetch phase, page by page *)
(* --------------------------------------------------------------------- *)

Lemma getCountryFromCoordinates_names E startLatlng w :
  exists country w',
    Geo.getCountryFromCoordinates E startLatlng w = (Ret country, w')
    /\ country <> ""%string.
Proof.
  destruct startLatlng as [[|lat [|lng [|extra rest]]]|];
    try (eexists _, _; split; [reflexivity | discriminate]).
  cbn [Geo.getCountryFromCoordinates]. unfold bind.
  destruct (tryTier_cases (Geo.getCountryFromGoogle E lat lng) w
              (getCountryFromGoogle_settles E lat lng w))
    as [(c & w1 & -> & _ & Ht & _) | (w1 & ->)].
  { eexists _, _. split; [reflexivity | apply truthyString_nonempty, Ht]. }
  destruct (tryTier_cases (Geo.getCountryFromNominatim E lat lng) w1
              (getCountryFromNominatim_settles E lat lng w1))
    as [(c & w2 & -> & _ & Ht & _) | (w2 & ->)].
  { eexists _, _. split; [reflexivity | apply truthyString_nonempty, Ht]. }
  eexists _, _. split; [reflexivity|].
  apply getCountryFromCoordinateRanges_nonempty.
Qed.

(** The loop body: a record for a listed activity, a [continue] for the
    others; it never throws. *)
Lemma processActivity_run E activity w :
  exists w',
    if Intake.listed activity
    then exists a, Server.processActivity E activity w = (Ret (Some a), w')
                   /\ Intake.normalizes a activity
    else Server.processActivity E activity w = (Ret None, w').
Proof.
  unfold Intake.listed, Server.processActivity.
  destruct (Server.skippedAsVirtual activity); [exists w; reflexivity|].
  destruct (Server.isSupportedType (Server.mapStravaType (Strava.type activity)));
    [|exists w; reflexivity].
  destruct (Server.lacksPolylines activity); [exists w; reflexivity|].
  cbn [negb andb].
  assert (Hcoords : exists cs,
             match Server.summaryPolylineOf activity with
             | Some encoded => liftOption (decodePolyline (codeUnits encoded))
             | None => ret []
             end w = (Ret cs, w)
             /\ Intake.listCoordinates activity = cs).
  { unfold Intake.listCoordinates.
    destruct (Server.summaryPolylineOf activity) as [encoded|].
    - destruct (decodePolyline_returns (codeUnits encoded)) as [cs Hdec].
      exists cs. rewrite Hdec. split; reflexivity.
    - exists []. split; reflexivity. }
  destruct Hcoords as (cs & Hcs & Hlist). rewrite Hlist.
  destruct (length cs <? 3)%nat eqn:Hfew; cbn [negb].
  { exists w. unfold bind. rewrite Hcs, Hfew. reflexivity. }
  destruct cs as [|c cs]; [discriminate|].
  destruct (getCountryFromCoordinates_names E
              (Some [Finite (lat c); Finite (lng c)]) w)
    as (country & w' & Hrun & Hne).
  exists w'. eexists. unfold bind. rewrite Hcs, Hfew, Hrun.
  split; [reflexivity|]. unfold Intake.normalizes. cbn.
  rewrite Hlist. repeat split; try reflexivity; exact Hne.
Qed.

Lemma processPage_run E pageActivities :
  forall activities w,
    exists added w',
      Server.processPage E pageActivities activities w
      = (Ret (activities ++ added), w')
      /\ Forall2 Intake.normalizes added
           (List.filter Intake.listed pageActivities).
Proof.
  induction pageActivities as [|activity rest IH]; intros activities w.
  - exists [], w. cbn. rewrite app_nil_r. split; [reflexivity | constructor].
  - cbn [Server.processPage List.filter]. unfold bind at 1.
    destruct (processActivity_run E activity w) as [w1 Hbody].
    destruct (Intake.listed activity).
    + destruct Hbody as (a & -> & Hnorm).
      destruct (IH (activities ++ [a]) w1) as (added & w' & -> & Hall).
      exists (a :: added), w'. rewrite <- app_assoc.
      split; [reflexivity | constructor; assumption].
    + rewrite Hbody. destruct (IH activities w1) as (added & w' & -> & Hall).
      exists added, w'. split; [reflexivity | exact Hall].
Qed.

Lemma filter_concat_cons {A} (f : A -> bool) p ps :
  List.filter f (concat (p :: ps))
  = List.filter f p ++ List.filter f (concat ps).
Proof. cbn [concat]. apply List.filter_app. Qed.

Lemma fetchLoop_run E accessToken :
  forall pages fuel page activities w,
    Forall (fun p => p <> []) pages ->
    (forall k p, nth_error pages k = Some p ->
                 stravaPage E accessToken (page + k)%nat = Replied p) ->
    stravaPage E accessToken (page + length pages)%nat = Replied [] ->
    (length pages < fuel)%nat ->
    exists added w',
      Server.fetchLoop E fuel accessToken page activities w
      = (Ret (activities ++ added), w')
      /\ Forall2 Intake.normalizes added
           (List.filter Intake.listed (concat pages)).
Proof.
  induction pages as [|p pages IH];
    intros fuel page activities w Hne Hserve Hend Hfuel.
  - destruct fuel as [|fuel]; [simpl in Hfuel; lia|].
    cbn [Server.fetchLoop]. unfold bind at 1.
    cbn [length] in Hend. rewrite Nat.add_0_r in Hend. rewrite Hend.
    cbn. exists [], w. rewrite app_nil_r. split; [reflexivity | constructor].
  - destruct fuel as [|fuel]; [simpl in Hfuel; lia|].
    apply Forall_cons_1 in Hne as [Hp Hne].
    cbn [Server.fetchLoop]. unfold bind at 1.
    pose proof (Hserve 0%nat p eq_refl) as Hpage.
    rewrite Nat.add_0_r in Hpage. rewrite Hpage. cbn [awaitReply ret].
    replace (length p =? 0)%nat with false
      by (symmetry; apply Nat.eqb_neq; destruct p; [congruence | discriminate]).
    unfold bind at 1.
    destruct (processPage_run E p activities w) as (added1 & w1 & -> & Hall1).
    unfold bind at 1, sleep.
    match goal with
    | |- context [Server.fetchLoop E fuel accessToken (S page) _ ?w2] =>
        destruct (IH fuel (S page) (activities ++ added1) w2 Hne)
          as (added2 & w' & Hrun & Hall2)
    end.
    + intros k q Hk. replace (S page + k)%nat with (page + S k)%nat by lia.
      apply Hserve. exact Hk.
    + replace (S page + length pages)%nat
        with (page + length (p :: pages))%nat by (simpl; lia).
      exact Hend.
    + simpl in Hfuel. lia.
    + exists (added1 ++ added2), w'. rewrite Hrun, app_assoc.
      split; [reflexivity|].
      rewrite filter_concat_cons. apply Forall2_app; assumption.
Qed.

Lemma normalizes_ids fetched raws :
  Forall2 Intake.normalizes fetched raws ->
  List.map Item.id fetched = List.map Strava.id raws.
Proof.
  intros Hall. induction Hall as [|a raw fetched raws Hn _ IH]; [reflexivity|].
  cbn [List.map]. rewrite IH. destruct Hn as (-> & _). reflexivity.
Qed.

(** The distance string is the one [toFixed(1)] gives for the double that
    the division returns, which is not always the rounding of the decimal
    quotient: 1150 m are 1.149999... km as a double. *)
Example toFixed1_of_the_double :
  Server.toFixed1 (JS.divide 1150 1000) = "1.1"%string
  /\ Server.toFixed1 (JS.divide 150 1000) = "0.1"%string
  /\ Server.toFixed1 (JS.divide 350 1000) = "0.3"%string
  /\ Server.toFixed1 (JS.divide 250 1000) = "0.3"%string
  /\ Server.toFixed1 (JS.divide 12345 1000) = "12.3"%string
  /\ Server.toFixed1 (JS.divide (11503 # 10) 1000) = "1.2"%string.
Proof. repeat split; vm_compute; reflexivity. Qed.

(** X1.  When upstream serves the non-empty pages [pages] and then an empty
    page, and the loop is given more fuel than there are pages, the fetch
    returns exactly one record per listed activity, in upstream order; each
    record is the normalisation of its activity.  In particular its distance
    is the double [distance / 1000] written with one decimal as [toFixed(1)]
    writes it, as long as that double is below 1e21. *)
Theorem fetch_lists_upstream (E : Env) (accessToken : string)
        (pages : list (list Strava.RawActivity)) (fuel : nat) (w : World) :
  Intake.servesPages E accessToken pages ->
  (length pages < fuel)%nat ->
  exists fetched w',
    Server.fetchStravaActivities E fuel accessToken w = (Ret fetched, w')
    /\ Forall2 Intake.normalizes fetched
         (List.filter Intake.listed (concat pages))
    /\ List.map Item.id fetched
       = List.map Strava.id (List.filter Intake.listed (concat pages)).
Proof.
  intros (Hne & Hserve & Hend) Hfuel.
  destruct (fetchLoop_run E accessToken pages fuel 1 [] w Hne Hserve Hend Hfuel)
    as (fetched & w' & Hrun & Hall).
  exists fetched, w'. split; [exact Hrun|]. split; [exact Hall|].
  apply normalizes_ids, Hall.
Qed.

Lemma fetch_lists_upstream_witness :
  Intake.servesPages (Cases.pagedEnv Samples.accepted) "token"
    [Cases.firstPage; Cases.secondPage]
  /\ exists fetched w',
      Server.fetchStravaActivities (Cases.pagedEnv Samples.accepted) 5
        "token" Samples.world0 = (Ret fetched, w')
      /\ List.map Item.id fetched = [1; 4]
      /\ List.map Item.distance fetched = ["12.3"; "12.3"]%string.
Proof.
  assert (Hserve : Intake.servesPages (Cases.pagedEnv Samples.accepted)
                     "token" [Cases.firstPage; Cases.secondPage]).
  { split; [|split].
    - repeat constructor; discriminate.
    - intros [|[|k]] p Hk; simpl in Hk; try (destruct k; discriminate);
        injection Hk as <-; reflexivity.
    - reflexivity. }
  split; [exact Hserve|].
  destruct (fetch_lists_upstream (Cases.pagedEnv Samples.accepted) "token"
              [Cases.firstPage; Cases.secondPage] 5 Samples.world0 Hserve)
    as (fetched & w' & Hrun & _ & Hids); [simpl; lia|].
  exists fetched, w'. split; [exact Hrun|]. split.
  - rewrite Hids. vm_compute. reflexivity.
  - pose proof Hrun as Hc. vm_compute in Hc. injection Hc as <- _.
    reflexivity.
Defined.

(* --------------------------------------------------------------------- *)
(** ** What the list view and the sync pipeline produce *)
(* --------------------------------------------------------------------- *)

Lemma processActivity_summary E activity w a w' :
  Server.processActivity E activity w = (Ret (Some a), w') ->
  Intake.summary a /\ Item.athlete_id a = None /\ Item.stored_at a = None.
Proof.
  unfold Server.processActivity, bind, ret, throw. intros Hrun.
  destruct (Server.skippedAsVirtual activity); [discriminate|].
  destruct (Server.isSupportedType (Server.mapStravaType (Strava.type activity)))
    eqn:Hty; [|discriminate].
  cbn [negb] in Hrun.
  destruct (Server.lacksPolylines activity); [discriminate|].
  match type of Hrun with
  | context [match ?m w with _ => _ end] => destruct (m w) as [[cs|e|] w1]
  end; try discriminate.
  destruct (length cs <? 3)%nat eqn:Hfew; [discriminate|].
  destruct cs as [|c cs]; [discriminate|].
  destruct (getCountryFromCoordinates_names E
              (Some [Finite (lat c); Finite (lng c)]) w1)
    as (country & w2 & Hgeo & Hne).
  rewrite Hgeo in Hrun. injection Hrun as <- <-.
  apply Nat.ltb_ge in Hfew.
  split; [|split; reflexivity].
  unfold Intake.summary. cbn [Item.type Item.coordinates Item.country
    Item.elevation_gain Item.average_speed Item.start_date].
  assert (Hlen : (3 <= length (firstn 20 (c :: cs)) <= 20)%nat)
    by (rewrite length_firstn; lia).
  split; [exact Hty|]. split; [exact Hlen|].
  split; [exact Hne|]. repeat split.
Qed.

Section Loops.
Variable P : Item.Activity -> Prop.
Variable E : Env.
Hypothesis body :
  forall activity w a w',
    Server.processActivity E activity w = (Ret (Some a), w') -> P a.

Lemma processPage_Forall pageActivities :
  forall activities w result w',
    Server.processPage E pageActivities activities w = (Ret result, w') ->
    Forall P activities -> Forall P result.
Proof.
  induction pageActivities as [|activity rest IH];
    intros activities w result w' Hrun Hacc.
  - injection Hrun as <- <-. exact Hacc.
  - cbn [Server.processPage] in Hrun. unfold bind at 1 in Hrun.
    destruct (Server.processActivity E activity w) as [[[a|]|e|] w1] eqn:Hp;
      try discriminate.
    + eapply IH; [exact Hrun|]. apply Forall_app. split; [exact Hacc|].
      constructor; [|constructor]. eapply body. exact Hp.
    + eapply IH; eassumption.
Qed.

Lemma fetchLoop_Forall accessToken :
  forall fuel page activities w result w',
    Server.fetchLoop E fuel accessToken page activities w = (Ret result, w') ->
    Forall P activities -> Forall P result.
Proof.
  induction fuel as [|fuel IH]; intros page activities w result w' Hrun Hacc;
    [discriminate|].
  cbn [Server.fetchLoop] in Hrun. unfold bind at 1 in Hrun.
  destruct (awaitReply (stravaPage E accessToken page) w)
    as [[pageActivities|e|] w1]; try discriminate.
  destruct (length pageActivities =? 0)%nat.
  - injection Hrun as <- <-. exact Hacc.
  - unfold bind at 1 in Hrun.
    destruct (Server.processPage E pageActivities activities w1)
      as [[activities'|e|] w2] eqn:Hpage; try discriminate.
    unfold bind at 1, sleep in Hrun.
    eapply IH; [exact Hrun|].
    eapply processPage_Forall; eassumption.
Qed.

End Loops.

Lemma fetched_records_are_summaries_aux E fuel accessToken w fetched w' :
  Server.fetchStravaActivities E fuel accessToken w = (Ret fetched, w') ->
  Forall Intake.summary fetched.
Proof.
  intros Hrun. eapply fetchLoop_Forall; [|exact Hrun|constructor].
  intros activity w0 a w0' Hp. apply (processActivity_summary _ _ _ _ _ Hp).
Qed.

(** X2.  Whatever the fetch returns, every record of it has a supported
    type, between 3 and 20 coordinates, a non-empty country, no detail
    fields, no owner and no time stamp yet; and the fetch leaves the store as
    it was. *)
Theorem fetched_records_are_summaries (E : Env) (fuel : nat)
        (accessToken : string) (w : World)
        (fetched : list Item.Activity) (w' : World) :
  Server.fetchStravaActivities E fuel accessToken w = (Ret fetched, w') ->
  Forall (fun a => Intake.summary a
                   /\ Item.athlete_id a = None
                   /\ Item.stored_at a = None) fetched
  /\ store w' = store w.
Proof.
  intros Hrun. split.
  - eapply fetchLoop_Forall; [|exact Hrun|constructor].
    intros activity w0 a w0'. apply processActivity_summary.
  - apply (fetch_keeps_store _ _ _ _ _ _ Hrun).
Qed.

Lemma fetched_records_are_summaries_witness :
  exists fetched w',
    Server.fetchStravaActivities (Cases.pagedEnv Samples.accepted) 5 "token"
      Samples.world0 = (Ret fetched, w')
    /\ Forall (fun a => Intake.summary a
                        /\ Item.athlete_id a = None
                        /\ Item.stored_at a = None) fetched
    /\ length fetched = 2%nat.
Proof.
  destruct (Server.fetchStravaActivities (Cases.pagedEnv Samples.accepted) 5
              "token" Samples.world0) as [r w'] eqn:Hrun.
  pose proof Hrun as Hc. vm_compute in Hc.
  destruct r as [fetched|e|]; try discriminate.
  exists fetched, w'. split; [reflexivity|]. split.
  - exact (proj1 (fetched_records_are_summaries _ _ _ _ _ _ Hrun)).
  - injection Hc as <- _. reflexivity.
Defined.

Lemma written_from_sent sent evs :
  Forall (fun ev => putsFrom sent ev \/ isQuery ev) evs ->
  Forall (fun x => exists a, In a sent /\ stampOf x a) (writtenItems evs).
Proof.
  intros Hall. unfold writtenItems.
  induction Hall as [|ev evs Hev _ IH]; [constructor|].
  change (ev :: evs) with ([ev] ++ evs).
  rewrite writtenBatches_app, concat_app. apply Forall_app.
  split; [|exact IH].
  destruct Hev as [[[ms ->] | (items & ok & -> & Hitems)] | (a & ok & ->)];
    try constructor.
  destruct ok; cbn; [rewrite app_nil_r; exact Hitems | constructor].
Qed.

Lemma syncedFor_stamp athlete_id a t :
  Intake.summary a ->
  Intake.syncedFor athlete_id
    (Item.withStoredAt t (Item.withAthleteId athlete_id a)).
Proof.
  intros Hs. split; [exact Hs|]. split; [reflexivity|]. exists t. reflexivity.
Qed.

(** X3.  In either mode and whatever the outside does, every record that a
    sync run writes is a list-view record: supported type, between 3 and 20
    coordinates, non-empty country; it carries the athlete of the run and a
    time stamp. *)
Theorem sync_writes_summaries (E : Env) (fuel : nat)
        (athlete_id accessToken : string) (full_sync : bool) (w : World) :
  exists evs,
    trace (snd (Server.performBackgroundSync E fuel athlete_id accessToken
                  full_sync w)) = trace w ++ evs
    /\ Forall (Intake.syncedFor athlete_id) (writtenItems evs).
Proof.
  destruct (Server.fetchStravaActivities E fuel accessToken w)
    as [rf w1] eqn:Hfetch.
  destruct (fetch_keeps_store _ _ _ _ _ _ Hfetch)
    as (_ & evs0 & Ht0 & Hslept).
  assert (Hnone : writtenItems evs0 = []).
  { eapply writtenItems_readonly; [apply isSlept_readonly | exact Hslept]. }
  destruct rf as [fetched|e|].
  - pose proof (fetched_records_are_summaries_aux E fuel accessToken w fetched
                  w1 Hfetch) as Hsum.
    rewrite List.Forall_forall in Hsum.
    destruct full_sync.
    + destruct (sync_full_run E fuel athlete_id accessToken w fetched w1 Hfetch)
        as (r & w' & evs & Hrun & Ht & Hall & _).
      rewrite Hrun. cbn [snd]. exists (evs0 ++ evs).
      split; [rewrite Ht, Ht0, app_assoc; reflexivity|].
      rewrite writtenItems_app, Hnone. cbn [app].
      eapply Forall_impl; [exact (written_from_sent _ _ Hall)|].
      intros x (y & Hy & [t ->]).
      apply in_map_iff in Hy as (a & <- & Ha).
      apply syncedFor_stamp, Hsum, Ha.
    + destruct (sync_incremental_run E fuel athlete_id accessToken w fetched w1
                  Hfetch) as (r & w' & evs & Hrun & Ht & _ & _ & Hitems & _).
      rewrite Hrun. cbn [snd]. exists (evs0 ++ evs).
      split; [rewrite Ht, Ht0, app_assoc; reflexivity|].
      rewrite writtenItems_app, Hnone. cbn [app].
      eapply Forall_impl; [exact Hitems|].
      intros x (a & Ha & [t ->] & _). apply syncedFor_stamp, Hsum, Ha.
  - rewrite (sync_without_fetch E fuel athlete_id accessToken full_sync w _ w1
               Hfetch) by discriminate.
    exists evs0. split; [exact Ht0|]. rewrite Hnone. constructor.
  - rewrite (sync_without_fetch E fuel athlete_id accessToken full_sync w _ w1
               Hfetch) by discriminate.
    exists evs0. split; [exact Ht0|]. rewrite Hnone. constructor.
Qed.

(* --------------------------------------------------------------------- *)
(** ** The filters of the two views *)
(* --------------------------------------------------------------------- *)

(** X4.  Leaving aside the names of the properties that every object
    inherits (such as ["constructor"], for which the lookup in [typeMap]
    gives the inherited value): [mapStravaType] gives a supported tag for
    exactly six upstream types, none of which is such a name, and [null]
    for every other string, so that the test against
    ["run", "ride", "swim"] rejects the unmapped types and nothing else. *)
Theorem mapStravaType_range (stravaType : string) :
  (In stravaType ["Run"; "Ride"; "Swim"; "Walk"; "Hike"; "TrailRun"]%string ->
   Intake.inheritedProperty stravaType = false
   /\ Server.isSupportedType (Server.mapStravaType stravaType) = true)
  /\ (~ In stravaType ["Run"; "Ride"; "Swim"; "Walk"; "Hike"; "TrailRun"]%string ->
      Intake.inheritedProperty stravaType = false ->
      Server.mapStravaType stravaType = None
      /\ Server.isSupportedType (Server.mapStravaType stravaType) = false).
Proof.
  split.
  - intros [<-|[<-|[<-|[<-|[<-|[<-|[]]]]]]]; split; reflexivity.
  - intros Hout _. unfold Server.mapStravaType.
    destruct (String.eqb_spec stravaType "Run") as [->|H1];
      [exfalso; apply Hout; cbn; tauto|].
    destruct (String.eqb_spec stravaType "Ride") as [->|H2];
      [exfalso; apply Hout; cbn; tauto|].
    destruct (String.eqb_spec stravaType "VirtualRide") as [->|H3];
      [split; reflexivity|].
    destruct (String.eqb_spec stravaType "VirtualRun") as [->|H4];
      [split; reflexivity|].
    destruct (String.eqb_spec stravaType "Swim") as [->|H5];
      [exfalso; apply Hout; cbn; tauto|].
    destruct (String.eqb_spec stravaType "Walk") as [->|H6];
      [exfalso; apply Hout; cbn; tauto|].
    destruct (String.eqb_spec stravaType "Hike") as [->|H7];
      [exfalso; apply Hout; cbn; tauto|].
    destruct (String.eqb_spec stravaType "TrailRun") as [->|H8];
      [exfalso; apply Hout; cbn; tauto|].
    split; reflexivity.
Qed.

Lemma mapStravaType_range_witness :
  Intake.inheritedProperty "Kayaking" = false
  /\ Intake.inheritedProperty "constructor" = true
  /\ Server.mapStravaType "Kayaking" = None
  /\ Server.isSupportedType (Server.mapStravaType "TrailRun") = true.
Proof.
  split; [reflexivity|]. split; [reflexivity|].
  destruct (mapStravaType_range "Kayaking") as (_ & Hother).
  destruct (mapStravaType_range "TrailRun") as (Hlisted & _).
  split.
  - apply Hother; [|reflexivity].
    cbn. intros [H|[H|[H|[H|[H|[H|[]]]]]]]; discriminate.
  - apply Hlisted. cbn. tauto.
Defined.

(** X5.  An activity that the list view keeps passes every check of the
    detail view but the two on the full polyline: the detail view refuses it
    only when the full polyline is missing or decodes to fewer than 3
    points. *)
Theorem listed_is_refused_only_for_its_polyline (raw : Strava.RawActivity) :
  Intake.listed raw = true ->
  Server.rejectedDetail raw = true ->
  Server.fullPolylineOf raw = None
  \/ (length (Server.detailCoordinates raw) < 3)%nat.
Proof.
  unfold Intake.listed, Server.rejectedDetail, Server.rejectedAsVirtual,
    Server.skippedAsVirtual.
  intros Hlisted Hrej.
  repeat rewrite andb_true_iff in Hlisted.
  destruct Hlisted as [[[Hskip _] _] _].
  apply negb_true_iff in Hskip.
  repeat rewrite orb_false_iff in Hskip.
  destruct Hskip as [[[[[[[[[[[Htr Hman] _] Hvr] Hvn] _] _] _] _] _] _] Hstart].
  rewrite Htr, Hman, Hvr, Hvn in Hrej. cbn [orb] in Hrej.
  destruct (Strava.start_latlng raw) as [l|]; [|discriminate].
  cbn [orb] in Hrej.
  destruct (Server.fullPolylineOf raw) as [encoded|]; [|left; reflexivity].
  cbn [orb] in Hrej. right. apply Nat.ltb_lt. exact Hrej.
Qed.

Lemma listed_is_refused_only_for_its_polyline_witness :
  let raw :=
    Strava.mkRawActivity 9 "Morning outing" "Run" 12345 3725 None
      false false false (Some [38.5%Q; (-120.2)%Q])
      (Some (Strava.mkRawMap (Some Samples.reference) None))
      None None None in
  Intake.listed raw = true
  /\ Server.rejectedDetail raw = true
  /\ (Server.fullPolylineOf raw = None
      \/ (length (Server.detailCoordinates raw) < 3)%nat).
Proof.
  intros raw.
  assert (Hl : Intake.listed raw = true) by (vm_compute; reflexivity).
  assert (Hr : Server.rejectedDetail raw = true) by (vm_compute; reflexivity).
  split; [exact Hl|]. split; [exact Hr|].
  exact (listed_is_refused_only_for_its_polyline raw Hl Hr).
Defined.

(** X6.  The [commute] flag has no influence on the list view: the test
    [!activity.commute && activity.trainer] is subsumed by the test of
    [activity.trainer] before it, and the loop body does the same for an
    activity whatever the flag says. *)
Theorem commute_flag_is_ignored (E : Env) (raw : Strava.RawActivity)
        (commute : bool) (w : World) :
  Server.processActivity E
    (Strava.mkRawActivity (Strava.id raw) (Strava.name raw) (Strava.type raw)
       (Strava.distance raw) (Strava.moving_time raw)
       (Strava.workout_type raw) (Strava.trainer raw) (Strava.manual raw)
       commute (Strava.start_latlng raw) (Strava.map raw)
       (Strava.total_elevation_gain raw) (Strava.average_speed raw)
       (Strava.start_date raw)) w
  = Server.processActivity E raw w.
Proof.
  unfold Server.processActivity, Server.skippedAsVirtual,
    Server.lacksPolylines, Server.summaryPolylineOf, Server.isRaceOf.
  cbn [Strava.id Strava.name Strava.type Strava.trainer Strava.manual
       Strava.commute Strava.start_latlng Strava.map Strava.distance
       Strava.moving_time Strava.workout_type].
  destruct (Strava.trainer raw), (Strava.commute raw), commute; reflexivity.
Qed.

(* --------------------------------------------------------------------- *)
(** ** The gateway: queries, bulk writes and deletion *)
(* --------------------------------------------------------------------- *)

Lemma In_values (st : gmap Z Item.Activity) a :
  In a (snd <$> map_to_list st) <-> exists k, st !! k = Some a.
Proof.
  rewrite <- list_elem_of_In, list_elem_of_fmap. split.
  - intros ([k x] & -> & Hin). exists k. apply elem_of_map_to_list. exact Hin.
  - intros (k & Hk). exists (k, a). split; [reflexivity|].
    apply elem_of_map_to_list. exact Hk.
Qed.

Lemma ownedBy_spec athlete a :
  Dynamo.ownedBy athlete a = true <-> Item.athlete_id a = Some athlete.
Proof.
  unfold Dynamo.ownedBy. destruct (Item.athlete_id a) as [s|].
  - rewrite String.eqb_eq. split; congruence.
  - split; discriminate.
Qed.

Lemma In_itemsOf athlete (st : gmap Z Item.Activity) a :
  In a (Dynamo.itemsOf athlete st)
  <-> (exists k, st !! k = Some a) /\ Item.athlete_id a = Some athlete.
Proof.
  unfold Dynamo.itemsOf. rewrite List.filter_In, In_values, ownedBy_spec.
  reflexivity.
Qed.

Lemma activeFilter_spec f s :
  Dynamo.activeFilter f = Some s
  <-> f = Some s /\ s <> ""%string /\ s <> "all"%string.
Proof.
  unfold Dynamo.activeFilter, truthyString. destruct f as [x|].
  - destruct (String.eqb_spec x "") as [He|He],
      (String.eqb_spec x "all") as [Ha|Ha]; cbn [negb andb];
      (split; [try discriminate | intros (Hx & H1 & H2); congruence]).
    intros Hx. injection Hx as <-. auto.
  - split; [discriminate | intros (Hx & _); discriminate].
Qed.

Lemma In_firstPage E athlete (st : gmap Z Item.Activity) a :
  In a (Dynamo.firstPage E athlete st) -> In a (Dynamo.itemsOf athlete st).
Proof.
  unfold Dynamo.firstPage. intros Hin.
  rewrite <- (firstn_skipn (queryPage E (Dynamo.itemsOf athlete st))
                (Dynamo.itemsOf athlete st)).
  apply in_or_app. left. exact Hin.
Qed.

Lemma firstPage_all E athlete (st : gmap Z Item.Activity) :
  (length (Dynamo.itemsOf athlete st)
   <= queryPage E (Dynamo.itemsOf athlete st))%nat ->
  Dynamo.firstPage E athlete st = Dynamo.itemsOf athlete st.
Proof. intros Hfits. unfold Dynamo.firstPage. apply firstn_all2, Hfits. Qed.

Lemma passesFilters_spec filters a :
  Dynamo.passesFilters filters a = true
  <-> (forall t, Dynamo.activity_type filters = Some t ->
                 t <> ""%string -> t <> "all"%string ->
                 Item.type a = Some t)
      /\ (forall r, Dynamo.race_filter filters = Some r ->
                    r <> ""%string -> r <> "all"%string ->
                    Item.isRace a = String.eqb r "race").
Proof.
  unfold Dynamo.passesFilters. rewrite andb_true_iff. split.
  - intros (Hty & Hrace). split.
    + intros t Ht H1 H2.
      assert (Ha : Dynamo.activeFilter (Dynamo.activity_type filters) = Some t)
        by (apply activeFilter_spec; auto).
      rewrite Ha in Hty. destruct (Item.type a) as [t'|]; [|discriminate].
      apply String.eqb_eq in Hty. congruence.
    + intros r Hr H1 H2.
      assert (Ha : Dynamo.activeFilter (Dynamo.race_filter filters) = Some r)
        by (apply activeFilter_spec; auto).
      rewrite Ha in Hrace. apply Bool.eqb_prop in Hrace. exact Hrace.
  - intros (Hty & Hrace). split.
    + destruct (Dynamo.activeFilter (Dynamo.activity_type filters)) as [t|]
        eqn:Ha; [|reflexivity].
      apply activeFilter_spec in Ha as (Ht & H1 & H2).
      rewrite (Hty t Ht H1 H2). apply String.eqb_refl.
    + destruct (Dynamo.activeFilter (Dynamo.race_filter filters)) as [r|]
        eqn:Ha; [|reflexivity].
      apply activeFilter_spec in Ha as (Hr & H1 & H2).
      rewrite (Hrace r Hr H1 H2). apply Bool.eqb_reflx.
Qed.

(** X7.  [getActivities] sends one query and reads one page of the answer:
    when the query goes through it returns exactly the records of that page
    that pass the filters, and the page holds stored records of the athlete
    only.  A type filter other than the empty string and ["all"] keeps the
    records of that type, a race filter ["race"] keeps the races and any
    other non-empty race filter but ["all"] keeps the records that are not
    races.  When the records of the athlete fit in the page, the result is
    exactly the stored records of the athlete that pass the filters.  When
    the query is rejected the error is thrown on.  The store is the same
    after it. *)
Theorem getActivities_selects (E : Env) (athleteId : string)
        (filters : Dynamo.Filters) (w : World) :
  match sendOutcome E (sends w) with
  | Replied _ =>
      exists items w',
        Dynamo.getActivities E athleteId filters w = (Ret items, w')
        /\ store w' = store w
        /\ (forall a,
              In a items
              <-> In a (Dynamo.firstPage E athleteId (store w))
                  /\ (forall t, Dynamo.activity_type filters = Some t ->
                                t <> ""%string -> t <> "all"%string ->
                                Item.type a = Some t)
                  /\ (forall r, Dynamo.race_filter filters = Some r ->
                                r <> ""%string -> r <> "all"%string ->
                                Item.isRace a = String.eqb r "race"))
        /\ (forall a,
              In a (Dynamo.firstPage E athleteId (store w)) ->
              (exists k, store w !! k = Some a)
              /\ Item.athlete_id a = Some athleteId)
        /\ ((length (Dynamo.itemsOf athleteId (store w))
             <= queryPage E (Dynamo.itemsOf athleteId (store w)))%nat ->
            forall a,
              In a items
              <-> (exists k, store w !! k = Some a)
                  /\ Item.athlete_id a = Some athleteId
                  /\ (forall t, Dynamo.activity_type filters = Some t ->
                                t <> ""%string -> t <> "all"%string ->
                                Item.type a = Some t)
                  /\ (forall r, Dynamo.race_filter filters = Some r ->
                                r <> ""%string -> r <> "all"%string ->
                                Item.isRace a = String.eqb r "race"))
  | Rejected error =>
      exists w',
        Dynamo.getActivities E athleteId filters w = (Throw error, w')
        /\ store w' = store w
  end.
Proof.
  unfold Dynamo.getActivities, tryCatch, bind, Dynamo.sendQuery, throw, ret.
  destruct (sendOutcome E (sends w)) as [[]|error].
  - eexists _, _. split; [reflexivity|]. split; [reflexivity|].
    split; [|split].
    + intros a. rewrite List.filter_In, passesFilters_spec. tauto.
    + intros a Ha. apply In_itemsOf, (In_firstPage E), Ha.
    + intros Hfits a.
      rewrite List.filter_In, passesFilters_spec, (firstPage_all E) by exact Hfits.
      rewrite In_itemsOf. tauto.
  - eexists. split; reflexivity.
Qed.

(** *** Deletion *)

Lemma deleteAll_lookup ids : forall (st : gmap Z Item.Activity) k,
  Dynamo.deleteAll ids st !! k
  = if in_dec Z.eq_dec k ids then None else st !! k.
Proof.
  unfold Dynamo.deleteAll.
  induction ids as [|i ids IH]; intros st k; cbn [fold_left].
  - destruct (in_dec Z.eq_dec k []) as [[]|]; reflexivity.
  - rewrite IH.
    destruct (in_dec Z.eq_dec k ids) as [Hin|Hout],
      (in_dec Z.eq_dec k (i :: ids)) as [Hin'|Hout']; try reflexivity.
    + exfalso. apply Hout'. right. exact Hin.
    + destruct Hin' as [->|Hin]; [apply lookup_delete_eq | contradiction].
    + apply lookup_delete_ne. intros ->. apply Hout'. left. reflexivity.
Qed.

Lemma deleteAll_app xs ys (st : gmap Z Item.Activity) :
  Dynamo.deleteAll (xs ++ ys) st = Dynamo.deleteAll ys (Dynamo.deleteAll xs st).
Proof. unfold Dynamo.deleteAll. apply fold_left_app. Qed.

Lemma deleteBatches_no_failure E :
  (forall n, sendOutcome E n = Replied tt) ->
  forall batches total w,
    exists w',
      Dynamo.deleteBatches E batches total w
      = (Ret (total + length (concat batches))%nat, w')
      /\ store w'
         = Dynamo.deleteAll (List.map Item.id (concat batches)) (store w)
      /\ sends w' = (sends w + length batches)%nat.
Proof.
  intros Hok. induction batches as [|batch rest IH]; intros total w.
  - exists w. cbn. rewrite !Nat.add_0_r. auto.
  - cbn [Dynamo.deleteBatches]. unfold bind at 1, tryCatch,
      Dynamo.sendBatchDelete. rewrite Hok.
    match goal with
    | |- context [Dynamo.deleteBatches E rest ?t ?w1] =>
        destruct (IH t w1) as (w' & -> & Hst & Hs)
    end.
    exists w'. cbn [concat length store sends] in *.
    rewrite length_app, Nat.add_assoc. split; [reflexivity|].
    rewrite Hst, Hs, List.map_app, deleteAll_app. split; [reflexivity | lia].
Qed.

Lemma without_lookup athlete (st : gmap Z Item.Activity) k :
  Store.without athlete st !! k
  = match st !! k with
    | Some a => if Dynamo.ownedBy athlete a then None else Some a
    | None => None
    end.
Proof.
  unfold Store.without. destruct (st !! k) as [a|] eqn:Hk.
  - destruct (Dynamo.ownedBy athlete a) eqn:Ho.
    + apply map_lookup_filter_None. right. intros x Hx. cbn.
      rewrite Hk in Hx. injection Hx as <-. rewrite Ho. discriminate.
    + apply map_lookup_filter_Some. split; [exact Hk | exact Ho].
  - apply map_lookup_filter_None. left. exact Hk.
Qed.

Lemma passes_noFilters a : Dynamo.passesFilters Dynamo.noFilters a = true.
Proof. reflexivity. Qed.

Lemma filter_all {A} (f : A -> bool) l :
  (forall x, f x = true) -> List.filter f l = l.
Proof.
  intros Hf. induction l as [|x l IH]; [reflexivity|].
  cbn. rewrite Hf, IH. reflexivity.
Qed.

(** X8.  [deleteAllActivities] deletes one page.  On a table in which
    every record sits under its own [id], and with a store that accepts every
    command, it removes the records of the page that answers its query and no
    other, and returns their number.  When the records of the athlete fit in
    the page, none of them remains: the table it leaves is the old one
    without the athlete.  Otherwise the records after the page are left in
    the table. *)
Theorem deleteAllActivities_removes_one_page (E : Env) (athleteId : string)
        (w : World) :
  Store.wellKeyed (store w) ->
  (forall n, sendOutcome E n = Replied tt) ->
  exists w',
    Dynamo.deleteAllActivities E athleteId w
    = (Ret (length (Dynamo.firstPage E athleteId (store w))), w')
    /\ (forall k a,
          store w' !! k = Some a
          <-> store w !! k = Some a
              /\ ~ In a (Dynamo.firstPage E athleteId (store w)))
    /\ ((length (Dynamo.itemsOf athleteId (store w))
         <= queryPage E (Dynamo.itemsOf athleteId (store w)))%nat ->
        length (Dynamo.firstPage E athleteId (store w))
        = length (Dynamo.itemsOf athleteId (store w))
        /\ store w' = Store.without athleteId (store w)
        /\ forall k a, store w' !! k = Some a ->
                       Item.athlete_id a <> Some athleteId).
Proof.
  intros Hkeys Hok.
  set (page := Dynamo.firstPage E athleteId (store w)).
  assert (Hpage : forall k a,
             store w !! k = Some a ->
             (In k (List.map Item.id page) <-> In a page)).
  { intros k a Hk. split.
    - intros Hin. apply in_map_iff in Hin as (b & Hid & Hb).
      pose proof (In_firstPage E _ _ _ Hb) as Hall.
      apply In_itemsOf in Hall as ((k' & Hk') & _).
      pose proof (Hkeys _ _ Hk') as Hkey. rewrite Hid in Hkey. subst k'.
      rewrite Hk in Hk'. injection Hk' as ->. exact Hb.
    - intros Ha. apply in_map_iff. exists a.
      split; [exact (Hkeys _ _ Hk) | exact Ha]. }
  assert (Hgoal : exists w',
             Dynamo.deleteAllActivities E athleteId w
             = (Ret (length page), w')
             /\ store w' = Dynamo.deleteAll (List.map Item.id page) (store w)).
  { unfold Dynamo.deleteAllActivities, Dynamo.getActivities, tryCatch.
    unfold bind at 1. unfold bind at 1. unfold Dynamo.sendQuery.
    rewrite Hok. cbn [ret].
    rewrite (filter_all _ _ passes_noFilters). fold page.
    destruct (length page =? 0)%nat eqn:Hlen.
    - apply Nat.eqb_eq in Hlen. eexists. split; [rewrite Hlen; reflexivity|].
      destruct page; [reflexivity | discriminate].
    - destruct (makeBatches_spec page) as (bs & Hbs & Hcat & _).
      unfold bind at 1. rewrite Hbs. cbn [liftOption ret].
      match goal with
      | |- context [Dynamo.deleteBatches E bs 0 ?w1] =>
          destruct (deleteBatches_no_failure E Hok bs 0 w1)
            as (w' & -> & Hst & _)
      end.
      exists w'. rewrite Hcat in *. split; [reflexivity | exact Hst]. }
  destruct Hgoal as (w' & Hrun & Hst).
  assert (Hlook : forall k a,
             store w' !! k = Some a
             <-> store w !! k = Some a /\ ~ In a page).
  { intros k a. rewrite Hst, deleteAll_lookup.
    destruct (in_dec Z.eq_dec k (List.map Item.id page)) as [Hin|Hout].
    - split; [discriminate|]. intros (Hk & Hna). exfalso.
      apply Hna, (Hpage k a Hk), Hin.
    - split.
      + intros Hk. split; [exact Hk|]. intros Ha.
        apply Hout, (Hpage k a Hk), Ha.
      + intros (Hk & _). exact Hk. }
  exists w'. split; [exact Hrun|]. split; [exact Hlook|].
  intros Hfits.
  assert (Hall : page = Dynamo.itemsOf athleteId (store w))
    by (apply firstPage_all, Hfits).
  split; [rewrite Hall; reflexivity|]. split.
  - apply map_eq. intros k. rewrite without_lookup.
    destruct (store w' !! k) as [a|] eqn:Hk'.
    + apply Hlook in Hk' as (Hk & Hna). rewrite Hk.
      destruct (Dynamo.ownedBy athleteId a) eqn:Ho; [|reflexivity].
      exfalso. apply Hna. rewrite Hall. apply In_itemsOf.
      split; [eauto | apply ownedBy_spec, Ho].
    + destruct (store w !! k) as [a|] eqn:Hk; [|reflexivity].
      destruct (Dynamo.ownedBy athleteId a) eqn:Ho; [reflexivity|].
      exfalso. assert (Hin : store w' !! k = Some a).
      { apply Hlook. split; [exact Hk|]. rewrite Hall. intros Ha.
        apply In_itemsOf in Ha as (_ & Ha). apply ownedBy_spec in Ha.
        congruence. }
      rewrite Hk' in Hin. discriminate.
  - intros k a Hk' Hown. apply Hlook in Hk' as (Hk & Hna).
    apply Hna. rewrite Hall. apply In_itemsOf. split; [eauto | exact Hown].
Qed.

Lemma sharedWorld_wellKeyed : Store.wellKeyed (store Cases.sharedWorld).
Proof.
  intros k a Hk. cbn [store Cases.sharedWorld] in Hk.
  apply lookup_insert_Some in Hk as [[<- <-]|[_ Hk]]; [reflexivity|].
  apply lookup_singleton_Some in Hk as [<- <-]. reflexivity.
Qed.

Lemma twoRunsWorld_wellKeyed : Store.wellKeyed (store Cases.twoRunsWorld).
Proof.
  intros k a Hk. cbn [store Cases.twoRunsWorld] in Hk.
  apply lookup_insert_Some in Hk as [[<- <-]|[_ Hk]]; [reflexivity|].
  apply lookup_singleton_Some in Hk as [<- <-]. reflexivity.
Qed.

Lemma deleteAllActivities_removes_one_page_witness :
  Store.wellKeyed (store Cases.sharedWorld)
  /\ Store.wellKeyed (store Cases.twoRunsWorld)
  /\ (exists w',
         Dynamo.deleteAllActivities (Samples.upstreamEnv Samples.accepted) "42"
           Cases.sharedWorld = (Ret 1%nat, w')
         /\ store w' = Store.without "42" (store Cases.sharedWorld)
         /\ store w' !! 1 = None
         /\ store w' !! 2 = Some Cases.eveningRide)
  /\ (exists w' k a,
         Dynamo.deleteAllActivities Cases.smallPageEnv "42" Cases.twoRunsWorld
         = (Ret 1%nat, w')
         /\ store w' !! k = Some a
         /\ Item.athlete_id a = Some "42"%string).
Proof.
  split; [exact sharedWorld_wellKeyed|].
  split; [exact twoRunsWorld_wellKeyed|]. split.
  - destruct (deleteAllActivities_removes_one_page
                (Samples.upstreamEnv Samples.accepted) "42" Cases.sharedWorld
                sharedWorld_wellKeyed (fun n => eq_refl))
      as (w' & Hrun & _ & Hall).
    destruct Hall as (_ & Hst & _); [vm_compute; lia|].
    exists w'. split; [exact Hrun|]. split; [exact Hst|].
    rewrite Hst. split; vm_compute; reflexivity.
  - destruct (deleteAllActivities_removes_one_page Cases.smallPageEnv "42"
                Cases.twoRunsWorld twoRunsWorld_wellKeyed (fun n => eq_refl))
      as (w' & Hrun & Hlook & _).
    exists w', 1, Samples.staleRun. split; [exact Hrun|].
    split; [|reflexivity].
    apply Hlook. split; [vm_compute; reflexivity|].
    vm_compute. intros [H|[]]. discriminate.
Defined.

Lemma getActivities_selects_witness :
  (exists items w',
      Dynamo.getActivities (Samples.upstreamEnv Samples.accepted) "42"
        (Dynamo.mkFilters (Some "run"%string) (Some "training"%string))
        Cases.sharedWorld = (Ret items, w')
      /\ (forall a, In a items -> Item.isRace a = false)
      /\ In Samples.staleRun items)
  /\ (exists items w',
        Dynamo.getActivities Cases.smallPageEnv "42" Dynamo.noFilters
          Cases.twoRunsWorld = (Ret items, w')
        /\ length items = 1%nat
        /\ forall a, In a items -> Item.athlete_id a = Some "42"%string).
Proof.
  split.
  - pose proof (getActivities_selects (Samples.upstreamEnv Samples.accepted)
                  "42"
                  (Dynamo.mkFilters (Some "run"%string) (Some "training"%string))
                  Cases.sharedWorld) as H.
    cbn [sendOutcome Samples.upstreamEnv Samples.accepted] in H.
    destruct H as (items & w' & Hrun & _ & Hsel & _ & Hall).
    exists items, w'. split; [exact Hrun|]. split.
    + intros a Ha. apply Hsel in Ha as (_ & _ & Hrace).
      apply (Hrace "training"%string); [reflexivity | discriminate..].
    + apply Hall; [vm_compute; lia|].
      split; [exists 1; vm_compute; reflexivity|].
      split; [reflexivity|]. split.
      * intros t Ht _ _. injection Ht as <-. reflexivity.
      * intros r Hr _ _. injection Hr as <-. reflexivity.
  - pose proof (getActivities_selects Cases.smallPageEnv "42" Dynamo.noFilters
                  Cases.twoRunsWorld) as H.
    cbn [sendOutcome Cases.smallPageEnv Samples.accepted] in H.
    destruct H as (items & w' & Hrun & _ & Hsel & Hpage & _).
    exists items, w'. split; [exact Hrun|]. split.
    + pose proof Hrun as Hc. vm_compute in Hc. injection Hc as <- _.
      reflexivity.
    + intros a Ha. apply Hsel in Ha as (Ha & _). apply (Hpage a Ha).
Defined.

(** *** Bulk writes that go through *)

Lemma storeBatches_timeline E alen :
  (forall n, sendOutcome E n = Replied tt) ->
  forall batches total w,
    Dynamo.storeBatches E batches alen total w
    = (Ret (total + length (concat batches))%nat,
       mkWorld
         (Dynamo.putAll
            (Store.stamped (clock w) (Store.delayMs alen) batches) (store w))
         (clock w + Store.delayMs alen * Z.of_nat (length batches))
         (lastApiCall w)
         (sends w + length batches)%nat
         (requests w)
         (trace w ++ Store.timeline (clock w) (Store.delayMs alen) batches)).
Proof.
  intros Hok. induction batches as [|batch rest IH]; intros total w.
  - cbn. rewrite Z.mul_0_r, Z.add_0_r, !Nat.add_0_r, app_nil_r.
    destruct w; reflexivity.
  - cbn [Dynamo.storeBatches]. unfold bind at 1, dateNow.
    unfold bind at 1.
    cbn [Dynamo.sendWithRetry Dynamo.maxRetries Nat.leb].
    unfold bind at 1, tryCatch. unfold bind at 1.
    unfold Dynamo.sendBatchWrite. rewrite Hok. cbn [ret].
    unfold bind at 1, sleep. cbn [ret].
    rewrite IH. cbn [store clock lastApiCall sends requests trace].
    cbn [Store.stamped Store.timeline concat length].
    rewrite putAll_app, length_app, <- !app_assoc. cbn [app].
    f_equal; [f_equal; lia|]. unfold Store.delayMs. f_equal; lia.
Qed.

Lemma In_stamped x : forall batches t delay,
  0 <= delay ->
  In x (Store.stamped t delay batches) ->
  exists a j,
    In a (concat batches)
    /\ x = Item.withStoredAt (t + delay * j) a
    /\ 0 <= j < Z.of_nat (length batches).
Proof.
  induction batches as [|batch rest IH]; intros t delay Hd Hin; [destruct Hin|].
  cbn [Store.stamped] in Hin. apply in_app_iff in Hin as [Hin|Hin].
  - apply in_map_iff in Hin as (a & <- & Ha).
    exists a, 0. split; [cbn; apply in_app_iff; left; exact Ha|].
    split; [f_equal; lia | cbn [length]; lia].
  - destruct (IH _ _ Hd Hin) as (a & j & Ha & -> & Hj).
    exists a, (j + 1). split; [cbn; apply in_app_iff; right; exact Ha|].
    split; [f_equal; lia | cbn [length]; lia].
Qed.

Lemma stamped_ids batches : forall t delay,
  List.map Item.id (Store.stamped t delay batches)
  = List.map Item.id (concat batches).
Proof.
  induction batches as [|batch rest IH]; intros t delay; [reflexivity|].
  cbn [Store.stamped concat]. rewrite !List.map_app, IH. f_equal.
  rewrite List.map_map. reflexivity.
Qed.

Lemma NoDup_ids_eq (l : list Item.Activity) a b :
  List.NoDup (List.map Item.id l) ->
  In a l -> In b l -> Item.id a = Item.id b -> a = b.
Proof.
  induction l as [|x l IH]; intros Hnd Ha Hb Hid; [destruct Ha|].
  cbn [List.map] in Hnd. apply List.NoDup_cons_iff in Hnd as [Hx Hnd].
  destruct Ha as [<-|Ha], Hb as [<-|Hb]; try reflexivity.
  - exfalso. apply Hx. rewrite Hid. apply in_map. exact Hb.
  - exfalso. apply Hx. rewrite <- Hid. apply in_map. exact Ha.
  - apply IH; assumption.
Qed.

Lemma storeActivities_ok E activities w :
  (forall n, sendOutcome E n = Replied tt) ->
  exists batches,
    Dynamo.makeBatches activities = Some batches
    /\ concat batches = activities
    /\ length batches = ((length activities + 24) / 25)%nat
    /\ Dynamo.storeActivities E activities w
       = (Ret (length activities),
          mkWorld
            (Dynamo.putAll
               (Store.stamped (clock w) (Store.delayMs (length activities))
                  batches) (store w))
            (clock w
             + Store.delayMs (length activities) * Z.of_nat (length batches))
            (lastApiCall w)
            (sends w + length batches)%nat
            (requests w)
            (trace w
               ++ Store.timeline (clock w) (Store.delayMs (length activities))
                    batches)).
Proof.
  intros Hok.
  destruct (makeBatches_spec activities) as (bs & Hbs & Hcat & Hlen & _).
  exists bs. split; [exact Hbs|]. split; [exact Hcat|]. split; [exact Hlen|].
  unfold Dynamo.storeActivities. unfold bind at 1. rewrite Hbs.
  cbn [liftOption ret]. rewrite (storeBatches_timeline E _ Hok).
  rewrite Hcat. reflexivity.
Qed.



(** X10.  With a store that accepts every command and activities of
    distinct identifiers, what [storeActivities] has written is what
    [getActivity] reads back: each activity with the time stamp of its
    batch, taken during the run; and [activityExists] answers [true]. *)
Theorem storeActivities_then_getActivity (E : Env)
        (activities : list Item.Activity) (w : World) :
  (forall n, sendOutcome E n = Replied tt) ->
  List.NoDup (List.map Item.id activities) ->
  exists w',
    Dynamo.storeActivities E activities w = (Ret (length activities), w')
    /\ forall a, In a activities ->
         exists t,
           clock w <= t < clock w'
           /\ fst (Dynamo.getActivity E (Item.id a) w')
              = Ret (Some (Item.withStoredAt t a))
           /\ fst (Dynamo.activityExists E (Item.id a) w') = Ret true.
Proof.
  intros Hok Hnd.
  destruct (makeBatches_spec activities) as (bs & Hbs & Hcat & Hlen & _).
  assert (Hrun := storeBatches_timeline E (length activities) Hok bs 0 w).
  unfold Dynamo.storeActivities. unfold bind at 1. rewrite Hbs.
  cbn [liftOption ret]. rewrite Hrun, Hcat. cbn [Nat.add].
  eexists. split; [reflexivity|].
  intros a Ha. cbn [clock store].
  set (d := Store.delayMs (length activities)).
  assert (Hd : 0 < d) by (unfold d, Store.delayMs; destruct (_ <? _)%nat; lia).
  destruct (putAll_lookup_in (Store.stamped (clock w) d bs) (store w)
              (Item.id a)) as (x & Hx & Hid & Hlook).
  { rewrite stamped_ids, Hcat. apply in_map. exact Ha. }
  apply In_stamped in Hx as (a' & j & Ha' & -> & Hj); [|lia].
  rewrite Hcat in Ha'.
  assert (a' = a) as -> by (apply (NoDup_ids_eq activities); assumption).
  exists (clock w + d * j). split; [nia|].
  rewrite getActivity_run, activityExists_run, Hok. cbn [fst store].
  rewrite Hlook. split; reflexivity.
Qed.

Lemma storeActivities_then_getActivity_witness :
  List.NoDup (List.map Item.id [Samples.morningRun; Cases.eveningRide])
  /\ exists w' t,
      Dynamo.storeActivities (Samples.upstreamEnv Samples.accepted)
        [Samples.morningRun; Cases.eveningRide] Samples.world0
      = (Ret 2%nat, w')
      /\ fst (Dynamo.getActivity (Samples.upstreamEnv Samples.accepted) 2 w')
         = Ret (Some (Item.withStoredAt t Cases.eveningRide)).
Proof.
  assert (Hnd : List.NoDup
                  (List.map Item.id [Samples.morningRun; Cases.eveningRide])).
  { cbn. constructor; [intros [H|[]]; discriminate|].
    constructor; [intros []|constructor]. }
  split; [exact Hnd|].
  destruct (storeActivities_then_getActivity
              (Samples.upstreamEnv Samples.accepted)
              [Samples.morningRun; Cases.eveningRide] Samples.world0
              (fun n => eq_refl) Hnd) as (w' & Hrun & Hback).
  destruct (Hback Cases.eveningRide) as (t & _ & Hget & _);
    [right; left; reflexivity|].
  exists w', t. split; [exact Hrun | exact Hget].
Defined.

(* --------------------------------------------------------------------- *)
(** ** Sync runs against a store that answers *)
(* --------------------------------------------------------------------- *)

Lemma checkDuplicates_ok E athlete_id :
  (forall n, sendOutcome E n = Replied tt) ->
  forall newActivities toStore skipped w,
    exists w',
      Server.checkDuplicates E athlete_id newActivities toStore skipped w
      = (Ret (toStore
                ++ List.map (Item.withAthleteId athlete_id)
                     (List.filter (fun a => negb (Intake.known (store w) a))
                        newActivities),
              (skipped
               + length (List.filter (Intake.known (store w)) newActivities))%nat),
         w')
      /\ store w' = store w.
Proof.
  intros Hok. induction newActivities as [|a rest IH];
    intros toStore skipped w.
  - exists w. cbn. rewrite app_nil_r, Nat.add_0_r. split; reflexivity.
  - cbn [Server.checkDuplicates]. unfold bind at 1.
    rewrite activityExists_run, Hok.
    change (match store w !! Item.id a with
            | Some _ => true
            | None => false
            end) with (Intake.known (store w) a).
    match goal with
    | |- context [mkWorld ?s ?c ?l ?n ?r ?t] =>
        set (w1 := mkWorld s c l n r t)
    end.
    cbn [List.filter].
    destruct (Intake.known (store w) a); cbn [negb].
    + destruct (IH toStore (S skipped) w1) as (w' & Hrun & Hst).
      exists w'. rewrite Hrun. cbn [store w1 length].
      rewrite Nat.add_succ_r. split; [reflexivity | exact Hst].
    + destruct (IH (toStore ++ [Item.withAthleteId athlete_id a]) skipped w1)
        as (w' & Hrun & Hst).
      exists w'. rewrite Hrun. cbn [store w1 List.map].
      rewrite <- app_assoc. split; [reflexivity | exact Hst].
Qed.

Lemma filter_length_split {A} (f : A -> bool) l :
  (length (List.filter (fun a => negb (f a)) l) + length (List.filter f l))%nat
  = length l.
Proof.
  induction l as [|x l IH]; [reflexivity|].
  cbn [List.filter]. destruct (f x); cbn [negb length]; lia.
Qed.

(** A run in incremental mode when every command to the store goes
    through. *)
Lemma sync_incremental_ok E fuel athlete_id accessToken w fetched w1 :
  (forall n, sendOutcome E n = Replied tt) ->
  Server.fetchStravaActivities E fuel accessToken w = (Ret fetched, w1) ->
  let fresh :=
    List.filter (fun a => negb (Intake.known (store w) a)) fetched in
  exists total w' t delay batches,
    Server.performBackgroundSync E fuel athlete_id accessToken false w
    = (Ret (Some (Server.mkSyncReport (length fresh)
                    (length (List.filter (Intake.known (store w)) fetched))
                    total)), w')
    /\ concat batches = List.map (Item.withAthleteId athlete_id) fresh
    /\ store w' = Dynamo.putAll (Store.stamped t delay batches) (store w).
Proof.
  intros Hok Hfetch fresh.
  destruct (fetch_keeps_store _ _ _ _ _ _ Hfetch) as (Hst1 & _).
  destruct (checkDuplicates_ok E athlete_id Hok fetched [] 0 w1)
    as (w2 & Hdup & Hst2).
  rewrite Hst1 in Hdup. fold fresh in Hdup. cbn [app Nat.add] in Hdup.
  unfold Server.performBackgroundSync, tryCatch, bind.
  rewrite Hfetch, Hdup. cbv beta iota.
  destruct (0 <? length (List.map (Item.withAthleteId athlete_id) fresh))%nat
    eqn:Hsome.
  - destruct (storeActivities_ok E (List.map (Item.withAthleteId athlete_id) fresh)
                w2 Hok) as (bs & _ & Hcat & _ & Hrun).
    rewrite Hrun. cbv beta iota. unfold ret at 1.
    match goal with
    | |- context [Dynamo.getActivityCount E athlete_id ?w3] =>
        destruct (getActivityCount_run E athlete_id w3) as (n & ok & Hcount)
    end.
    rewrite Hcount. cbn [ret]. rewrite length_map.
    eexists n, _, _, _, bs. split; [reflexivity|]. split; [exact Hcat|].
    cbn [store]. rewrite Hst2, Hst1. reflexivity.
  - unfold ret at 1.
    destruct (getActivityCount_run E athlete_id w2) as (n & ok & Hcount).
    rewrite Hcount. cbn [ret].
    apply Nat.ltb_ge in Hsome. rewrite length_map in Hsome.
    assert (Hnil : fresh = [])
      by (destruct fresh; [reflexivity | simpl in Hsome; lia]).
    rewrite Hnil. cbn [length].
    eexists n, _, 0, 0, []. split; [reflexivity|]. split; [reflexivity|].
    cbn [store Store.stamped]. rewrite Hst2, Hst1. reflexivity.
Qed.

(** A run in full mode when every command to the store goes through. *)
Lemma sync_full_ok E fuel athlete_id accessToken w fetched w1 :
  (forall n, sendOutcome E n = Replied tt) ->
  Server.fetchStravaActivities E fuel accessToken w = (Ret fetched, w1) ->
  exists total w' t delay batches,
    Server.performBackgroundSync E fuel athlete_id accessToken true w
    = (Ret (Some (Server.mkSyncReport (length fetched) 0 total)), w')
    /\ concat batches = List.map (Item.withAthleteId athlete_id) fetched
    /\ store w' = Dynamo.putAll (Store.stamped t delay batches) (store w).
Proof.
  intros Hok Hfetch.
  destruct (fetch_keeps_store _ _ _ _ _ _ Hfetch) as (Hst1 & _).
  destruct (storeActivities_ok E (List.map (Item.withAthleteId athlete_id) fetched)
              w1 Hok) as (bs & _ & Hcat & _ & Hrun).
  unfold Server.performBackgroundSync, tryCatch, bind.
  rewrite Hfetch, Hrun. cbv beta iota. unfold ret at 1.
  match goal with
  | |- context [Dynamo.getActivityCount E athlete_id ?w3] =>
      destruct (getActivityCount_run E athlete_id w3) as (n & ok & Hcount)
  end.
  rewrite Hcount. cbn [ret]. rewrite length_map.
  eexists n, _, _, _, bs. split; [reflexivity|]. split; [exact Hcat|].
  cbn [store]. rewrite Hst1. reflexivity.
Qed.

Lemma known_stamped st t delay batches athlete_id sent a :
  concat batches = List.map (Item.withAthleteId athlete_id) sent ->
  (Intake.known st a = true \/ In (Item.id a) (List.map Item.id sent)) ->
  Intake.known (Dynamo.putAll (Store.stamped t delay batches) st) a = true.
Proof.
  intros Hcat [Hk|Hin]; unfold Intake.known in *.
  - destruct (putAll_keeps_keys (Store.stamped t delay batches) st (Item.id a))
      as [x ->]; [|reflexivity].
    destruct (st !! Item.id a); [eauto | discriminate].
  - destruct (putAll_lookup_in (Store.stamped t delay batches) st (Item.id a))
      as (x & _ & _ & ->); [|reflexivity].
    rewrite stamped_ids, Hcat, List.map_map. exact Hin.
Qed.

Lemma known_by_id st a b :
  Item.id a = Item.id b -> Intake.known st a = Intake.known st b.
Proof. unfold Intake.known. intros ->. reflexivity. Qed.

Lemma filter_keeps {A} (f : A -> bool) l :
  (forall x, In x l -> f x = true) -> List.filter f l = l.
Proof.
  induction l as [|x l IH]; intros Hf; [reflexivity|].
  cbn. rewrite (Hf x) by (left; reflexivity). f_equal.
  apply IH. intros y Hy. apply Hf. right. exact Hy.
Qed.

Lemma filter_none {A} (f : A -> bool) l :
  (forall x, In x l -> f x = false) -> List.filter f l = [].
Proof.
  induction l as [|x l IH]; intros Hf; [reflexivity|].
  cbn. rewrite (Hf x) by (left; reflexivity).
  apply IH. intros y Hy. apply Hf. right. exact Hy.
Qed.

(** X11.  With a store that answers every command, a run in incremental
    mode stores exactly the fetched records whose identifier is not in the
    table and counts the others as skipped; a record that was in the table
    is left as it was. *)
Theorem incremental_sync_stores_the_new (E : Env) (fuel : nat)
        (athlete_id accessToken : string) (w : World)
        (fetched : list Item.Activity) (w1 : World) :
  (forall n, sendOutcome E n = Replied tt) ->
  Server.fetchStravaActivities E fuel accessToken w = (Ret fetched, w1) ->
  exists total w',
    Server.performBackgroundSync E fuel athlete_id accessToken false w
    = (Ret (Some (Server.mkSyncReport
                    (length (List.filter
                               (fun a => negb (Intake.known (store w) a))
                               fetched))
                    (length (List.filter (Intake.known (store w)) fetched))
                    total)), w')
    /\ (forall a, In a fetched -> Intake.known (store w') a = true)
    /\ (forall k x, store w !! k = Some x -> store w' !! k = Some x).
Proof.
  intros Hok Hfetch.
  destruct (sync_incremental_ok E fuel athlete_id accessToken w fetched w1
              Hok Hfetch) as (total & w' & t & delay & bs & Hrun & Hcat & Hst).
  exists total, w'. split; [exact Hrun|]. split.
  - intros a Ha. rewrite Hst.
    destruct (Intake.known (store w) a) eqn:Hk.
    + eapply known_stamped; [exact Hcat | left; exact Hk].
    + eapply known_stamped; [exact Hcat | right].
      apply in_map. apply List.filter_In. split; [exact Ha|].
      rewrite Hk. reflexivity.
  - intros k x Hk. rewrite Hst, putAll_lookup_notin; [exact Hk|].
    rewrite stamped_ids, Hcat, List.map_map. intros Hin.
    apply in_map_iff in Hin as (a & Hid & Ha).
    apply List.filter_In in Ha as (_ & Hnew).
    unfold Intake.known in Hnew. cbn in Hid. rewrite Hid, Hk in Hnew.
    discriminate.
Qed.

Lemma incremental_sync_stores_the_new_witness :
  exists fetched w1 total w',
    Server.fetchStravaActivities (Cases.pagedEnv Samples.accepted) 5 "token"
      Samples.worldWithRun = (Ret fetched, w1)
    /\ Server.performBackgroundSync (Cases.pagedEnv Samples.accepted) 5 "42"
         "token" false Samples.worldWithRun
       = (Ret (Some (Server.mkSyncReport 1 1 total)), w')
    /\ store w' !! 1 = Some Samples.staleRun.
Proof.
  destruct (Server.fetchStravaActivities (Cases.pagedEnv Samples.accepted) 5
              "token" Samples.worldWithRun) as [r w1] eqn:Hfetch.
  pose proof Hfetch as Hc. vm_compute in Hc.
  destruct r as [fetched|e|]; try discriminate.
  destruct (incremental_sync_stores_the_new (Cases.pagedEnv Samples.accepted)
              5 "42" "token" Samples.worldWithRun fetched w1
              (fun n => eq_refl) Hfetch) as (total & w' & Hrun & _ & Hkept).
  exists fetched, w1, total, w'. split; [reflexivity|]. split.
  - rewrite Hrun. injection Hc as <- _. reflexivity.
  - apply Hkept. vm_compute. reflexivity.
Defined.

(** X12.  A sync is idempotent.  When upstream serves the same pages to
    both runs and the store answers every command, an incremental run that
    follows a completed run of either mode stores nothing: it skips every
    listed activity and leaves the table as the first run left it. *)
Theorem resync_stores_nothing (E : Env) (fuel : nat)
        (athlete_id accessToken : string) (full_sync : bool)
        (pages : list (list Strava.RawActivity)) (w : World) :
  (forall n, sendOutcome E n = Replied tt) ->
  Intake.servesPages E accessToken pages ->
  (length pages < fuel)%nat ->
  exists report1 w1 total w2,
    Server.performBackgroundSync E fuel athlete_id accessToken full_sync w
    = (Ret (Some report1), w1)
    /\ Server.performBackgroundSync E fuel athlete_id accessToken false w1
       = (Ret (Some (Server.mkSyncReport 0
                       (length (List.filter Intake.listed (concat pages)))
                       total)), w2)
    /\ store w2 = store w1.
Proof.
  intros Hok Hserve Hfuel.
  destruct Hserve as (Hne & Hpages & Hend).
  destruct (fetchLoop_run E accessToken pages fuel 1 [] w Hne Hpages Hend Hfuel)
    as (fetched & wf & Hfetch & Hids).
  apply normalizes_ids in Hids.
  change (Server.fetchLoop E fuel accessToken 1 [] w)
    with (Server.fetchStravaActivities E fuel accessToken w) in Hfetch.
  assert (Hfirst : exists report1 w1,
             Server.performBackgroundSync E fuel athlete_id accessToken
               full_sync w = (Ret (Some report1), w1)
             /\ forall a, In a fetched -> Intake.known (store w1) a = true).
  { destruct full_sync.
    - destruct (sync_full_ok E fuel athlete_id accessToken w fetched wf
                  Hok Hfetch) as (total & w1 & t & d & bs & Hrun & Hcat & Hst).
      eexists _, w1. split; [exact Hrun|]. intros a Ha. rewrite Hst.
      eapply known_stamped; [exact Hcat | right; apply in_map; exact Ha].
    - destruct (sync_incremental_ok E fuel athlete_id accessToken w fetched wf
                  Hok Hfetch) as (total & w1 & t & d & bs & Hrun & Hcat & Hst).
      eexists _, w1. split; [exact Hrun|]. intros a Ha. rewrite Hst.
      destruct (Intake.known (store w) a) eqn:Hk.
      + eapply known_stamped; [exact Hcat | left; exact Hk].
      + eapply known_stamped; [exact Hcat | right].
        apply in_map. apply List.filter_In. split; [exact Ha|].
        rewrite Hk. reflexivity. }
  destruct Hfirst as (report1 & w1 & Hrun1 & Hknown).
  destruct (fetchLoop_run E accessToken pages fuel 1 [] w1 Hne Hpages Hend
              Hfuel) as (fetched2 & wf2 & Hfetch2 & Hids2).
  apply normalizes_ids in Hids2.
  change (Server.fetchLoop E fuel accessToken 1 [] w1)
    with (Server.fetchStravaActivities E fuel accessToken w1) in Hfetch2.
  assert (Hknown2 : forall a, In a fetched2 -> Intake.known (store w1) a = true).
  { intros a Ha.
    assert (Hin : In (Item.id a) (List.map Item.id fetched))
      by (rewrite Hids, <- Hids2; apply in_map; exact Ha).
    apply in_map_iff in Hin as (b & Hid & Hb).
    rewrite (known_by_id _ a b) by (symmetry; exact Hid). apply Hknown, Hb. }
  destruct (sync_incremental_ok E fuel athlete_id accessToken w1 fetched2 wf2
              Hok Hfetch2) as (total & w2 & t & d & bs & Hrun2 & Hcat & Hst).
  rewrite (filter_none (fun a => negb (Intake.known (store w1) a)) fetched2)
    in Hrun2, Hcat
    by (intros a Ha; rewrite (Hknown2 a Ha); reflexivity).
  rewrite (filter_keeps (Intake.known (store w1)) fetched2 Hknown2) in Hrun2.
  exists report1, w1, total, w2. split; [exact Hrun1|]. split.
  - rewrite Hrun2. cbn [length]. do 4 f_equal.
    rewrite <- (length_map Item.id), Hids2, length_map. reflexivity.
  - rewrite Hst.
    assert (Hnil : Store.stamped t d bs = []).
    { clear -Hcat. cbn [List.map] in Hcat. revert t.
      induction bs as [|b bs IH]; intros t; [reflexivity|].
      cbn [concat] in Hcat. apply app_eq_nil in Hcat as [-> Hrest].
      cbn [Store.stamped List.map app]. apply IH. exact Hrest. }
    rewrite Hnil. reflexivity.
Qed.

(* --------------------------------------------------------------------- *)
(** ** The rate limiter and the tiers, one call at a time *)
(* --------------------------------------------------------------------- *)

Lemma rateLimitedCall_run apiName minIntervalMs w :
  Geo.rateLimitedCall apiName minIntervalMs w
  = (Ret tt, Meter.waitedFor apiName minIntervalMs w).
Proof.
  unfold Geo.rateLimitedCall, bind, dateNow, readLastApiCall,
    Geo.remainingWait, Meter.waitedFor.
  destruct (clock w - getLast (lastApiCall w) apiName <? minIntervalMs) eqn:Hlt.
  - apply Z.ltb_lt in Hlt.
    replace (clock w <? getLast (lastApiCall w) apiName + minIntervalMs)
      with true by (symmetry; apply Z.ltb_lt; lia).
    unfold sleep, Geo.stampCall. cbn [store clock lastApiCall sends requests trace].
    rewrite Z.max_r by lia.
    replace (clock w + (minIntervalMs - (clock w - getLast (lastApiCall w) apiName)))
      with (getLast (lastApiCall w) apiName + minIntervalMs) by lia.
    replace (minIntervalMs - (clock w - getLast (lastApiCall w) apiName))
      with (getLast (lastApiCall w) apiName + minIntervalMs - clock w) by lia.
    reflexivity.
  - apply Z.ltb_ge in Hlt.
    replace (clock w <? getLast (lastApiCall w) apiName + minIntervalMs)
      with false by (symmetry; apply Z.ltb_ge; lia).
    unfold ret, Geo.stampCall. cbn [store clock lastApiCall sends requests trace].
    rewrite Z.max_l by lia. rewrite app_nil_r. reflexivity.
Qed.

Lemma getLast_setLast l apiName t : getLast (setLast l apiName t) apiName = t.
Proof. destruct apiName; reflexivity. Qed.

(** X13.  A call of [rateLimitedCall] that runs alone returns at the first
    moment that is not before its entry and at least the interval after the
    tier's last stamp; it stamps the tier with that moment and changes
    nothing else but the clock. *)
Theorem rateLimitedCall_waits_out_the_interval
        (apiName : ApiName) (minIntervalMs : Z) (w : World) :
  exists w',
    Geo.rateLimitedCall apiName minIntervalMs w = (Ret tt, w')
    /\ clock w'
       = Z.max (clock w) (getLast (lastApiCall w) apiName + minIntervalMs)
    /\ getLast (lastApiCall w') apiName = clock w'
    /\ minIntervalMs <= clock w' - getLast (lastApiCall w) apiName
    /\ (forall other, other <> apiName ->
          getLast (lastApiCall w') other = getLast (lastApiCall w) other)
    /\ store w' = store w
    /\ sends w' = sends w
    /\ requests w' = requests w.
Proof.
  exists (Meter.waitedFor apiName minIntervalMs w).
  split; [apply rateLimitedCall_run|].
  unfold Meter.waitedFor. cbn [clock lastApiCall store sends requests].
  split; [reflexivity|]. split; [apply getLast_setLast|].
  split; [lia|]. split; [|auto].
  intros other Hne. destruct other, apiName; try reflexivity; congruence.
Qed.

Lemma getCountryFromGoogle_world E lat lng w :
  if truthyOptString (GOOGLE_API_KEY E)
  then snd (Geo.getCountryFromGoogle E lat lng w)
       = Meter.requested (Meter.waitedFor google 100 w)
  else Geo.getCountryFromGoogle E lat lng w
       = (Throw (plainError "Google API key not configured"), w).
Proof.
  unfold Geo.getCountryFromGoogle.
  destruct (truthyOptString (GOOGLE_API_KEY E)); [|reflexivity].
  cbn [negb]. unfold bind at 1. rewrite rateLimitedCall_run.
  unfold bind at 1, Geo.axiosGet, awaitReply.
  destruct (googleReply E _) as [data|err]; [|reflexivity].
  unfold ret at 1. unfold ret, throw. repeat case_match; reflexivity.
Qed.

Lemma getCountryFromNominatim_world E lat lng w :
  snd (Geo.getCountryFromNominatim E lat lng w)
  = Meter.requested (Meter.waitedFor nominatim 1100 w).
Proof.
  unfold Geo.getCountryFromNominatim.
  unfold bind at 1. rewrite rateLimitedCall_run.
  unfold bind at 1, Geo.axiosGet, awaitReply.
  destruct (nominatimReply E _) as [data|err]; [|reflexivity].
  unfold ret at 1. unfold ret, throw. repeat case_match; reflexivity.
Qed.

Lemma tryTier_world (tier : M string) w :
  fst (tier w) <> OutOfFuel ->
  exists found,
    Geo.tryTier tier w = (Ret found, snd (tier w))
    /\ match found with
       | Some country => fst (tier w) = Ret country
                         /\ Meter.usable country = true
       | None => forall country, fst (tier w) = Ret country ->
                                 Meter.usable country = false
       end.
Proof.
  intros Hfuel. unfold Geo.tryTier, tryCatch, bind, Meter.usable.
  destruct (tier w) as [[country|err|] w1]; cbn [fst snd] in *.
  - destruct (truthyString country && negb (String.eqb country "Unknown"))
      eqn:Hu.
    + exists (Some country). cbn [ret]. split; [reflexivity|]. auto.
    + exists None. split; [reflexivity|]. intros c [= <-]. exact Hu.
  - exists None. split; [reflexivity|]. discriminate.
  - congruence.
Qed.

(** The whole resolver on a pair, tier by tier. *)
Lemma getCountryFromCoordinates_tiers E lat lng w :
  let g := Geo.getCountryFromGoogle E lat lng w in
  let n := Geo.getCountryFromNominatim E lat lng (snd g) in
  let second :=
    match fst n with
    | Ret country =>
        if Meter.usable country then (Ret country, snd n)
        else (Ret (Geo.getCountryFromCoordinateRanges lat lng), snd n)
    | _ => (Ret (Geo.getCountryFromCoordinateRanges lat lng), snd n)
    end in
  Geo.getCountryFromCoordinates E (Some [lat; lng]) w
  = match fst g with
    | Ret country => if Meter.usable country then (Ret country, snd g)
                     else second
    | _ => second
    end.
Proof.
  cbv zeta.
  pose proof (getCountryFromGoogle_settles E lat lng w) as Hg.
  pose proof (getCountryFromNominatim_settles E lat lng
                (snd (Geo.getCountryFromGoogle E lat lng w))) as Hn.
  cbn [Geo.getCountryFromCoordinates].
  unfold bind, Geo.tryTier, tryCatch, bind, ret, Meter.usable.
  destruct (Geo.getCountryFromGoogle E lat lng w) as [[c|e|] w1];
    cbn [fst snd] in *; [| |congruence].
  - destruct (truthyString c && negb (String.eqb c "Unknown")); [reflexivity|].
    destruct (Geo.getCountryFromNominatim E lat lng w1) as [[c2|e2|] w2];
      cbn [fst snd] in *; [| reflexivity | congruence].
    destruct (truthyString c2 && negb (String.eqb c2 "Unknown")); reflexivity.
  - destruct (Geo.getCountryFromNominatim E lat lng w1) as [[c2|e2|] w2];
      cbn [fst snd] in *; [| reflexivity | congruence].
    destruct (truthyString c2 && negb (String.eqb c2 "Unknown")); reflexivity.
Qed.

(** X14.  What a resolution costs.  It sends nothing to the store and at
    most two HTTP requests, at most one when no Google key is configured
    (Google is then neither asked nor stamped); and when the stamps of both
    tiers lie in the past, the rate limiter delays it by at most 1200 ms. *)
Theorem getCountryFromCoordinates_cost (E : Env)
        (startLatlng : option (list real)) (w : World) :
  exists country w',
    Geo.getCountryFromCoordinates E startLatlng w = (Ret country, w')
    /\ store w' = store w
    /\ sends w' = sends w
    /\ (requests w <= requests w' <= requests w + 2)%nat
    /\ (truthyOptString (GOOGLE_API_KEY E) = false ->
        (requests w' <= requests w + 1)%nat
        /\ last_google (lastApiCall w') = last_google (lastApiCall w))
    /\ clock w <= clock w'
    /\ (last_google (lastApiCall w) <= clock w ->
        last_nominatim (lastApiCall w) <= clock w ->
        clock w' <= clock w + 1200).
Proof.
  destruct startLatlng as [[|lat [|lng [|extra rest]]]|];
    try (exists "Unknown"%string, w; split; [reflexivity|];
         repeat split; try lia; reflexivity).
  pose proof (getCountryFromGoogle_world E lat lng w) as Hg.
  pose proof (getCountryFromNominatim_world E lat lng
                (snd (Geo.getCountryFromGoogle E lat lng w))) as Hn.
  assert (Hcases :
            exists country w',
              Geo.getCountryFromCoordinates E (Some [lat; lng]) w
              = (Ret country, w')
              /\ (w' = snd (Geo.getCountryFromGoogle E lat lng w)
                  /\ truthyOptString (GOOGLE_API_KEY E) = true
                  \/ w' = snd (Geo.getCountryFromNominatim E lat lng
                                 (snd (Geo.getCountryFromGoogle E lat lng w))))).
  { rewrite getCountryFromCoordinates_tiers. cbv zeta.
    destruct (truthyOptString (GOOGLE_API_KEY E)) eqn:Hkey;
      [|rewrite Hg; cbn [fst snd]].
    - repeat case_match; eexists _, _; (split; [reflexivity|]); auto.
    - repeat case_match; eexists _, _; (split; [reflexivity|]);
        right; rewrite ?Hg; reflexivity. }
  destruct Hcases as (country & w' & Hrun & Hw').
  exists country, w'. split; [exact Hrun|].
  destruct (truthyOptString (GOOGLE_API_KEY E)) eqn:Hkey.
  - destruct Hw' as [[-> _] | ->].
    + rewrite Hg. unfold Meter.requested, Meter.waitedFor.
      cbn [store sends requests clock lastApiCall getLast setLast
           last_google last_nominatim].
      repeat split; try lia; discriminate.
    + rewrite Hn, Hg. unfold Meter.requested, Meter.waitedFor.
      cbn [store sends requests clock lastApiCall getLast setLast
           last_google last_nominatim].
      repeat split; try lia; discriminate.
  - destruct Hw' as [[_ Habs] | ->]; [discriminate|].
    rewrite Hn, Hg. unfold Meter.requested, Meter.waitedFor.
    cbn [snd store sends requests clock lastApiCall getLast setLast
         last_google last_nominatim].
    repeat split; try lia.
Qed.

Lemma getCountryFromCoordinates_cost_witness :
  exists country w',
    Geo.getCountryFromCoordinates (Samples.upstreamEnv Samples.accepted)
      (Some [Finite 38.5; Finite (-120.2)]) Samples.world0
    = (Ret country, w')
    /\ requests w' = 1%nat
    /\ clock w' <= clock Samples.world0 + 1200.
Proof.
  destruct (getCountryFromCoordinates_cost (Samples.upstreamEnv Samples.accepted)
              (Some [Finite 38.5; Finite (-120.2)]) Samples.world0)
    as (country & w' & Hrun & _ & _ & Hreq & Hkey & _ & Hclock).
  exists country, w'. split; [exact Hrun|]. split.
  - destruct (Hkey eq_refl) as [Hle _]. cbn in Hle, Hreq.
    pose proof Hrun as Hc. vm_compute in Hc. injection Hc as _ <-. reflexivity.
  - apply Hclock; vm_compute; discriminate.
Defined.

Lemma getCountryFromGoogle_answer E lat lng w data component :
  truthyOptString (GOOGLE_API_KEY E) = true ->
  googleReply E (requests w) = Replied data ->
  status data = "OK"%string ->
  Meter.countryComponent data = Some component ->
  Geo.getCountryFromGoogle E lat lng w
  = (Ret (long_name component), Meter.requested (Meter.waitedFor google 100 w)).
Proof.
  intros Hkey Hreply Hstatus Hcomp.
  unfold Geo.getCountryFromGoogle. rewrite Hkey. cbn [negb].
  unfold bind at 1. rewrite rateLimitedCall_run.
  unfold bind at 1, Geo.axiosGet.
  cbn [requests Meter.waitedFor]. rewrite Hreply. cbn [awaitReply ret].
  rewrite Hstatus. change (String.eqb "OK" "OK") with true.
  unfold Meter.countryComponent in Hcomp.
  destruct (results data) as [|first others]; [discriminate|].
  change (0 <? length (first :: others))%nat with true.
  cbn [andb]. rewrite Hcomp. reflexivity.
Qed.

Lemma getCountryFromNominatim_answer E lat lng w country :
  nominatimReply E (requests w)
  = Replied (Some (mkNominatimData (Some (mkNominatimAddress (Some country))))) ->
  truthyString country = true ->
  Geo.getCountryFromNominatim E lat lng w
  = (Ret country, Meter.requested (Meter.waitedFor nominatim 1100 w)).
Proof.
  intros Hreply Htruthy.
  unfold Geo.getCountryFromNominatim.
  unfold bind at 1. rewrite rateLimitedCall_run.
  unfold bind at 1, Geo.axiosGet.
  cbn [requests Meter.waitedFor]. rewrite Hreply. cbn [awaitReply ret].
  cbn [address address_country]. rewrite Htruthy. reflexivity.
Qed.

Lemma usable_truthy country :
  Meter.usable country = true -> truthyString country = true.
Proof. unfold Meter.usable. intros H. apply andb_true_iff in H. tauto. Qed.

(** X15.  The order of the tiers.  A usable country name from Google is the
    answer, and Nominatim is then neither asked nor stamped.  Without a
    Google key the only request goes to Nominatim, and a usable name from it
    is the answer; when it rejects the request instead, the answer is the
    one of the static table. *)
Theorem tiers_are_tried_in_order (E : Env) (lat lng : real) (w : World) :
  (forall data component,
      truthyOptString (GOOGLE_API_KEY E) = true ->
      googleReply E (requests w) = Replied data ->
      status data = "OK"%string ->
      Meter.countryComponent data = Some component ->
      Meter.usable (long_name component) = true ->
      Geo.getCountryFromCoordinates E (Some [lat; lng]) w
      = (Ret (long_name component),
         Meter.requested (Meter.waitedFor google 100 w)))
  /\ (forall country,
        truthyOptString (GOOGLE_API_KEY E) = false ->
        nominatimReply E (requests w)
        = Replied (Some (mkNominatimData
                           (Some (mkNominatimAddress (Some country))))) ->
        Meter.usable country = true ->
        Geo.getCountryFromCoordinates E (Some [lat; lng]) w
        = (Ret country, Meter.requested (Meter.waitedFor nominatim 1100 w)))
  /\ (forall error,
        truthyOptString (GOOGLE_API_KEY E) = false ->
        nominatimReply E (requests w) = Rejected error ->
        Geo.getCountryFromCoordinates E (Some [lat; lng]) w
        = (Ret (Geo.getCountryFromCoordinateRanges lat lng),
           Meter.requested (Meter.waitedFor nominatim 1100 w))).
Proof.
  split; [|split].
  - intros data component Hkey Hreply Hstatus Hcomp Husable.
    rewrite getCountryFromCoordinates_tiers. cbv zeta.
    rewrite (getCountryFromGoogle_answer E lat lng w data component)
      by assumption.
    cbn [fst snd]. rewrite Husable. reflexivity.
  - intros country Hkey Hreply Husable.
    rewrite getCountryFromCoordinates_tiers. cbv zeta.
    pose proof (getCountryFromGoogle_world E lat lng w) as Hg.
    rewrite Hkey in Hg. rewrite Hg. cbn [fst snd].
    rewrite (getCountryFromNominatim_answer E lat lng w country)
      by (try apply usable_truthy; assumption).
    cbn [fst snd]. rewrite Husable. reflexivity.
  - intros error Hkey Hreply.
    rewrite getCountryFromCoordinates_tiers. cbv zeta.
    pose proof (getCountryFromGoogle_world E lat lng w) as Hg.
    rewrite Hkey in Hg. rewrite Hg. cbn [fst snd].
    pose proof (getCountryFromNominatim_world E lat lng w) as Hn.
    destruct (Geo.getCountryFromNominatim E lat lng w) as [r wn] eqn:Hrun.
    cbn [fst snd] in *. subst wn.
    assert (Hr : r = Throw error).
    { revert Hrun. unfold Geo.getCountryFromNominatim.
      unfold bind at 1. rewrite rateLimitedCall_run.
      unfold bind at 1, Geo.axiosGet.
      cbn [requests Meter.waitedFor]. rewrite Hreply. cbn [awaitReply throw].
      intros Heq. injection Heq as <-. reflexivity. }
    rewrite Hr. reflexivity.
Qed.

Lemma tiers_are_tried_in_order_witness :
  Meter.countryComponent Cases.franceReply
  = Some (mkAddressComponent "France" ["country"; "political"]%string)
  /\ exists w',
      Geo.getCountryFromCoordinates Cases.googleEnv
        (Some [Finite 48.85; Finite 2.35]) Samples.world0
      = (Ret "France"%string, w')
      /\ requests w' = 1%nat
      /\ last_nominatim (lastApiCall w') = 0.
Proof.
  split; [reflexivity|].
  destruct (tiers_are_tried_in_order Cases.googleEnv (Finite 48.85)
              (Finite 2.35) Samples.world0) as (Hgoogle & _ & _).
  eexists. split.
  - apply (Hgoogle Cases.franceReply
             (mkAddressComponent "France" ["country"; "political"]%string));
      reflexivity.
  - split; reflexivity.
Defined.

(* --------------------------------------------------------------------- *)
(** ** Schedules without interleaving *)
(* --------------------------------------------------------------------- *)

Lemma run_app xs ys s :
  Limiter.run (xs ++ ys) s
  = match Limiter.run xs s with
    | Some s' => Limiter.run ys s'
    | None => None
    end.
Proof.
  revert s. induction xs as [|x xs IH]; intros s; [reflexivity|].
  cbn [app Limiter.run]. destruct (Limiter.act x s); [apply IH | reflexivity].
Qed.

Lemma spacedFrom_snoc log : forall prev a t,
  Limiter.spacedFrom prev (log ++ [(a, t)])
  = Limiter.spacedFrom prev log
    && match match Serial.lastStart a log with
             | Some t' => Some t'
             | None => prev a
             end with
       | Some t0 => Limiter.minInterval a <=? t - t0
       | None => true
       end.
Proof.
  induction log as [|[b u] log IH]; intros prev a t.
  - cbn. apply andb_true_r.
  - cbn [app Limiter.spacedFrom Serial.lastStart]. rewrite IH, andb_assoc.
    f_equal. destruct (Serial.lastStart a log); [reflexivity|].
    destruct a, b; reflexivity.
Qed.

Lemma lastStart_snoc log : forall a b t,
  Serial.lastStart a (log ++ [(b, t)])
  = match b, a with
    | google, google | nominatim, nominatim => Some t
    | _, _ => Serial.lastStart a log
    end.
Proof.
  induction log as [|[c u] log IH]; intros a b t.
  - cbn. destruct b, a; reflexivity.
  - cbn [app Serial.lastStart]. rewrite IH.
    destruct b, a; try reflexivity.
Qed.

(** A request that starts at [t], the interval after the tier's stamp or
    later, keeps the log spaced when the stamp is the start of the tier's
    last request. *)
Lemma started_snoc (s : Limiter.Sched) apiName t :
  Limiter.spaced (Limiter.started s) = true ->
  (forall a t0, Serial.lastStart a (Limiter.started s) = Some t0 ->
                getLast (Limiter.last s) a = t0) ->
  Limiter.minInterval apiName <= t - getLast (Limiter.last s) apiName ->
  Limiter.spaced (Limiter.started s ++ [(apiName, t)]) = true
  /\ (forall a t0,
        Serial.lastStart a (Limiter.started s ++ [(apiName, t)]) = Some t0 ->
        getLast (setLast (Limiter.last s) apiName t) a = t0).
Proof.
  intros Hsp Hlast Hgap. split.
  - unfold Limiter.spaced in *. rewrite spacedFrom_snoc, Hsp. cbn [andb].
    destruct (Serial.lastStart apiName (Limiter.started s)) as [t0|] eqn:Hl;
      [|reflexivity].
    apply Hlast in Hl. apply Z.leb_le. lia.
  - intros a t0. rewrite lastStart_snoc.
    destruct apiName, a; cbn [getLast setLast last_google last_nominatim];
      try (intros [= <-]; reflexivity); apply Hlast.
Qed.

Lemma serial_step step s :
  Serial.nonnegative step ->
  Limiter.sleeping s = [] ->
  Limiter.spaced (Limiter.started s) = true ->
  (forall a t0, Serial.lastStart a (Limiter.started s) = Some t0 ->
                getLast (Limiter.last s) a = t0) ->
  exists s',
    Limiter.run (match step with
                 | Serial.Idle dt => [Limiter.Tick dt]
                 | Serial.Complete apiName => Serial.alone apiName s
                 end) s = Some s'
    /\ Limiter.sleeping s' = []
    /\ Limiter.spaced (Limiter.started s') = true
    /\ (forall a t0, Serial.lastStart a (Limiter.started s') = Some t0 ->
                     getLast (Limiter.last s') a = t0)
    /\ length (Limiter.started s')
       = (length (Limiter.started s)
          + if Serial.isCall step then 1 else 0)%nat.
Proof.
  intros Hstep Hsl Hsp Hlast. destruct step as [dt|apiName].
  - cbn in Hstep. cbn [Limiter.run Limiter.act].
    replace (0 <=? dt) with true by (symmetry; apply Z.leb_le; exact Hstep).
    eexists. split; [reflexivity|].
    cbn [Limiter.sleeping Limiter.started Limiter.last Serial.isCall].
    rewrite Nat.add_0_r. auto.
  - unfold Serial.alone, Geo.remainingWait.
    destruct (Limiter.now s - getLast (Limiter.last s) apiName
              <? Limiter.minInterval apiName) eqn:Hlt.
    + apply Z.ltb_lt in Hlt.
      cbn [Limiter.run Limiter.act]. unfold Geo.remainingWait.
      replace (Limiter.now s - getLast (Limiter.last s) apiName
               <? Limiter.minInterval apiName) with true
        by (symmetry; apply Z.ltb_lt; exact Hlt).
      cbn [Limiter.now Limiter.last Limiter.sleeping Limiter.started].
      replace (0 <=? Limiter.minInterval apiName
                     - (Limiter.now s - getLast (Limiter.last s) apiName))
        with true by (symmetry; apply Z.leb_le; lia).
      cbn [Limiter.now Limiter.last Limiter.sleeping Limiter.started].
      rewrite Hsl. cbn [app length nth_error Limiter.sl_due Limiter.sl_api].
      rewrite Z.leb_refl.
      eexists. split; [reflexivity|].
      cbn [Limiter.sleeping Limiter.started Limiter.last firstn skipn app
           Serial.isCall].
      split; [reflexivity|].
      destruct (started_snoc s apiName
                  (Limiter.now s
                   + (Limiter.minInterval apiName
                      - (Limiter.now s - getLast (Limiter.last s) apiName)))
                  Hsp Hlast) as (Hsp' & Hlast'); [lia|].
      split; [exact Hsp'|]. split; [exact Hlast'|].
      rewrite length_app. reflexivity.
    + apply Z.ltb_ge in Hlt.
      cbn [Limiter.run Limiter.act]. unfold Geo.remainingWait.
      replace (Limiter.now s - getLast (Limiter.last s) apiName
               <? Limiter.minInterval apiName) with false
        by (symmetry; apply Z.ltb_ge; exact Hlt).
      eexists. split; [reflexivity|].
      cbn [Limiter.sleeping Limiter.started Limiter.last Serial.isCall].
      split; [exact Hsl|].
      destruct (started_snoc s apiName (Limiter.now s) Hsp Hlast)
        as (Hsp' & Hlast'); [lia|].
      split; [exact Hsp'|]. split; [exact Hlast'|].
      rewrite length_app. reflexivity.
Qed.

Lemma serial_run steps : forall s,
  Forall Serial.nonnegative steps ->
  Limiter.sleeping s = [] ->
  Limiter.spaced (Limiter.started s) = true ->
  (forall a t0, Serial.lastStart a (Limiter.started s) = Some t0 ->
                getLast (Limiter.last s) a = t0) ->
  exists actions s',
    Serial.schedule steps s = Some actions
    /\ Limiter.run actions s = Some s'
    /\ Limiter.sleeping s' = []
    /\ Limiter.spaced (Limiter.started s') = true
    /\ length (Limiter.started s')
       = (length (Limiter.started s)
          + length (List.filter Serial.isCall steps))%nat.
Proof.
  induction steps as [|step steps IH]; intros s Hall Hsl Hsp Hlast.
  - exists [], s. cbn. rewrite Nat.add_0_r. auto.
  - apply Forall_cons_1 in Hall as [Hstep Hall].
    destruct (serial_step step s Hstep Hsl Hsp Hlast)
      as (s1 & Hrun1 & Hsl1 & Hsp1 & Hlast1 & Hlen1).
    destruct (IH s1 Hall Hsl1 Hsp1 Hlast1)
      as (more & s' & Hsched & Hrun & Hsl' & Hsp' & Hlen').
    cbn [Serial.schedule]. rewrite Hrun1, Hsched.
    eexists _, s'. split; [reflexivity|].
    rewrite run_app, Hrun1. split; [exact Hrun|].
    split; [exact Hsl'|]. split; [exact Hsp'|].
    rewrite Hlen', Hlen1. cbn [List.filter].
    destruct (Serial.isCall step); cbn [length]; lia.
Qed.

(** X16.  Calls of [rateLimitedCall] that do not interleave keep the
    policy.  On the machine that runs the interleaved schedules, a schedule
    in which every call runs from its entry to its stamp before the next
    thing happens always runs to its end, every call issues its request, no
    call is left asleep, and each request to a tier starts at least the
    tier's interval after the one before it. *)
Theorem serial_calls_keep_the_interval (steps : list Serial.Step) (t0 : Z) :
  Forall Serial.nonnegative steps ->
  exists actions s,
    Serial.schedule steps (Limiter.boot t0) = Some actions
    /\ Limiter.run actions (Limiter.boot t0) = Some s
    /\ Limiter.sleeping s = []
    /\ Limiter.spaced (Limiter.started s) = true
    /\ length (Limiter.started s) = length (List.filter Serial.isCall steps).
Proof.
  intros Hall.
  destruct (serial_run steps (Limiter.boot t0) Hall)
    as (actions & s & H); try reflexivity; [discriminate|].
  exists actions, s. exact H.
Qed.

Lemma serial_calls_keep_the_interval_witness :
  Forall Serial.nonnegative
    [Serial.Complete nominatim; Serial.Idle 100; Serial.Complete nominatim;
     Serial.Idle 100; Serial.Complete nominatim]
  /\ exists actions s,
      Serial.schedule
        [Serial.Complete nominatim; Serial.Idle 100; Serial.Complete nominatim;
         Serial.Idle 100; Serial.Complete nominatim]
        (Limiter.boot 1700000000000) = Some actions
      /\ Limiter.run actions (Limiter.boot 1700000000000) = Some s
      /\ Limiter.started s
         = [(nominatim, 1700000000000);
            (nominatim, 1700000001100);
            (nominatim, 1700000002200)]
      /\ Limiter.spaced (Limiter.started s) = true.
Proof.
  assert (Hall : Forall Serial.nonnegative
                   [Serial.Complete nominatim; Serial.Idle 100;
                    Serial.Complete nominatim; Serial.Idle 100;
                    Serial.Complete nominatim]).
  { repeat constructor; cbn; lia. }
  split; [exact Hall|].
  destruct (serial_calls_keep_the_interval _ 1700000000000 Hall)
    as (actions & s & Hsched & Hrun & _ & Hsp & _).
  exists actions, s. split; [exact Hsched|]. split; [exact Hrun|].
  split; [|exact Hsp].
  vm_compute in Hsched. injection Hsched as <-.
  vm_compute in Hrun. injection Hrun as <-. reflexivity.
Defined.

(* --------------------------------------------------------------------- *)
(** ** More on the decoder and the formatting helpers *)
(* --------------------------------------------------------------------- *)

Lemma track_app ds1 : forall lat lng ds2,
  track lat lng (ds1 ++ ds2)
  = track lat lng ds1
    ++ track (lat + sumZ (List.map fst ds1)) (lng + sumZ (List.map snd ds1)) ds2.
Proof.
  induction ds1 as [|[dlat dlng] ds1 IH]; intros lat lng ds2.
  - cbn. rewrite !Z.add_0_r. reflexivity.
  - cbn [app track List.map fst snd sumZ fold_right]. rewrite IH.
    cbn [app]. do 2 f_equal; unfold sumZ; f_equal; lia.
Qed.

Lemma encodePairs_app ps1 ps2 :
  encodePairs (ps1 ++ ps2) = encodePairs ps1 ++ encodePairs ps2.
Proof. unfold encodePairs. rewrite List.map_app, concat_app. reflexivity. Qed.

(** X17.  Decoding is stable under extension: a well-formed string followed
    by further well-formed pairs decodes to the points of the string alone,
    followed by one point per further pair, which continue from the sums
    reached at the end of the string. *)
Theorem decodePolyline_extends (ps1 ps2 : list (list Z * list Z)) :
  wfPairs ps1 -> wfPairs ps2 ->
  exists pts1 pts2,
    decodePolyline (encodePairs ps1) = Some pts1
    /\ decodePolyline (encodePairs ps1 ++ encodePairs ps2) = Some (pts1 ++ pts2)
    /\ length pts1 = length ps1
    /\ length pts2 = length ps2
    /\ pts2 = track (sumZ (List.map fst (deltas ps1)))
                    (sumZ (List.map snd (deltas ps1))) (deltas ps2).
Proof.
  intros H1 H2.
  exists (track 0 0 (deltas ps1)),
         (track (sumZ (List.map fst (deltas ps1)))
                (sumZ (List.map snd (deltas ps1))) (deltas ps2)).
  split; [apply decodePolyline_pairs, H1|]. split.
  - rewrite <- encodePairs_app, decodePolyline_pairs
      by (apply Forall_app; split; assumption).
    unfold deltas at 1. rewrite List.map_app. fold (deltas ps1) (deltas ps2).
    rewrite track_app. reflexivity.
  - rewrite !track_length. unfold deltas. rewrite !length_map. auto.
Qed.

Lemma decodePolyline_extends_witness :
  wfPairs (firstn 1 Samples.referencePairs)
  /\ wfPairs (skipn 1 Samples.referencePairs)
  /\ exists pts1 pts2,
      decodePolyline (encodePairs (firstn 1 Samples.referencePairs)) = Some pts1
      /\ decodePolyline (codeUnits Samples.reference) = Some (pts1 ++ pts2)
      /\ length pts1 = 1%nat
      /\ length pts2 = 2%nat.
Proof.
  assert (H1 : wfPairs (firstn 1 Samples.referencePairs)).
  { repeat constructor; cbn; try discriminate; lia. }
  assert (H2 : wfPairs (skipn 1 Samples.referencePairs)).
  { repeat constructor; cbn; try discriminate; lia. }
  split; [exact H1|]. split; [exact H2|].
  destruct (decodePolyline_extends _ _ H1 H2)
    as (pts1 & pts2 & Hd1 & Hd & Hl1 & Hl2 & _).
  exists pts1, pts2. split; [exact Hd1|]. split; [exact Hd|].
  split; [exact Hl1 | exact Hl2].
Defined.

(** X18.  The zig-zag step in closed form: an even value [2v] stands for
    [v] and an odd value [2v + 1] for [-v - 1], so that the lowest bit of the
    decoded groups is the sign of the delta. *)
Theorem unzigzag_closed_form (v : Z) :
  unzigzag (2 * v) = v
  /\ unzigzag (2 * v + 1) = - v - 1
  /\ (0 <= v -> 0 <= unzigzag (2 * v) /\ unzigzag (2 * v + 1) < 0).
Proof.
  assert (Heven : unzigzag (2 * v) = v).
  { unfold unzigzag, sar1.
    change 1 with (Z.ones 1) at 1. rewrite Z.land_ones by lia.
    change (2 ^ 1) with 2.
    replace ((2 * v) mod 2) with 0
      by (symmetry; rewrite Z.mul_comm; apply Z.mod_mul; lia).
    cbn [Z.eqb negb]. rewrite Z.shiftr_div_pow2 by lia.
    change (2 ^ 1) with 2. rewrite Z.mul_comm. apply Z.div_mul. lia. }
  assert (Hodd : unzigzag (2 * v + 1) = - v - 1).
  { unfold unzigzag, sar1, bnot.
    change 1 with (Z.ones 1) at 2. rewrite Z.land_ones by lia.
    change (2 ^ 1) with 2.
    replace ((2 * v + 1) mod 2) with 1
      by (symmetry; rewrite Z.add_comm, Z.mul_comm, Z.mod_add by lia;
          reflexivity).
    cbn [Z.eqb negb]. rewrite Z.shiftr_div_pow2 by lia.
    change (2 ^ 1) with 2.
    replace ((2 * v + 1) / 2) with v
      by (symmetry; rewrite Z.add_comm, Z.mul_comm, Z.div_add by lia;
          reflexivity).
    apply Z.lnot_eq_pred_opp. }
  split; [exact Heven|]. split; [exact Hodd|]. intros Hv.
  rewrite Heven, Hodd. lia.
Qed.

Lemma unzigzag_closed_form_witness :
  0 <= 3850000
  /\ unzigzag (2 * 3850000) = 3850000
  /\ unzigzag (2 * 12019999 + 1) = - 12020000.
Proof.
  destruct (unzigzag_closed_form 3850000) as (He & _ & _).
  destruct (unzigzag_closed_form 12019999) as (_ & Ho & _).
  split; [lia|]. split; [exact He | exact Ho].
Defined.

(** *** [formatDuration] *)

Lemma string_length_app (a b : string) :
  String.length (a ++ b) = (String.length a + String.length b)%nat.
Proof.
  induction a as [|c a IH]; [reflexivity|].
  simpl. f_equal. exact IH.
Qed.

Lemma pad2_length n : 0 <= n < 100 -> String.length (Server.pad2 n) = 2%nat.
Proof.
  intros Hn.
  assert (Hall : forallb (fun k => (String.length (Server.pad2 (Z.of_nat k))
                                    =? 2)%nat) (seq 0 100) = true)
    by (vm_compute; reflexivity).
  rewrite forallb_forall in Hall.
  specialize (Hall (Z.to_nat n)).
  rewrite Z2Nat.id in Hall by lia.
  apply Nat.eqb_eq, Hall, in_seq. lia.
Qed.

(** X19.  Durations have a fixed width.  Below one hour [formatDuration]
    gives the five characters [MM:SS], from one hour up to a hundred hours
    the eight characters [HH:MM:SS], each field padded to two digits. *)
Theorem formatDuration_width (seconds : Z) :
  (0 <= seconds < 3600 ->
   Server.formatDuration seconds
   = (Server.pad2 (seconds / 60) ++ ":" ++ Server.pad2 (seconds mod 60))%string
   /\ String.length (Server.formatDuration seconds) = 5%nat)
  /\ (3600 <= seconds < 360000 ->
      Server.formatDuration seconds
      = (Server.pad2 (seconds / 3600) ++ ":"
         ++ Server.pad2 (seconds mod 3600 / 60) ++ ":"
         ++ Server.pad2 (seconds mod 60))%string
      /\ String.length (Server.formatDuration seconds) = 8%nat).
Proof.
  unfold Server.formatDuration. split; intros Hs.
  - rewrite !Z.rem_mod_nonneg by lia.
    replace (0 <? seconds / 3600) with false
      by (symmetry; apply Z.ltb_ge; rewrite Z.div_small by lia; lia).
    rewrite (Z.mod_small seconds 3600) by lia.
    split; [reflexivity|].
    rewrite !string_length_app, !pad2_length; [reflexivity| |].
    + pose proof (Z.mod_pos_bound seconds 60). lia.
    + split; [apply Z.div_pos; lia | apply Z.div_lt_upper_bound; lia].
  - rewrite !Z.rem_mod_nonneg by lia.
    replace (0 <? seconds / 3600) with true
      by (symmetry; apply Z.ltb_lt; apply Z.div_str_pos; lia).
    split; [reflexivity|].
    rewrite !string_length_app, !pad2_length; [reflexivity| | |].
    + pose proof (Z.mod_pos_bound seconds 60). lia.
    + pose proof (Z.mod_pos_bound seconds 3600).
      split; [apply Z.div_pos; lia | apply Z.div_lt_upper_bound; lia].
    + split; [apply Z.div_pos; lia | apply Z.div_lt_upper_bound; lia].
Qed.

Lemma formatDuration_width_witness :
  0 <= 3725 < 360000
  /\ Server.formatDuration 3725 = "01:02:05"%string
  /\ String.length (Server.formatDuration 3725) = 8%nat.
Proof.
  destruct (formatDuration_width 3725) as (_ & Hlong).
  destruct Hlong as (Heq & Hlen); [lia|].
  split; [lia|]. split; [rewrite Heq; vm_compute; reflexivity | exact Hlen].
Defined.

(* --------------------------------------------------------------------- *)
(** ** Tokens and routes *)
(* --------------------------------------------------------------------- *)

Lemma getAuthToken_run E athleteId s :
  Tokens.getAuthToken E athleteId s
  = match sendOutcome (Auth.base E) (sends (Auth.world s)) with
    | Replied _ =>
        (Ret (Auth.authTable s !! athleteId),
         Auth.mkService (Tokens.counted (Auth.world s)) (Auth.authTable s)
           (Auth.posts s))
    | Rejected error =>
        (Throw error,
         Auth.mkService (Tokens.counted (Auth.world s)) (Auth.authTable s)
           (Auth.posts s))
    end.
Proof.
  unfold Tokens.getAuthToken, Auth.tryCatch, Tokens.sendGet, Auth.throw.
  destruct (sendOutcome _ _); reflexivity.
Qed.

Lemma storeAuthToken_run E athleteId tokenData s :
  Tokens.storeAuthToken E athleteId tokenData s
  = match sendOutcome (Auth.base E) (sends (Auth.world s)) with
    | Replied _ =>
        (Ret true,
         Auth.mkService (Tokens.counted (Auth.world s))
           (<[athleteId :=
                AuthItem.mk athleteId (Token.access_token tokenData)
                  (Token.refresh_token tokenData) (Token.expires_at tokenData)
                  (Token.athlete_info tokenData)
                  (clock (Auth.world s)) (clock (Auth.world s))]>
              (Auth.authTable s))
           (Auth.posts s))
    | Rejected error =>
        (Throw error,
         Auth.mkService (Tokens.counted (Auth.world s)) (Auth.authTable s)
           (Auth.posts s))
    end.
Proof.
  unfold Tokens.storeAuthToken, Auth.bind, Auth.lift, dateNow, Auth.tryCatch,
    Tokens.sendPut, Auth.throw, Auth.ret.
  destruct s as [w table posts]. cbn [Auth.world Auth.authTable Auth.posts].
  destruct (sendOutcome _ _); reflexivity.
Qed.

Lemma refreshAccessToken_run E athleteId refreshToken s :
  Tokens.refreshAccessToken E athleteId refreshToken s
  = match Auth.tokenReply E (Token.RefreshToken refreshToken) (Auth.posts s) with
    | Replied data =>
        match sendOutcome (Auth.base E) (sends (Auth.world s)) with
        | Replied _ =>
            (Ret data,
             Auth.mkService (Tokens.counted (Auth.world s))
               (<[athleteId :=
                    AuthItem.mk athleteId (Token.access_token data)
                      (Token.refresh_token data) (Token.expires_at data)
                      (Token.athlete_info data)
                      (clock (Auth.world s)) (clock (Auth.world s))]>
                  (Auth.authTable s))
               (S (Auth.posts s)))
        | Rejected error =>
            (Throw error,
             Auth.mkService (Tokens.counted (Auth.world s)) (Auth.authTable s)
               (S (Auth.posts s)))
        end
    | Rejected error =>
        (Throw error,
         Auth.mkService (Auth.world s) (Auth.authTable s) (S (Auth.posts s)))
    end.
Proof.
  unfold Tokens.refreshAccessToken, Auth.tryCatch. unfold Auth.bind at 1.
  unfold Tokens.axiosPost.
  destruct (Auth.tokenReply E _ _) as [data|error]; [|reflexivity].
  unfold Auth.bind at 1. rewrite storeAuthToken_run.
  cbn [Auth.world Auth.authTable Auth.posts].
  destruct (sendOutcome _ _); reflexivity.
Qed.

(** The whole of [getValidAccessToken], case by case. *)
Lemma getValidAccessToken_run E athleteId s :
  Tokens.getValidAccessToken E athleteId s
  = match sendOutcome (Auth.base E) (sends (Auth.world s)) with
    | Rejected error =>
        (Throw error,
         Auth.mkService (Tokens.counted (Auth.world s)) (Auth.authTable s)
           (Auth.posts s))
    | Replied _ =>
        let s1 := Auth.mkService (Tokens.counted (Auth.world s))
                    (Auth.authTable s) (Auth.posts s) in
        match Auth.authTable s !! athleteId with
        | None => (Throw (plainError "No authentication data found"), s1)
        | Some authData =>
            if Tokens.expiring (AuthItem.expires_at authData)
                 (clock (Auth.world s) / 1000)
            then
              match Tokens.refreshAccessToken E athleteId
                      (AuthItem.refresh_token authData) s1 with
              | (Ret refreshedTokens, s2) =>
                  (Ret (Token.access_token refreshedTokens), s2)
              | (Throw error, s2) => (Throw error, s2)
              | (OutOfFuel, s2) => (OutOfFuel, s2)
              end
            else (Ret (AuthItem.access_token authData), s1)
        end
    end.
Proof.
  unfold Tokens.getValidAccessToken. unfold Auth.bind at 1.
  rewrite getAuthToken_run.
  destruct (sendOutcome _ _) as [[]|error]; [|reflexivity].
  cbv zeta. destruct (Auth.authTable s !! athleteId) as [authData|];
    [|reflexivity].
  unfold Auth.bind at 1, Auth.lift, dateNow.
  cbn [Auth.world Tokens.counted clock].
  destruct (Tokens.expiring _ _); [|reflexivity].
  unfold Auth.bind, Auth.ret.
  destruct (Tokens.refreshAccessToken E athleteId _ _) as [[r|e|] s2];
    reflexivity.
Qed.

(** X20.  [getValidAccessToken], when the lookup goes through.  Without a
    record it throws "No authentication data found".  A token that does not
    expire within 300 seconds (or has no expiry) is returned as stored, and
    the provider is not asked.  A token about to expire is exchanged: the
    new access token is returned and the record is replaced by one built
    from the provider's answer alone; when the provider rejects the
    exchange the error is thrown and the record is kept. *)
Theorem getValidAccessToken_spec (E : Auth.Provider) (athleteId : string)
        (s : Auth.Service) :
  sendOutcome (Auth.base E) (sends (Auth.world s)) = Replied tt ->
  let now := clock (Auth.world s) / 1000 in
  (Auth.authTable s !! athleteId = None ->
   exists s',
     Tokens.getValidAccessToken E athleteId s
     = (Throw (plainError "No authentication data found"), s')
     /\ Auth.authTable s' = Auth.authTable s
     /\ Auth.posts s' = Auth.posts s)
  /\ (forall authData,
        Auth.authTable s !! athleteId = Some authData ->
        Tokens.expiring (AuthItem.expires_at authData) now = false ->
        exists s',
          Tokens.getValidAccessToken E athleteId s
          = (Ret (AuthItem.access_token authData), s')
          /\ Auth.authTable s' = Auth.authTable s
          /\ Auth.posts s' = Auth.posts s)
  /\ (forall authData data,
        Auth.authTable s !! athleteId = Some authData ->
        Tokens.expiring (AuthItem.expires_at authData) now = true ->
        Auth.tokenReply E (Token.RefreshToken (AuthItem.refresh_token authData))
          (Auth.posts s) = Replied data ->
        sendOutcome (Auth.base E) (S (sends (Auth.world s))) = Replied tt ->
        exists s',
          Tokens.getValidAccessToken E athleteId s
          = (Ret (Token.access_token data), s')
          /\ Auth.authTable s'
             = <[athleteId :=
                   AuthItem.mk athleteId (Token.access_token data)
                     (Token.refresh_token data) (Token.expires_at data)
                     (Token.athlete_info data)
                     (clock (Auth.world s)) (clock (Auth.world s))]>
                 (Auth.authTable s)
          /\ Auth.posts s' = S (Auth.posts s))
  /\ (forall authData error,
        Auth.authTable s !! athleteId = Some authData ->
        Tokens.expiring (AuthItem.expires_at authData) now = true ->
        Auth.tokenReply E (Token.RefreshToken (AuthItem.refresh_token authData))
          (Auth.posts s) = Rejected error ->
        exists s',
          Tokens.getValidAccessToken E athleteId s = (Throw error, s')
          /\ Auth.authTable s' = Auth.authTable s).
Proof.
  intros Hok now. subst now.
  rewrite getValidAccessToken_run, Hok. cbv zeta.
  split; [|split; [|split]].
  - intros ->. eexists. split; [reflexivity|]. split; reflexivity.
  - intros authData -> ->. eexists. split; [reflexivity|]. split; reflexivity.
  - intros authData data -> -> Hreply Hput.
    rewrite refreshAccessToken_run.
    cbn [Auth.world Auth.authTable Auth.posts Tokens.counted sends clock].
    rewrite Hreply, Hput.
    eexists. split; [reflexivity|]. split; reflexivity.
  - intros authData error -> -> Hreply.
    rewrite refreshAccessToken_run.
    cbn [Auth.world Auth.authTable Auth.posts Tokens.counted sends clock].
    rewrite Hreply.
    eexists. split; [reflexivity|]. reflexivity.
Qed.

Lemma getValidAccessToken_spec_witness :
  sendOutcome (Auth.base (Cases.provider Samples.accepted))
    (sends (Auth.world Cases.service0)) = Replied tt
  /\ (exists s',
         Tokens.getValidAccessToken (Cases.provider Samples.accepted) "42"
           Cases.service0 = (Ret "access-1"%string, s')
         /\ Auth.posts s' = 0%nat)
  /\ (exists s' item,
         Tokens.getValidAccessToken (Cases.provider Samples.accepted) "7"
           Cases.service0 = (Ret "access-new"%string, s')
         /\ Auth.authTable s' !! "7"%string = Some item
         /\ AuthItem.athlete_info item = None
         /\ Auth.posts s' = 1%nat).
Proof.
  split; [reflexivity|].
  destruct (getValidAccessToken_spec (Cases.provider Samples.accepted) "42"
              Cases.service0 eq_refl) as (_ & Hfresh & _ & _).
  destruct (getValidAccessToken_spec (Cases.provider Samples.accepted) "7"
              Cases.service0 eq_refl) as (_ & _ & Hold & _).
  split.
  - destruct (Hfresh Cases.freshItem) as (s' & Hrun & _ & Hposts);
      [reflexivity | reflexivity |].
    exists s'. split; [exact Hrun | exact Hposts].
  - destruct (Hold Cases.expiredItem Cases.refreshed)
      as (s' & Hrun & Htable & Hposts); try reflexivity.
    exists s'. eexists. split; [exact Hrun|]. split.
    + rewrite Htable. apply lookup_insert_eq.
    + split; [reflexivity | exact Hposts].
Defined.

Lemma getValidAccessToken_keeps E athleteId s :
  (forall other,
      other <> athleteId ->
      Auth.authTable (snd (Tokens.getValidAccessToken E athleteId s)) !! other
      = Auth.authTable s !! other)
  /\ store (Auth.world (snd (Tokens.getValidAccessToken E athleteId s)))
     = store (Auth.world s)
  /\ trace (Auth.world (snd (Tokens.getValidAccessToken E athleteId s)))
     = trace (Auth.world s).
Proof.
  rewrite getValidAccessToken_run.
  destruct (sendOutcome _ _) as [[]|error]; [|auto].
  cbv zeta. destruct (Auth.authTable s !! athleteId) as [authData|]; [|auto].
  destruct (Tokens.expiring _ _); [|auto].
  rewrite refreshAccessToken_run.
  cbn [Auth.world Auth.authTable Auth.posts Tokens.counted sends clock].
  destruct (Auth.tokenReply E _ _) as [data|error]; [|auto].
  destruct (sendOutcome _ _) as [[]|error]; [|auto].
  cbn [snd Auth.authTable Auth.world store trace Tokens.counted].
  split; [|auto]. intros other Hne. apply lookup_insert_ne. congruence.
Qed.

(** X21.  [getValidAccessToken] touches nothing but the record of its
    athlete: whatever happens, the records of the other athletes and the
    activities table are the same after it. *)
Theorem getValidAccessToken_frame (E : Auth.Provider) (athleteId : string)
        (s : Auth.Service) (other : string) :
  other <> athleteId ->
  let s' := snd (Tokens.getValidAccessToken E athleteId s) in
  Auth.authTable s' !! other = Auth.authTable s !! other
  /\ store (Auth.world s') = store (Auth.world s)
  /\ trace (Auth.world s') = trace (Auth.world s).
Proof.
  intros Hne. cbv zeta.
  destruct (getValidAccessToken_keeps E athleteId s) as (Hother & Hst & Htr).
  split; [apply Hother, Hne | split; assumption].
Qed.

Lemma getValidAccessToken_frame_witness :
  let s' := snd (Tokens.getValidAccessToken (Cases.provider Samples.accepted)
                   "7" Cases.service0) in
  Auth.authTable s' !! "42"%string = Some Cases.freshItem.
Proof.
  cbv zeta.
  destruct (getValidAccessToken_frame (Cases.provider Samples.accepted) "7"
              Cases.service0 "42") as (Hother & _); [discriminate|].
  rewrite Hother. reflexivity.
Defined.

Lemma stillValid_expiring expires_at now :
  Tokens.stillValid expires_at now = negb (Tokens.expiring expires_at now).
Proof.
  unfold Tokens.stillValid, Tokens.expiring, Tokens.truthyNumber.
  destruct expires_at as [z|]; [|reflexivity].
  destruct (z =? 0); cbn [negb orb andb]; [reflexivity|].
  rewrite Z.ltb_antisym. reflexivity.
Qed.

(** X22.  The status route and the token gateway agree.  For an athlete
    with a record, [/auth/status] answers with the stored profile and
    expiry, and its [token_valid] is true exactly when
    [getValidAccessToken], called at the same moment, would hand out the
    stored access token without asking the provider for a new one. *)
Theorem authStatus_agrees_with_refresh (E : Auth.Provider)
        (athlete_id : string) (s : Auth.Service) (authData : AuthItem.t) :
  sendOutcome (Auth.base E) (sends (Auth.world s)) = Replied tt ->
  Auth.authTable s !! athlete_id = Some authData ->
  exists token_valid s',
    Routes.authStatus E athlete_id s
    = (Ret (Routes.AuthStatus (AuthItem.athlete_info authData) token_valid
              (AuthItem.expires_at authData)), s')
    /\ (token_valid = true ->
        fst (Tokens.getValidAccessToken E athlete_id s)
        = Ret (AuthItem.access_token authData)
        /\ Auth.posts (snd (Tokens.getValidAccessToken E athlete_id s))
           = Auth.posts s)
    /\ (token_valid = false ->
        Auth.posts (snd (Tokens.getValidAccessToken E athlete_id s))
        = S (Auth.posts s)).
Proof.
  intros Hok Hrec.
  unfold Routes.authStatus, Auth.tryCatch. unfold Auth.bind at 1.
  rewrite getAuthToken_run, Hok, Hrec.
  unfold Auth.bind, Auth.lift, dateNow, Auth.ret.
  cbn [Auth.world Tokens.counted clock Auth.authTable Auth.posts].
  eexists _, _. split; [reflexivity|].
  rewrite getValidAccessToken_run, Hok, Hrec, stillValid_expiring. cbv zeta.
  destruct (Tokens.expiring _ _); cbn [negb]; split; try discriminate.
  - intros _. rewrite refreshAccessToken_run.
    cbn [Auth.world Auth.authTable Auth.posts Tokens.counted sends clock].
    destruct (Auth.tokenReply E _ _) as [data|error]; [|reflexivity].
    destruct (sendOutcome (Auth.base E) (S (sends (Auth.world s))))
      as [[]|error]; reflexivity.
  - intros _. split; reflexivity.
Qed.

Lemma authStatus_agrees_with_refresh_witness :
  exists s',
    Routes.authStatus (Cases.provider Samples.accepted) "7" Cases.service0
    = (Ret (Routes.AuthStatus (Some (Token.mkAthlete 7 "rider")) false
              (Some 1699999000)), s')
    /\ Auth.posts (snd (Tokens.getValidAccessToken
                          (Cases.provider Samples.accepted) "7" Cases.service0))
       = 1%nat.
Proof.
  destruct (authStatus_agrees_with_refresh (Cases.provider Samples.accepted)
              "7" Cases.service0 Cases.expiredItem eq_refl eq_refl)
    as (valid & s' & Hrun & _ & Hstale).
  pose proof Hrun as Hc. vm_compute in Hc.
  assert (Hv : valid = false) by (injection Hc as <- _; reflexivity).
  exists s'. split; [rewrite Hrun, Hv; reflexivity | exact (Hstale Hv)].
Defined.

(** X23.  The callback of the OAuth flow always answers with a redirect.
    It reports success exactly when the request carries no error and a
    code, the provider answers the exchange of that code with a reply that
    names an athlete, and the auth table accepts the write.  The record of
    the athlete is then in the auth table before the redirect, with the
    tokens and the profile of that very reply; in every other case the
    answer is one of the three error redirects and the table is as before.
    After a success the stored token is at once the one
    [getValidAccessToken] hands out, unless it is already about to
    expire. *)
Theorem authCallback_stores_before_success (E : Auth.Provider)
        (code error : option string) (s : Auth.Service) :
  exists query s',
    Routes.authCallback E code error s = (Ret (Routes.Redirect query), s')
    /\ store (Auth.world s') = store (Auth.world s)
    /\ ((exists code' athlete data,
            truthyOptString error = false
            /\ code = Some code'
            /\ truthyString code' = true
            /\ Auth.tokenReply E (Token.AuthorizationCode code')
                 (Auth.posts s) = Replied data
            /\ Token.athlete data = Some athlete
            /\ sendOutcome (Auth.base E) (sends (Auth.world s)) = Replied tt
            /\ query = ("auth=success&athlete_id="
                          ++ pretty (Token.ident athlete))%string
            /\ Auth.authTable s'
               = <[pretty (Token.ident athlete) :=
                     AuthItem.mk (pretty (Token.ident athlete))
                       (Token.access_token data) (Token.refresh_token data)
                       (Token.expires_at data) (Some athlete)
                       (clock (Auth.world s)) (clock (Auth.world s))]>
                   (Auth.authTable s)
            /\ (sendOutcome (Auth.base E) (sends (Auth.world s')) = Replied tt ->
                Tokens.expiring (Token.expires_at data)
                  (clock (Auth.world s') / 1000) = false ->
                fst (Tokens.getValidAccessToken E
                       (pretty (Token.ident athlete)) s')
                = Ret (Token.access_token data)))
        \/ (In query ["error=auth_failed"; "error=no_code";
                      "error=token_exchange_failed"]%string
            /\ Auth.authTable s' = Auth.authTable s))
    /\ (forall code' athlete data,
          truthyOptString error = false ->
          code = Some code' ->
          truthyString code' = true ->
          Auth.tokenReply E (Token.AuthorizationCode code') (Auth.posts s)
          = Replied data ->
          Token.athlete data = Some athlete ->
          sendOutcome (Auth.base E) (sends (Auth.world s)) = Replied tt ->
          query = ("auth=success&athlete_id="
                     ++ pretty (Token.ident athlete))%string
          /\ Auth.authTable s' !! pretty (Token.ident athlete)
             = Some (AuthItem.mk (pretty (Token.ident athlete))
                       (Token.access_token data) (Token.refresh_token data)
                       (Token.expires_at data) (Some athlete)
                       (clock (Auth.world s)) (clock (Auth.world s)))).
Proof.
  unfold Routes.authCallback.
  destruct (truthyOptString error) eqn:Herror.
  { exists "error=auth_failed"%string, s. split; [reflexivity|].
    split; [reflexivity|]. split.
    - right. split; [left; reflexivity | reflexivity].
    - discriminate. }
  destruct code as [code|].
  2:{ exists "error=no_code"%string, s. split; [reflexivity|].
      split; [reflexivity|]. split.
      - right. split; [right; left; reflexivity | reflexivity].
      - discriminate. }
  destruct (truthyString code) eqn:Hcode; cbn [negb].
  2:{ exists "error=no_code"%string, s. split; [reflexivity|].
      split; [reflexivity|]. split.
      - right. split; [right; left; reflexivity | reflexivity].
      - intros c a d _ [= <-] Hc. congruence. }
  unfold Auth.tryCatch. unfold Auth.bind at 1. unfold Tokens.axiosPost.
  destruct (Auth.tokenReply E (Token.AuthorizationCode code) (Auth.posts s))
    as [data|err] eqn:Hreply.
  2:{ eexists _, _. split; [reflexivity|]. split; [reflexivity|]. split.
      - right. split; [right; right; left; reflexivity | reflexivity].
      - intros c a d _ [= <-] _ Hr. congruence. }
  destruct (Token.athlete data) as [athlete|] eqn:Hathlete.
  2:{ eexists _, _. split; [reflexivity|]. split; [reflexivity|]. split.
      - right. split; [right; right; left; reflexivity | reflexivity].
      - intros c a d _ [= <-] _ Hr Ha. congruence. }
  unfold Auth.bind at 1. rewrite storeAuthToken_run.
  cbn [Auth.world Auth.authTable Auth.posts Token.access_token
       Token.refresh_token Token.expires_at Token.athlete_info].
  destruct (sendOutcome (Auth.base E) (sends (Auth.world s))) as [[]|err]
    eqn:Hsend.
  2:{ eexists _, _. split; [reflexivity|]. split; [reflexivity|]. split.
      - right. split; [right; right; left; reflexivity | reflexivity].
      - intros c a d _ _ _ _ _ Hs. discriminate. }
  eexists _, _. split; [reflexivity|]. split; [reflexivity|]. split.
  - left. exists code, athlete, data.
    do 7 (split; [reflexivity || assumption|]).
    cbn [Auth.authTable Auth.world]. split; [reflexivity|].
    intros Hok Hfresh. rewrite getValidAccessToken_run. cbv zeta.
    cbn [Auth.authTable Auth.world Auth.posts]. rewrite Hok, lookup_insert_eq.
    cbn [AuthItem.expires_at AuthItem.access_token].
    rewrite Hfresh. reflexivity.
  - intros c a d _ [= <-] _ Hr Ha _.
    assert (d = data) by congruence. subst d.
    assert (a = athlete) by congruence. subst a.
    split; [reflexivity|].
    cbn [Auth.authTable]. apply lookup_insert_eq.
Qed.

Lemma authCallback_stores_before_success_witness :
  truthyOptString None = false
  /\ truthyString "code-1" = true
  /\ exists s' data athlete,
      Auth.tokenReply (Cases.provider Samples.accepted)
        (Token.AuthorizationCode "code-1") (Auth.posts Cases.service0)
      = Replied data
      /\ Token.athlete data = Some athlete
      /\ Routes.authCallback (Cases.provider Samples.accepted)
           (Some "code-1"%string) None Cases.service0
         = (Ret (Routes.Redirect "auth=success&athlete_id=42"), s')
      /\ (exists item,
            Auth.authTable s' !! "42"%string = Some item
            /\ AuthItem.access_token item = Token.access_token data)
      /\ fst (Tokens.getValidAccessToken (Cases.provider Samples.accepted)
                "42" s')
         = Ret "access-1"%string.
Proof.
  split; [reflexivity|]. split; [reflexivity|].
  destruct (authCallback_stores_before_success (Cases.provider Samples.accepted)
              (Some "code-1"%string) None Cases.service0)
    as (query & s' & Hrun & _ & _ & Hdone).
  assert (Hreply : exists data athlete,
             Auth.tokenReply (Cases.provider Samples.accepted)
               (Token.AuthorizationCode "code-1") (Auth.posts Cases.service0)
             = Replied data
             /\ Token.athlete data = Some athlete
             /\ pretty (Token.ident athlete) = "42"%string).
  { eexists _, _. split; [vm_compute; reflexivity|].
    split; vm_compute; reflexivity. }
  destruct Hreply as (data & athlete & Hreply & Hathlete & Hid).
  destruct (Hdone "code-1"%string athlete data eq_refl eq_refl eq_refl
              Hreply Hathlete eq_refl) as (Hquery & Hitem).
  rewrite Hid in Hquery, Hitem.
  exists s', data, athlete. split; [exact Hreply|]. split; [exact Hathlete|].
  split; [rewrite Hrun, Hquery; reflexivity|]. split.
  - eexists. split; [exact Hitem | reflexivity].
  - pose proof Hrun as Hc. vm_compute in Hc. injection Hc as _ <-.
    vm_compute. reflexivity.
Defined.


Lemma getActivities_eq E athleteId filters w :
  Dynamo.getActivities E athleteId filters w
  = match sendOutcome E (sends w) with
    | Replied _ =>
        (Ret (List.filter (Dynamo.passesFilters filters)
                (Dynamo.firstPage E athleteId (store w))),
         mkWorld (store w) (clock w) (lastApiCall w) (S (sends w))
           (requests w) (trace w ++ [Query athleteId true]))
    | Rejected error =>
        (Throw error,
         mkWorld (store w) (clock w) (lastApiCall w) (S (sends w))
           (requests w) (trace w ++ [Query athleteId false]))
    end.
Proof.
  unfold Dynamo.getActivities, tryCatch, bind, Dynamo.sendQuery, throw, ret.
  destruct (sendOutcome E (sends w)); reflexivity.
Qed.

Lemma getActivityCount_eq E athleteId w :
  Dynamo.getActivityCount E athleteId w
  = match sendOutcome E (sends w) with
    | Replied _ =>
        (Ret (length (Dynamo.firstPage E athleteId (store w))),
         mkWorld (store w) (clock w) (lastApiCall w) (S (sends w))
           (requests w) (trace w ++ [Query athleteId true]))
    | Rejected error =>
        (Ret 0%nat,
         mkWorld (store w) (clock w) (lastApiCall w) (S (sends w))
           (requests w) (trace w ++ [Query athleteId false]))
    end.
Proof.
  unfold Dynamo.getActivityCount, tryCatch, bind, Dynamo.sendQuery, ret.
  destruct (sendOutcome E (sends w)); reflexivity.
Qed.

Lemma filter_length_le {A} (f : A -> bool) l :
  (length (List.filter f l) <= length l)%nat.
Proof.
  induction l as [|x l IH]; [apply Nat.le_refl|].
  cbn [List.filter]. destruct (f x); cbn [length]; lia.
Qed.

(** X24.  [GET /activities] always answers, and changes neither table.
    Without an athlete identifier the answer is 400 and nothing is looked
    up.  The list is served only for an athlete with a record in the auth
    table; it holds records of that athlete only, [returned] is its length,
    and [total] is at least [returned] unless the count query failed, in
    which case it is 0. *)
Theorem listActivities_answers (E : Auth.Provider)
        (athlete_id activity_type race_filter : option string)
        (s : Auth.Service) :
  exists answer s',
    Routes.listActivities E athlete_id activity_type race_filter s
    = (Ret answer, s')
    /\ Auth.authTable s' = Auth.authTable s
    /\ store (Auth.world s') = store (Auth.world s)
    /\ (truthyOptString athlete_id = false ->
        answer = Routes.Failure 400 "athlete_id is required" /\ s' = s)
    /\ match answer with
       | Routes.ActivityList activities total returned =>
           returned = length activities
           /\ (total = 0%nat \/ (returned <= total)%nat)
           /\ exists athlete,
               athlete_id = Some athlete
               /\ is_Some (Auth.authTable s !! athlete)
               /\ forall a, In a activities ->
                            Item.athlete_id a = Some athlete
       | Routes.Failure code _ => code = 400 \/ code = 401 \/ code = 500
       | _ => False
       end.
Proof.
  unfold Routes.listActivities.
  destruct athlete_id as [athlete|].
  2:{ exists (Routes.Failure 400 "athlete_id is required"), s.
      repeat (split; [reflexivity|]). split; [auto|]. left. reflexivity. }
  cbn [truthyOptString]. destruct (truthyString athlete); cbn [negb].
  2:{ exists (Routes.Failure 400 "athlete_id is required"), s.
      repeat (split; [reflexivity|]). split; [auto|]. left. reflexivity. }
  unfold Auth.tryCatch. unfold Auth.bind at 1. rewrite getAuthToken_run.
  destruct (sendOutcome (Auth.base E) (sends (Auth.world s))) as [[]|error].
  2:{ destruct (Server.includes _ _);
        eexists _, _; (split; [reflexivity|]);
        repeat (split; [reflexivity|]); (split; [discriminate|]); auto. }
  destruct (Auth.authTable s !! athlete) as [authData|] eqn:Hrec.
  2:{ eexists _, _. split; [reflexivity|].
      repeat (split; [reflexivity|]). split; [discriminate|]. auto. }
  unfold Auth.bind at 1, Auth.lift. rewrite getActivities_eq.
  cbn [Auth.world Auth.authTable Auth.posts Tokens.counted sends store].
  destruct (sendOutcome (Auth.base E) (S (sends (Auth.world s))))
    as [[]|error].
  2:{ destruct (Server.includes _ _);
        eexists _, _; (split; [reflexivity|]);
        repeat (split; [reflexivity|]); (split; [discriminate|]); auto. }
  unfold Auth.bind at 1. rewrite getActivityCount_eq.
  cbn [Auth.world Auth.authTable Auth.posts sends store].
  destruct (sendOutcome (Auth.base E) (S (S (sends (Auth.world s)))))
    as [[]|error];
    (eexists _, _; split; [reflexivity|]);
    repeat (split; [reflexivity|]); (split; [discriminate|]);
    (split; [reflexivity|]); (split; [|exists athlete; split; [reflexivity|];
       split; [eauto|]; intros a Ha; apply List.filter_In in Ha as (Ha & _);
       apply In_firstPage, In_itemsOf in Ha as (_ & Ha); exact Ha]).
  - right. apply filter_length_le.
  - left. reflexivity.
Qed.

Lemma listActivities_answers_witness :
  truthyOptString None = false
  /\ exists s',
      Routes.listActivities (Cases.provider Samples.accepted) None None None
        Cases.service0
      = (Ret (Routes.Failure 400 "athlete_id is required"), s').
Proof.
  split; [reflexivity|].
  destruct (listActivities_answers (Cases.provider Samples.accepted) None None
              None Cases.service0) as (answer & s' & Hrun & _ & _ & Hnone & _).
  destruct (Hnone eq_refl) as (-> & _). exists s'. exact Hrun.
Defined.

(** X25.  [POST /activities/sync] starts a sync only with a token from
    [getValidAccessToken].  It leaves a sync running exactly when it answers
    that one has started, and that sync has the athlete and the mode of the
    request and the token the gateway handed out; an athlete without a
    record gets 401 and no sync.  The handler itself sends nothing to the
    activities table. *)
Theorem startSync_needs_a_token (E : Auth.Provider)
        (athlete_id : option string) (full_sync : bool) (s : Auth.Service) :
  exists answer job s',
    Routes.startSync E athlete_id full_sync s = (Ret (answer, job), s')
    /\ store (Auth.world s') = store (Auth.world s)
    /\ trace (Auth.world s') = trace (Auth.world s)
    /\ match job with
       | Some j =>
           answer = Routes.SyncStarted
                      (if full_sync then "full" else "incremental")
           /\ athlete_id = Some (Routes.job_athlete_id j)
           /\ Routes.job_full_sync j = full_sync
           /\ Tokens.getValidAccessToken E (Routes.job_athlete_id j) s
              = (Ret (Routes.job_accessToken j), s')
       | None =>
           exists code message,
             answer = Routes.Failure code message
             /\ (code = 400 \/ code = 401 \/ code = 500)
       end
    /\ (forall athlete,
          athlete_id = Some athlete ->
          truthyString athlete = true ->
          sendOutcome (Auth.base E) (sends (Auth.world s)) = Replied tt ->
          Auth.authTable s !! athlete = None ->
          answer = Routes.Failure 401 "Authentication expired"
          /\ job = None).
Proof.
  unfold Routes.startSync.
  destruct athlete_id as [athlete|].
  2:{ eexists _, _, s. split; [reflexivity|].
      repeat (split; [reflexivity|]).
      split; [eexists _, _; split; [reflexivity | auto]|]. discriminate. }
  destruct (truthyString athlete) eqn:Htruthy; cbn [negb].
  2:{ eexists _, _, s. split; [reflexivity|].
      repeat (split; [reflexivity|]).
      split; [eexists _, _; split; [reflexivity | auto]|].
      intros a [= <-] Ha. congruence. }
  destruct (getValidAccessToken_keeps E athlete s) as (_ & Hst & Htr).
  unfold Auth.tryCatch. unfold Auth.bind at 1.
  destruct (Tokens.getValidAccessToken E athlete s) as [[token|error|] s1]
    eqn:Hrun.
  - cbn [snd] in Hst, Htr. eexists _, _, _. split; [reflexivity|]. split; [exact Hst|].
    split; [exact Htr|]. split.
    + cbn [Routes.job_athlete_id Routes.job_full_sync Routes.job_accessToken].
      auto.
    + intros a [= <-] _ Hok Hnone.
      rewrite getValidAccessToken_run, Hok, Hnone in Hrun. discriminate.
  - cbn [snd] in Hst, Htr.
    destruct (Server.includes (err_message error) _) eqn:Hinc;
      (eexists _, _, _; split; [reflexivity|]; split; [exact Hst|];
       split; [exact Htr|];
       split; [eexists _, _; split; [reflexivity | auto]|]).
    + intros a [= <-] _ Hok Hnone. auto.
    + intros a [= <-] _ Hok Hnone.
      rewrite getValidAccessToken_run, Hok, Hnone in Hrun.
      injection Hrun as <- _. discriminate.
  - exfalso. rewrite getValidAccessToken_run in Hrun.
    destruct (sendOutcome _ _) as [[]|e]; [|discriminate].
    cbv zeta in Hrun.
    destruct (Auth.authTable s !! athlete) as [d|]; [|discriminate].
    destruct (Tokens.expiring _ _); [|discriminate].
    rewrite refreshAccessToken_run in Hrun.
    destruct (Auth.tokenReply E _ _); [|discriminate].
    cbn [Auth.world] in Hrun.
    destruct (sendOutcome _ _); discriminate.
Qed.

Lemma startSync_needs_a_token_witness :
  exists job s',
    Routes.startSync (Cases.provider Samples.accepted) (Some "99"%string) true
      Cases.service0
    = (Ret (Routes.Failure 401 "Authentication expired", job), s')
    /\ job = None.
Proof.
  destruct (startSync_needs_a_token (Cases.provider Samples.accepted)
              (Some "99"%string) true Cases.service0)
    as (answer & job & s' & Hrun & _ & _ & _ & Hnone).
  destruct (Hnone "99"%string) as (-> & ->); try reflexivity.
  exists None, s'. split; [exact Hrun | reflexivity].
Defined.

(** X26.  [GET /activities/sync/status] never answers 500: the count it
    reports comes from [getActivityCount], which turns a failed query into
    0, so the error branch of the handler cannot be reached.  The count is
    that of the one page that answers the query: the number of stored
    records of the athlete when they fit in the page, and fewer
    otherwise. *)
Theorem syncStatus_never_fails (E : Auth.Provider) (athlete_id : string)
        (s : Auth.Service) :
  exists total s',
    Routes.syncStatus E athlete_id s = (Ret (Routes.SyncStatus total), s')
    /\ store (Auth.world s') = store (Auth.world s)
    /\ total
       = match sendOutcome (Auth.base E) (sends (Auth.world s)) with
         | Replied _ =>
             length (Dynamo.firstPage (Auth.base E) athlete_id
                       (store (Auth.world s)))
         | Rejected _ => 0%nat
         end
    /\ (total
        <= length (Dynamo.itemsOf athlete_id (store (Auth.world s))))%nat
    /\ (sendOutcome (Auth.base E) (sends (Auth.world s)) = Replied tt ->
        (length (Dynamo.itemsOf athlete_id (store (Auth.world s)))
         <= queryPage (Auth.base E)
              (Dynamo.itemsOf athlete_id (store (Auth.world s))))%nat ->
        total = length (Dynamo.itemsOf athlete_id (store (Auth.world s)))).
Proof.
  unfold Routes.syncStatus, Auth.tryCatch, Auth.bind, Auth.lift, Auth.ret.
  rewrite getActivityCount_eq.
  destruct (sendOutcome _ _) as [[]|error]; eexists _, _;
    (split; [reflexivity|]); (split; [reflexivity|]);
    (split; [reflexivity|]); split.
  - unfold Dynamo.firstPage. rewrite List.length_firstn. apply Nat.le_min_r.
  - intros _ Hfits. rewrite (firstPage_all _ _ _ Hfits). reflexivity.
  - apply Nat.le_0_l.
  - discriminate.
Qed.

(* --------------------------------------------------------------------- *)
(** ** Handlers that always answer *)
(* --------------------------------------------------------------------- *)

Lemma pagedEnv_serves outcomes :
  Intake.servesPages (Cases.pagedEnv outcomes) "token"
    [Cases.firstPage; Cases.secondPage].
Proof.
  split; [|split].
  - repeat constructor; discriminate.
  - intros [|[|k]] p Hk; simpl in Hk; try (destruct k; discriminate);
      injection Hk as <-; reflexivity.
  - reflexivity.
Qed.

Lemma resync_stores_nothing_witness :
  Intake.servesPages (Cases.pagedEnv Samples.accepted) "token"
    [Cases.firstPage; Cases.secondPage]
  /\ exists report1 w1 total w2,
      Server.performBackgroundSync (Cases.pagedEnv Samples.accepted) 5 "42"
        "token" true Samples.world0 = (Ret (Some report1), w1)
      /\ Server.performBackgroundSync (Cases.pagedEnv Samples.accepted) 5 "42"
           "token" false w1
         = (Ret (Some (Server.mkSyncReport 0 2 total)), w2)
      /\ store w2 = store w1.
Proof.
  split; [apply pagedEnv_serves|].
  destruct (resync_stores_nothing (Cases.pagedEnv Samples.accepted) 5 "42"
              "token" true [Cases.firstPage; Cases.secondPage] Samples.world0
              (fun n => eq_refl) (pagedEnv_serves Samples.accepted))
    as (report1 & w1 & total & w2 & Hrun1 & Hrun2 & Hst); [simpl; lia|].
  exists report1, w1, total, w2. split; [exact Hrun1|].
  split; [exact Hrun2 | exact Hst].
Defined.

(** X27.  [performBackgroundSync] never rejects.  Whenever the fetch loop
    comes to an end, by returning or by throwing, the sync returns to its
    caller; it has logged a report exactly when neither the fetch nor a
    write threw, and a fetch that throws leaves the store as it was. *)
Theorem performBackgroundSync_never_rejects (E : Env) (fuel : nat)
        (athlete_id accessToken : string) (full_sync : bool) (w : World) :
  fst (Server.fetchStravaActivities E fuel accessToken w) <> OutOfFuel ->
  exists report w',
    Server.performBackgroundSync E fuel athlete_id accessToken full_sync w
    = (Ret report, w')
    /\ (forall error,
          fst (Server.fetchStravaActivities E fuel accessToken w) = Throw error ->
          report = None /\ store w' = store w)
    /\ ((forall n, sendOutcome E n = Replied tt) ->
        forall fetched,
          fst (Server.fetchStravaActivities E fuel accessToken w) = Ret fetched ->
          exists r, report = Some r
                    /\ (Server.storedCount r + Server.skippedCount r)%nat
                       = length fetched).
Proof.
  intros Hfuel.
  destruct (Server.fetchStravaActivities E fuel accessToken w)
    as [[fetched|error|] w1] eqn:Hfetch; cbn [fst] in *; [| |congruence].
  - assert (Hrun : exists report w',
               Server.performBackgroundSync E fuel athlete_id accessToken
                 full_sync w = (Ret report, w')).
    { destruct full_sync.
      - destruct (sync_full_run E fuel athlete_id accessToken w fetched w1
                    Hfetch) as (r & w' & evs & Hrun & _). eauto.
      - destruct (sync_incremental_run E fuel athlete_id accessToken w fetched
                    w1 Hfetch) as (r & w' & evs & Hrun & _). eauto. }
    destruct Hrun as (report & w' & Hrun).
    exists report, w'. split; [exact Hrun|]. split; [discriminate|].
    intros Hok fetched' [= <-]. destruct full_sync.
    + destruct (sync_full_ok E fuel athlete_id accessToken w fetched w1 Hok
                  Hfetch) as (total & w2 & _ & _ & _ & Hrun2 & _).
      rewrite Hrun in Hrun2. injection Hrun2 as -> _.
      eexists. split; [reflexivity|]. cbn. lia.
    + destruct (sync_incremental_ok E fuel athlete_id accessToken w fetched w1
                  Hok Hfetch) as (total & w2 & _ & _ & _ & Hrun2 & _).
      rewrite Hrun in Hrun2. injection Hrun2 as -> _.
      eexists. split; [reflexivity|]. cbn. apply filter_length_split.
  - destruct (fetch_keeps_store _ _ _ _ _ _ Hfetch) as (Hst & _).
    unfold Server.performBackgroundSync, tryCatch. unfold bind at 1.
    rewrite Hfetch. exists None, w1. split; [reflexivity|].
    split; [intros _ _; split; [reflexivity | exact Hst] | discriminate].
Qed.

Lemma performBackgroundSync_never_rejects_witness :
  fst (Server.fetchStravaActivities (Samples.upstreamEnv Samples.accepted) 3
         "token" Samples.world0) <> OutOfFuel
  /\ exists report w',
      Server.performBackgroundSync (Samples.upstreamEnv Samples.accepted) 3
        "42" "token" true Samples.world0 = (Ret report, w').
Proof.
  assert (Hfuel : fst (Server.fetchStravaActivities
                         (Samples.upstreamEnv Samples.accepted) 3 "token"
                         Samples.world0) <> OutOfFuel)
    by (vm_compute; discriminate).
  split; [exact Hfuel|].
  destruct (performBackgroundSync_never_rejects
              (Samples.upstreamEnv Samples.accepted) 3 "42" "token" true
              Samples.world0 Hfuel) as (report & w' & Hrun & _).
  exists report, w'. exact Hrun.
Defined.

(** The part of the detail handler inside its [try]: it comes to an end,
    and it has written to the store only when it returns the record it
    fetched. *)
Lemma getActivityDetails_body E req athlete_id w r w' :
  (let* activity := Dynamo.getActivity E (Server.params_id req) in
   let detailed :=
     match activity with
     | Some stored =>
         if (20 <? length (Item.coordinates stored))%nat
         then Some stored else None
     | None => None
     end in
   match detailed with
   | Some stored => ret (Server.Json stored)
   | None =>
       let* accessToken := awaitReply (validAccessToken E athlete_id) in
       let* stravaActivity :=
         awaitReply (stravaActivity E (Server.params_id req)) in
       if Server.rejectedAsVirtual stravaActivity then
         ret (Server.Status 404 "Activity not found or is virtual")
       else
         let* coordinates :=
           match Server.fullPolylineOf stravaActivity with
           | Some encoded => liftOption (decodePolyline (codeUnits encoded))
           | None => ret []
           end in
         if (length coordinates <? 3)%nat then
           ret (Server.Status 404 "Activity has insufficient GPS data")
         else
           match coordinates with
           | [] => throw (plainError "TypeError")
           | firstCoordinate :: _ =>
               let* country :=
                 Geo.getCountryFromCoordinates E
                   (Some [Finite (lat firstCoordinate);
                          Finite (lng firstCoordinate)]) in
               let detailedActivity :=
                 Item.mkActivity (Strava.id stravaActivity) (Some athlete_id)
                   (Strava.name stravaActivity)
                   (Server.mapStravaType (Strava.type stravaActivity))
                   (Server.toFixed1 (JS.divide (Strava.distance stravaActivity) 1000))
                   (Server.formatDuration (Strava.moving_time stravaActivity))
                   country (Server.isRaceOf stravaActivity) coordinates
                   (Strava.total_elevation_gain stravaActivity)
                   (Strava.average_speed stravaActivity)
                   (Strava.start_date stravaActivity) None in
               let* _ :=
                 tryCatch
                   (let* _ := Dynamo.storeActivities E [detailedActivity] in
                    ret tt)
                   (fun storeError => ret tt) in
               ret (Server.Json detailedActivity)
           end
   end)%js w = (r, w') ->
  match r with
  | Ret (Server.Json _) => True
  | Ret (Server.Status code _) => code = 404 /\ store w' = store w
  | Throw _ => store w' = store w
  | OutOfFuel => False
  end.
Proof.
  intros Hrun. unfold bind at 1 in Hrun. rewrite getActivity_run in Hrun.
  destruct (sendOutcome E (sends w)) as [[]|error].
  2:{ injection Hrun as <- <-. reflexivity. }
  cbv beta zeta in Hrun.
  set (w1 := mkWorld (store w) (clock w) (lastApiCall w) (S (sends w))
               (requests w)
               (trace w ++ [GetItem (Server.params_id req) true])) in Hrun.
  destruct (match store w !! Server.params_id req with
            | Some stored =>
                if (20 <? length (Item.coordinates stored))%nat
                then Some stored else None
            | None => None
            end) as [stored|].
  { injection Hrun as <- <-. exact I. }
  unfold bind at 1 in Hrun.
  destruct (validAccessToken E athlete_id) as [accessToken|error].
  2:{ injection Hrun as <- <-. reflexivity. }
  cbn [awaitReply ret] in Hrun. unfold bind at 1 in Hrun.
  destruct (stravaActivity E (Server.params_id req)) as [raw|error].
  2:{ injection Hrun as <- <-. reflexivity. }
  cbn [awaitReply ret] in Hrun.
  destruct (Server.rejectedAsVirtual raw) eqn:Hvirtual.
  { injection Hrun as <- <-. split; reflexivity. }
  destruct (rejectedAsVirtual_polyline raw Hvirtual) as [encoded Henc].
  rewrite Henc in Hrun.
  destruct (decodePolyline_returns (codeUnits encoded)) as [coordinates Hdec].
  rewrite Hdec in Hrun. cbn [liftOption] in Hrun.
  unfold bind at 1 in Hrun. cbn [ret] in Hrun.
  destruct (length coordinates <? 3)%nat eqn:Hfew.
  { injection Hrun as <- <-. split; reflexivity. }
  destruct coordinates as [|firstCoordinate others]; [discriminate|].
  unfold bind at 1 in Hrun.
  destruct (getCountryFromCoordinates_run E
              (Some [Finite (lat firstCoordinate);
                     Finite (lng firstCoordinate)]) w1)
    as (country & w2 & Hcountry & Hst2).
  rewrite Hcountry in Hrun. unfold bind at 1 in Hrun.
  unfold tryCatch, bind at 1 in Hrun.
  match type of Hrun with
  | context [Dynamo.storeActivities E [?d] w2] =>
      destruct (storeActivities_one E d w2) as (r3 & w3 & Hstore & Hr3 & _)
  end.
  rewrite Hstore in Hrun.
  destruct r3 as [n|e|]; [| |destruct Hr3];
    cbn [ret] in Hrun; injection Hrun as <- <-; exact I.
Qed.

Lemma detail_handler_cases error w1 :
  match err_status error with
  | Some 401 => ret (Server.Status 401 "Strava token expired")
  | _ => ret (Server.Status 500 "Failed to fetch activity details")
  end w1 = (Ret (Server.Status 401 "Strava token expired"), w1)
  \/ match err_status error with
     | Some 401 => ret (Server.Status 401 "Strava token expired")
     | _ => ret (Server.Status 500 "Failed to fetch activity details")
     end w1 = (Ret (Server.Status 500 "Failed to fetch activity details"), w1).
Proof.
  destruct (err_status error) as [z|]; [|right; reflexivity].
  destruct (Z.eq_dec z 401) as [->|Hne]; [left; reflexivity|].
  right. destruct z as [|p|p]; try reflexivity.
  do 9 (destruct p as [p|p|]; try reflexivity).
  congruence.
Qed.

(** X28.  The detail handler always answers and never lets an error out.
    Its answer is the record or one of the statuses 400, 401, 404 and 500;
    without an athlete identifier it is 400 and nothing is looked up; and
    whenever the answer is a status, the store is as it was before the
    request. *)
Theorem getActivityDetails_always_answers (E : Env)
        (req : Server.DetailRequest) (w : World) :
  exists response w',
    Server.getActivityDetails E req w = (Ret response, w')
    /\ match response with
       | Server.Json _ => True
       | Server.Status code _ =>
           (code = 400 \/ code = 401 \/ code = 404 \/ code = 500)
           /\ store w' = store w
       end
    /\ (truthyOptString (Server.query_athlete_id req) = false ->
        response = Server.Status 400 "athlete_id is required" /\ w' = w).
Proof.
  unfold Server.getActivityDetails.
  destruct (Server.query_athlete_id req) as [athlete_id|].
  2:{ eexists _, w. split; [reflexivity|]. split; [auto|]. auto. }
  cbn [truthyOptString].
  destruct (truthyString athlete_id); cbn [negb].
  2:{ eexists _, w. split; [reflexivity|]. split; [auto|]. auto. }
  unfold tryCatch.
  match goal with
  | |- context [match ?m w with _ => _ end] =>
      destruct (m w) as [r w1] eqn:Hbody
  end.
  apply getActivityDetails_body in Hbody.
  destruct r as [[d|code message]|error|].
  - eexists _, _. split; [reflexivity|]. split; [exact I | discriminate].
  - destruct Hbody as (-> & Hst).
    eexists _, _. split; [reflexivity|]. split; [auto | discriminate].
  - destruct (detail_handler_cases error w1) as [-> | ->];
      eexists _, _; (split; [reflexivity|]); (split; [auto | discriminate]).
  - destruct Hbody.
Qed.

Lemma getActivityDetails_always_answers_witness :
  truthyOptString (Server.query_athlete_id (Server.mkDetailRequest 5 None))
  = false
  /\ Server.getActivityDetails (Samples.upstreamEnv Samples.allRejected)
       (Server.mkDetailRequest 5 None) Samples.worldWithDetail
     = (Ret (Server.Status 400 "athlete_id is required"),
        Samples.worldWithDetail).
Proof.
  split; [reflexivity|].
  destruct (getActivityDetails_always_answers
              (Samples.upstreamEnv Samples.allRejected)
              (Server.mkDetailRequest 5 None) Samples.worldWithDetail)
    as (response & w' & Hrun & _ & Hnone).
  destruct (Hnone eq_refl) as (-> & ->). exact Hrun.
Defined.

(* --------------------------------------------------------------------- *)
(** ** Deletion when commands may fail *)
(* --------------------------------------------------------------------- *)

Lemma deleteBatches_any E :
  forall batches total w,
    exists done,
      store (snd (Dynamo.deleteBatches E batches total w))
      = Dynamo.deleteAll (List.map Item.id (concat done)) (store w)
      /\ incl (concat done) (concat batches).
Proof.
  induction batches as [|batch rest IH]; intros total w.
  - exists []. split; [reflexivity | apply incl_refl].
  - cbn [Dynamo.deleteBatches]. unfold bind at 1, tryCatch,
      Dynamo.sendBatchDelete.
    destruct (sendOutcome E (sends w)) as [[]|error].
    + match goal with
      | |- context [Dynamo.deleteBatches E rest ?t ?w1] =>
          destruct (IH t w1) as (done & Hst & Hincl)
      end.
      exists (batch :: done). rewrite Hst. cbn [store concat].
      rewrite List.map_app, deleteAll_app. split; [reflexivity|].
      apply incl_app_app; [apply incl_refl | exact Hincl].
    + exists []. split; [reflexivity|]. intros x [].
Qed.

(** X29.  [deleteAllActivities] is safe for the other athletes whatever
    the store does.  On a table in which every record sits under its own
    [id], a record of another athlete is the same after the call, also when
    a command is rejected half way; and the call adds and rewrites
    nothing. *)
Theorem deleteAllActivities_spares_the_others (E : Env) (athleteId : string)
        (w : World) :
  Store.wellKeyed (store w) ->
  (forall k a,
      store w !! k = Some a ->
      Item.athlete_id a <> Some athleteId ->
      store (snd (Dynamo.deleteAllActivities E athleteId w)) !! k = Some a)
  /\ (forall k a,
        store (snd (Dynamo.deleteAllActivities E athleteId w)) !! k = Some a ->
        store w !! k = Some a).
Proof.
  intros Hkeys.
  assert (Hst : exists ids,
             store (snd (Dynamo.deleteAllActivities E athleteId w))
             = Dynamo.deleteAll ids (store w)
             /\ incl ids
                  (List.map Item.id (Dynamo.itemsOf athleteId (store w)))).
  { unfold Dynamo.deleteAllActivities. unfold bind at 1.
    rewrite getActivities_eq.
    destruct (sendOutcome E (sends w)) as [[]|error].
    2:{ exists []. split; [reflexivity|]. intros x []. }
    rewrite (filter_all _ _ passes_noFilters).
    destruct (length (Dynamo.firstPage E athleteId (store w)) =? 0)%nat.
    { exists []. split; [reflexivity|]. intros x []. }
    destruct (makeBatches_spec (Dynamo.firstPage E athleteId (store w)))
      as (bs & Hbs & Hcat & _).
    unfold bind at 1. rewrite Hbs. cbn [liftOption ret].
    match goal with
    | |- context [Dynamo.deleteBatches E bs 0 ?w1] =>
        destruct (deleteBatches_any E bs 0 w1) as (done & Hdone & Hincl)
    end.
    exists (List.map Item.id (concat done)). split; [exact Hdone|].
    rewrite Hcat in Hincl. intros k Hk.
    apply in_map_iff in Hk as (a & <- & Ha).
    apply in_map, (In_firstPage E), Hincl, Ha. }
  destruct Hst as (ids & -> & Hincl). split.
  - intros k a Hk Hother. rewrite deleteAll_lookup.
    destruct (in_dec Z.eq_dec k ids) as [Hin|_]; [|exact Hk].
    exfalso. apply Hincl in Hin. apply in_map_iff in Hin as (b & Hid & Hb).
    apply In_itemsOf in Hb as ((k' & Hk') & Hown).
    pose proof (Hkeys _ _ Hk') as Hkey. rewrite Hid in Hkey. subst k'.
    rewrite Hk in Hk'. injection Hk' as ->. contradiction.
  - intros k a. rewrite deleteAll_lookup.
    destruct (in_dec Z.eq_dec k ids); [discriminate | auto].
Qed.

Lemma deleteAllActivities_spares_the_others_witness :
  Store.wellKeyed (store Cases.sharedWorld)
  /\ store (snd (Dynamo.deleteAllActivities
                   (Samples.upstreamEnv Samples.secondRejected) "42"
                   Cases.sharedWorld)) !! 2
     = Some Cases.eveningRide.
Proof.
  assert (Hkeys : Store.wellKeyed (store Cases.sharedWorld)).
  { intros k a Hk. cbn [store Cases.sharedWorld] in Hk.
    apply lookup_insert_Some in Hk as [[<- <-]|[_ Hk]]; [reflexivity|].
    apply lookup_singleton_Some in Hk as [<- <-]. reflexivity. }
  split; [exact Hkeys|].
  destruct (deleteAllActivities_spares_the_others
              (Samples.upstreamEnv Samples.secondRejected) "42"
              Cases.sharedWorld Hkeys) as (Hkept & _).
  apply Hkept; [vm_compute; reflexivity | discriminate].
Defined.

Lemma rateLimitedCall_waits_out_the_interval_witness :
  exists w',
    Geo.rateLimitedCall nominatim 1100
      (mkWorld ∅ 1700000000400 (mkLastApiCall 0 1700000000000) 0 0 [])
    = (Ret tt, w')
    /\ clock w' = 1700000001100
    /\ last_google (lastApiCall w') = 0.
Proof.
  destruct (rateLimitedCall_waits_out_the_interval nominatim 1100
              (mkWorld ∅ 1700000000400 (mkLastApiCall 0 1700000000000) 0 0 []))
    as (w' & Hrun & Hclock & _ & _ & Hother & _).
  exists w'. split; [exact Hrun|]. split; [exact Hclock|].
  apply (Hother google). discriminate.
Defined.

